(** * The Outlook mailbox bridge of openclaw: model and verified properties

    Shallow embedding of [extensions/outlook/src/token.ts], [graph.ts],
    [monitor.ts], [outbound.ts] and [runtime.ts].

    The TypeScript code is asynchronous but single-threaded: every [await]
    is a suspension point of one task.  It is embedded as a computation in
    a state / error / trace monad [M]:
    - the state ([World]) holds the wall clock read by [Date.now()], the
      module-level [tokenCache] and counters of the calls made so far;
    - a thrown exception (a rejected promise) is the [Threw] outcome;
    - the trace lists, in order, what a spy on the transport and on the
      host runtime would observe.
    Everything outside the extension (the HTTP transport, the host runtime
    that produces replies, the cancellation signal, [process.env]) is a
    parameter, the record [Env]. *)

From Stdlib Require Import ZArith NArith List String Ascii Bool Lia DecimalString.
Import ListNotations.

Open Scope string_scope.
Open Scope list_scope.
Open Scope Z_scope.

(* ===================================================================== *)
(** ** JavaScript built-ins used by the extension *)
(* ===================================================================== *)

Module JS.

(** Strings are sequences of code units; the models of [trim] and
    [toLowerCase] below act on the ASCII range and leave every other code
    unit unchanged: [trim] strips the code units 9 to 13 and 32, not the
    Unicode spaces, and [toLowerCase] lowers A to Z only. *)

Definition is_ws (c : ascii) : bool :=
  let n := nat_of_ascii c in
  (Nat.eqb n 32 || (Nat.leb 9 n && Nat.leb n 13))%bool.

Fixpoint trimStart (s : string) : string :=
  match s with
  | EmptyString => EmptyString
  | String c r => if is_ws c then trimStart r else s
  end.

Definition reverse (s : string) : string :=
  string_of_list_ascii (rev (list_ascii_of_string s)).

(** [s.trim()] *)
Definition trim (s : string) : string :=
  reverse (trimStart (reverse (trimStart s))).

Definition is_upper (c : ascii) : bool :=
  let n := nat_of_ascii c in (Nat.leb 65 n && Nat.leb n 90)%bool.

Definition lower_char (c : ascii) : ascii :=
  if is_upper c then ascii_of_nat (nat_of_ascii c + 32) else c.

(** [s.toLowerCase()] *)
Fixpoint toLowerCase (s : string) : string :=
  match s with
  | EmptyString => EmptyString
  | String c r => String (lower_char c) (toLowerCase r)
  end.

(** Truthiness of a value of type [string | undefined]:
    [undefined] and the empty string are falsy. *)
Definition truthy (v : option string) : bool :=
  match v with
  | None => false
  | Some s => negb (String.eqb s "")
  end.

(** [a || b] where [a : string | undefined] and [b : string]. *)
Definition or_else (a : option string) (b : string) : string :=
  match a with
  | Some s => if String.eqb s "" then b else s
  | None => b
  end.

(** [a || b] where both sides may be [undefined]. *)
Definition or_opt (a b : option string) : option string :=
  if truthy a then a else b.

(** [a ?? b] *)
Definition nullish (a : option string) (b : string) : string :=
  match a with Some s => s | None => b end.

(** [arr.join(sep)] *)
Fixpoint join (sep : string) (l : list string) : string :=
  match l with
  | [] => ""
  | [x] => x
  | x :: rest => x ++ sep ++ join sep rest
  end.

(** [String(n)] for an integer [n] below [10^21], where JavaScript prints
    every digit; the extension calls it with 20 and 1. *)
Definition String_of_int (n : Z) : string :=
  NilZero.string_of_int (Z.to_int n).

(** [new Date(s).getTime()] for a valid date in the timestamp format of
    the Graph API, [YYYY-MM-DDTHH:MM:SSZ]; [None] stands for [NaN].  Other
    forms that [Date] accepts (fractions of a second, offsets) are outside
    this model, and the fields are not checked for their range. *)
Definition digit (c : ascii) : option Z :=
  let n := nat_of_ascii c in
  if (Nat.leb 48 n && Nat.leb n 57)%bool then Some (Z.of_nat (n - 48)) else None.

Fixpoint digits (acc : Z) (l : list ascii) : option Z :=
  match l with
  | [] => Some acc
  | c :: r => match digit c with
              | Some d => digits (acc * 10 + d) r
              | None => None
              end
  end.

Definition number (s : string) : option Z :=
  digits 0 (list_ascii_of_string s).

(** Days since 1970-01-01 of a proleptic Gregorian date. *)
Definition days_from_civil (y m d : Z) : Z :=
  let y' := if m <=? 2 then y - 1 else y in
  let era := y' / 400 in
  let yoe := y' - era * 400 in
  let mp := (m + 9) mod 12 in
  let doy := (153 * mp + 2) / 5 + d - 1 in
  let doe := yoe * 365 + yoe / 4 - yoe / 100 + doy in
  era * 146097 + doe - 719468.

Definition Date_getTime (s : string) : option Z :=
  if negb (Nat.eqb (String.length s) 20) then None else
  if negb (String.eqb (substring 4 1 s) "-" && String.eqb (substring 7 1 s) "-"
           && String.eqb (substring 10 1 s) "T" && String.eqb (substring 13 1 s) ":"
           && String.eqb (substring 16 1 s) ":" && String.eqb (substring 19 1 s) "Z")%bool
  then None else
  match number (substring 0 4 s), number (substring 5 2 s), number (substring 8 2 s),
        number (substring 11 2 s), number (substring 14 2 s), number (substring 17 2 s) with
  | Some y, Some mo, Some d, Some h, Some mi, Some sec =>
      Some ((((days_from_civil y mo d * 24 + h) * 60 + mi) * 60 + sec) * 1000)
  | _, _, _, _, _, _ => None
  end.

(** [encodeURIComponent(s)]: every code unit outside the unreserved set
    is written as a percent sign and two upper-case hexadecimal digits. *)
Definition is_unreserved (c : ascii) : bool :=
  let n := nat_of_ascii c in
  ((Nat.leb 65 n && Nat.leb n 90) || (Nat.leb 97 n && Nat.leb n 122)
   || (Nat.leb 48 n && Nat.leb n 57)
   || existsb (Nat.eqb n) [45; 95; 46; 33; 126; 42; 39; 40; 41]%nat)%bool.

Definition hex_digit (n : nat) : ascii :=
  if Nat.ltb n 10 then ascii_of_nat (48 + n) else ascii_of_nat (55 + n).

Fixpoint encodeURIComponent (s : string) : string :=
  match s with
  | EmptyString => EmptyString
  | String c r =>
      if is_unreserved c then String c (encodeURIComponent r)
      else let n := nat_of_ascii c in
           String "%" (String (hex_digit (n / 16)) (String (hex_digit (n mod 16))
                  (encodeURIComponent r)))
  end.

End JS.

(* ===================================================================== *)
(** ** Data model *)
(* ===================================================================== *)

(** [token.ts]: OutlookCredentials *)
Record OutlookCredentials := mkCreds {
  appId : string;
  appSecret : string;
  tenantId : string
}.

(** [token.ts]: OutlookChannelConfig; every field is optional. *)
Record OutlookChannelConfig := mkChannelConfig {
  oc_enabled : option bool;
  oc_appId : option string;
  oc_appPassword : option string;
  oc_tenantId : option string;
  oc_mailbox : option string;
  oc_pollIntervalMs : option Z;
  oc_draftOnly : option bool
}.

(** The part of OpenClawConfig read here: [cfg.channels?.outlook]. *)
Record OpenClawConfig := mkConfig {
  channels_outlook : option OutlookChannelConfig
}.

(** [process.env] *)
Record ProcessEnv := mkProcessEnv {
  OUTLOOK_APP_ID : option string;
  OUTLOOK_APP_SECRET : option string;
  OUTLOOK_TENANT_ID : option string
}.

(** [token.ts]: the value held by the module-level [tokenCache]. *)
Record CachedToken := mkCachedToken {
  token : string;
  expiresAt : Z
}.

(** [graph.ts]: GraphMessage.  The code reads [from], [body] and their
    fields through optional chaining, so they are optional here. *)
Record EmailAddress := mkEmailAddress {
  address : option string;
  name : option string
}.

Record GraphMessage := mkGraphMessage {
  id : string;
  subject : string;
  body_content : option string;
  from_emailAddress : option EmailAddress;
  receivedDateTime : string;
  isRead : bool;
  conversationId : option string
}.

(** A JSON value, as handed to [JSON.stringify]. *)
#[warnings="-register-all"]
Inductive Json :=
| JStr (s : string)
| JBool (b : bool)
| JArr (items : list Json)
| JObj (fields : list (string * Json)).

Inductive ReqBody :=
| BodyNone
| BodyJson (j : Json)                      (* JSON.stringify(j) *)
| BodyForm (params : list (string * string)). (* URLSearchParams.toString() *)

(** A call of [fetch(url, init)].  The query string of a URL built with
    [URLSearchParams] is kept as its list of parameters. *)
Record Request := mkRequest {
  req_method : string;
  req_url : string;
  req_query : list (string * string);
  req_headers : list (string * string);
  req_body : ReqBody
}.

(** The body of a response as read by [res.json()]: the fields the code
    reads from it after its type assertions. *)
Record JsonBody := mkJsonBody {
  access_token : string;
  expires_in : Z;
  value : list GraphMessage;
  draft_id : string
}.

Record Response := mkResponse {
  ok : bool;
  status : Z;
  text : string;
  json : JsonBody
}.

(** What can be thrown. *)
Inductive Err :=
| HttpError (what : string) (status : Z) (text : string)
    (* new Error(`outlook <what> failed ${status}: ${text}`) *)
| ConfigError (msg : string)
| Reason (r : string).  (* a rejection from outside: network, host, abort *)

Inductive FetchResult :=
| FetchRejected (elapsed : N) (e : Err)
| FetchResponse (elapsed : N) (r : Response).

(** The payload the reply dispatcher hands to [deliver]. *)
Record ReplyPayload := mkPayload {
  payload_text : option string
}.

(** The argument of [finalizeInboundContext]. *)
Record InboundContext := mkContext {
  Body : string;
  RawBody : string;
  CommandBody : string;
  From : string;
  To : string;
  SessionKey : string;
  AccountId : string;
  ChatType : string;
  ConversationLabel : string;
  SenderName : string;
  SenderId : string;
  Provider : string;
  Surface : string;
  MessageSid : string;
  Timestamp : option Z;
  WasMentioned : bool;
  CommandAuthorized : bool;
  OriginatingChannel : string;
  OriginatingTo : string
}.

(** The host's side of one [dispatchReplyFromConfig] call: it invokes the
    reply sink zero or more times, one invocation at a time and each time
    seeing whether the sink threw, lets time pass, and finally resolves or
    rejects.  Every invocation of the sink happens before the call settles. *)
Inductive Host :=
| HReturn
| HThrow (e : Err)
| HWait (ms : N) (k : Host)
| HDeliver (p : ReplyPayload) (kind : string) (k : option Err -> Host).

(** [runtime.ts]: the part of PluginRuntime used by the monitor. *)
Record PluginRuntime := mkRuntime {
  finalizeInboundContext : InboundContext -> InboundContext;
  dispatchReplyFromConfig : nat -> InboundContext -> Host
}.

(** Everything outside the extension. *)
Record Env := mkEnv {
  env_process : ProcessEnv;
  env_fetch : nat -> Request -> FetchResult; (* the n-th call of fetch *)
  env_abortAt : option Z;                   (* when the AbortSignal fires *)
  env_runtime : option PluginRuntime        (* runtime.ts: [runtime] *)
}.

(** The functions of [graph.ts], as a spy on the mail client sees them. *)
Inductive MailOp :=
| OpListUnread (mailbox : string) (top : Z)
| OpMarkAsRead (mailbox messageId : string)
| OpReply (mailbox messageId replyText : string)
| OpCreateDraftReply (mailbox messageId replyText : string)
| OpSendNewMail (mailbox to subject bodyText : string).

Inductive LogMsg :=
| LogProcessing (msgId sender : string)
| LogDraftCreated (draftId msgId : string) (chars : nat)
| LogReplied (msgId : string) (chars : nat)
| LogDispatchFailed (msgId : string) (e : Err)
| LogCredentialsMissing
| LogMailboxNotConfigured
| LogMonitorStarted (mailbox : string) (pollMs : Z) (draftOnly : bool)
| LogPollCycleError (e : Err)
| LogMonitorStopped.

Inductive LogLevel := Info | Error | Debug.

Inductive Event :=
| EvCall (op : MailOp)                       (* a function of graph.ts is entered *)
| EvFetch (req : Request)                    (* fetch is called *)
| EvDispatch (ctx : InboundContext)          (* dispatchReplyFromConfig is called *)
| EvDeliver (p : ReplyPayload) (kind : string) (* the reply sink is invoked *)
| EvIdle                                     (* markDispatchIdle() *)
| EvLog (level : LogLevel) (msg : LogMsg).

(* ===================================================================== *)
(** ** The monad of the embedding *)
(* ===================================================================== *)

Record World := mkWorld {
  now : Z;                           (* Date.now(), in milliseconds *)
  tokenCache : option CachedToken;   (* token.ts: let tokenCache *)
  replyBuffer : list string;         (* monitor.ts: the array of the call in flight *)
  fetchCount : nat;
  dispatchCount : nat
}.

Inductive Res (A : Type) :=
| Returned (a : A)
| Threw (e : Err).
Arguments Returned {A} a.
Arguments Threw {A} e.

Definition M (A : Type) : Type := World -> Res A * World * list Event.

Definition ret {A} (a : A) : M A := fun w => (Returned a, w, []).

Definition throw {A} (e : Err) : M A := fun w => (Threw e, w, []).

Definition bind {A B} (m : M A) (f : A -> M B) : M B :=
  fun w =>
    let '(r, w1, t1) := m w in
    match r with
    | Returned a => let '(r2, w2, t2) := f a w1 in (r2, w2, t1 ++ t2)
    | Threw e => (Threw e, w1, t1)
    end.

(** [try { m } catch (err) { h err }] *)
Definition try_catch {A} (m : M A) (h : Err -> M A) : M A :=
  fun w =>
    let '(r, w1, t1) := m w in
    match r with
    | Returned a => (Returned a, w1, t1)
    | Threw e => let '(r2, w2, t2) := h e w1 in (r2, w2, t1 ++ t2)
    end.

(** [try { m } finally { f }], for a finaliser that does not throw. *)
Definition finally {A} (m : M A) (f : M unit) : M A :=
  fun w =>
    let '(r, w1, t1) := m w in
    let '(_, w2, t2) := f w1 in (r, w2, t1 ++ t2).

Definition emit (e : Event) : M unit := fun w => (Returned tt, w, [e]).

Definition log (level : LogLevel) (msg : LogMsg) : M unit := emit (EvLog level msg).

Definition get_world : M World := fun w => (Returned w, w, []).

Definition set_now (t : Z) (w : World) : World :=
  mkWorld t (tokenCache w) (replyBuffer w) (fetchCount w) (dispatchCount w).

Definition set_tokenCache (c : option CachedToken) (w : World) : World :=
  mkWorld (now w) c (replyBuffer w) (fetchCount w) (dispatchCount w).

Definition set_replyBuffer (b : list string) (w : World) : World :=
  mkWorld (now w) (tokenCache w) b (fetchCount w) (dispatchCount w).

Definition next_fetch (w : World) : World :=
  mkWorld (now w) (tokenCache w) (replyBuffer w) (S (fetchCount w)) (dispatchCount w).

Definition next_dispatch (w : World) : World :=
  mkWorld (now w) (tokenCache w) (replyBuffer w) (fetchCount w) (S (dispatchCount w)).

Definition modify (f : World -> World) : M unit :=
  fun w => (Returned tt, f w, []).

(** Time passes while the task is suspended. *)
Definition elapse (ms : N) : M unit :=
  modify (fun w => set_now (now w + Z.of_N ms) w).

Declare Scope m_scope.
Delimit Scope m_scope with M.
Notation "x <- m ;; k" := (bind m (fun x => k))
  (at level 61, m at next level, right associativity) : m_scope.
Notation "m ;;; k" := (bind m (fun _ => k))
  (at level 61, right associativity) : m_scope.
Open Scope m_scope.

Definition result {A} (x : Res A * World * list Event) : Res A := fst (fst x).
Definition world_after {A} (x : Res A * World * list Event) : World := snd (fst x).
Definition trace {A} (x : Res A * World * list Event) : list Event := snd x.

(* ===================================================================== *)
(** ** token.ts *)
(* ===================================================================== *)

Definition resolveOutlookChannelConfig (cfg : OpenClawConfig)
  : option OutlookChannelConfig :=
  channels_outlook cfg.

(** [oc?.field?.trim()] *)
Definition chain_trim (oc : option OutlookChannelConfig)
    (field : OutlookChannelConfig -> option string) : option string :=
  match oc with
  | Some c => option_map JS.trim (field c)
  | None => None
  end.

Definition resolveOutlookCredentials (penv : ProcessEnv)
    (oc : option OutlookChannelConfig) : option OutlookCredentials :=
  let appId := JS.or_opt (chain_trim oc oc_appId)
                         (option_map JS.trim (OUTLOOK_APP_ID penv)) in
  let appSecret := JS.or_opt (chain_trim oc oc_appPassword)
                             (option_map JS.trim (OUTLOOK_APP_SECRET penv)) in
  let tenantId := JS.or_opt (chain_trim oc oc_tenantId)
                            (option_map JS.trim (OUTLOOK_TENANT_ID penv)) in
  if (negb (JS.truthy appId) || negb (JS.truthy appSecret)
      || negb (JS.truthy tenantId))%bool
  then None
  else Some (mkCreds (JS.nullish appId "") (JS.nullish appSecret "")
                     (JS.nullish tenantId "")).

Section Code.

Variable env : Env.

(** [abortSignal.aborted] *)
Definition aborted (w : World) : bool :=
  match env_abortAt env with
  | Some t => t <=? now w
  | None => false
  end.

(** [await fetch(url, init)] *)
Definition fetch (req : Request) : M Response :=
  fun w =>
    match env_fetch env (fetchCount w) req with
    | FetchRejected d e =>
        (Threw e, set_now (now w + Z.of_N d) (next_fetch w), [EvFetch req])
    | FetchResponse d r =>
        (Returned r, set_now (now w + Z.of_N d) (next_fetch w), [EvFetch req])
    end.

Definition token_url (creds : OutlookCredentials) : string :=
  "https://login.microsoftonline.com/" ++ tenantId creds ++ "/oauth2/v2.0/token".

Definition token_request (creds : OutlookCredentials) : Request :=
  mkRequest "POST" (token_url creds) []
    [("Content-Type", "application/x-www-form-urlencoded")]
    (BodyForm [("grant_type", "client_credentials");
               ("client_id", appId creds);
               ("client_secret", appSecret creds);
               ("scope", "https://graph.microsoft.com/.default")]).

(** [tokenCache && tokenCache.expiresAt > now + 60_000] *)
Definition cache_fresh (c : option CachedToken) (now0 : Z) : bool :=
  match c with
  | Some t => expiresAt t >? now0 + 60000
  | None => false
  end.

Definition getGraphAccessToken (creds : OutlookCredentials) : M string :=
  w <- get_world ;;
  let now0 := now w in
  if cache_fresh (tokenCache w) now0 then
    ret (match tokenCache w with Some t => token t | None => "" end)
  else
    res <- fetch (token_request creds) ;;
    if negb (ok res) then
      throw (HttpError "token request" (status res) (text res))
    else
      let data := json res in
      modify (set_tokenCache
                (Some (mkCachedToken (access_token data)
                                     (now0 + expires_in data * 1000)))) ;;;
      ret (access_token data).

(* ===================================================================== *)
(** ** graph.ts *)
(* ===================================================================== *)

Definition GRAPH : string := "https://graph.microsoft.com/v1.0".

Definition graphFetch (creds : OutlookCredentials) (path : string)
    (query : list (string * string)) (method : string) (body : ReqBody)
  : M Response :=
  tok <- getGraphAccessToken creds ;;
  fetch (mkRequest method (GRAPH ++ path) query
           [("Authorization", ("Bearer " ++ tok)%string);
            ("Content-Type", "application/json")]
           body).

Definition listUnread_params (top : Z) : list (string * string) :=
  [("$filter", "isRead eq false");
   ("$orderby", "receivedDateTime asc");
   ("$top", JS.String_of_int top);
   ("$select", "id,subject,body,from,receivedDateTime,isRead,conversationId")].

Definition listUnreadMessages (creds : OutlookCredentials) (mailbox : string)
    (top : Z) : M (list GraphMessage) :=
  emit (EvCall (OpListUnread mailbox top)) ;;;
  res <- graphFetch creds
           ("/users/" ++ JS.encodeURIComponent mailbox ++ "/mailfolders/inbox/messages")
           (listUnread_params top) "GET" BodyNone ;;
  if negb (ok res) then
    throw (HttpError "list messages" (status res) (text res))
  else
    ret (value (json res)).

Definition markAsRead (creds : OutlookCredentials) (mailbox messageId : string)
  : M unit :=
  emit (EvCall (OpMarkAsRead mailbox messageId)) ;;;
  res <- graphFetch creds
           ("/users/" ++ JS.encodeURIComponent mailbox ++ "/messages/" ++ messageId)
           [] "PATCH" (BodyJson (JObj [("isRead", JBool true)])) ;;
  if negb (ok res) then
    throw (HttpError "mark-as-read" (status res) (text res))
  else
    ret tt.

Definition reply_body (replyText : string) : ReqBody :=
  BodyJson (JObj [("message",
    JObj [("body", JObj [("contentType", JStr "Text");
                         ("content", JStr replyText)])])]).

Definition replyToMessage (creds : OutlookCredentials)
    (mailbox messageId replyText : string) : M unit :=
  emit (EvCall (OpReply mailbox messageId replyText)) ;;;
  res <- graphFetch creds
           ("/users/" ++ JS.encodeURIComponent mailbox ++ "/messages/" ++ messageId
              ++ "/reply")
           [] "POST" (reply_body replyText) ;;
  if negb (ok res) then
    throw (HttpError "reply" (status res) (text res))
  else
    ret tt.

Definition createDraftReply (creds : OutlookCredentials)
    (mailbox messageId replyText : string) : M string :=
  emit (EvCall (OpCreateDraftReply mailbox messageId replyText)) ;;;
  res <- graphFetch creds
           ("/users/" ++ JS.encodeURIComponent mailbox ++ "/messages/" ++ messageId
              ++ "/createReply")
           [] "POST" (reply_body replyText) ;;
  if negb (ok res) then
    throw (HttpError "createReply" (status res) (text res))
  else
    ret (draft_id (json res)).

Definition sendMail_body (to subject bodyText : string) : ReqBody :=
  BodyJson (JObj [
    ("message", JObj [
       ("subject", JStr subject);
       ("body", JObj [("contentType", JStr "Text"); ("content", JStr bodyText)]);
       ("toRecipients",
          JArr [JObj [("emailAddress", JObj [("address", JStr to)])]])]);
    ("saveToSentItems", JBool true)]).

Definition sendNewMail (creds : OutlookCredentials)
    (mailbox to subject bodyText : string) : M unit :=
  emit (EvCall (OpSendNewMail mailbox to subject bodyText)) ;;;
  res <- graphFetch creds
           ("/users/" ++ JS.encodeURIComponent mailbox ++ "/sendMail")
           [] "POST" (sendMail_body to subject bodyText) ;;
  if negb (ok res) then
    throw (HttpError "sendMail" (status res) (text res))
  else
    ret tt.

(* ===================================================================== *)
(** ** monitor.ts *)
(* ===================================================================== *)

(** [signal.reason] *)
Definition abort_reason : Err := Reason "aborted".

(** The longest delay of a timer, [2^31 - 1] ms. *)
Definition TIMEOUT_MAX : Z := 2147483647.

(** [setTimeout(resolve, ms)]: the delay after which the timer is due.  A
    delay below 1 or above [TIMEOUT_MAX] is set to 1. *)
Definition timer_delay (ms : Z) : Z :=
  if ((ms <? 1) || (TIMEOUT_MAX <? ms))%bool then 1 else ms.

(** [sleep(ms, signal)]: the promise settles when the timer fires or when
    the signal fires, whichever comes first; an abort clears the timer.
    Time is the time of the event loop, and the timer fires when it is
    due. *)
Definition sleep (ms : Z) : M unit :=
  fun w =>
    if aborted w then (Threw abort_reason, w, [])
    else
      let wake := now w + timer_delay ms in
      match env_abortAt env with
      | Some t =>
          if t <? wake then (Threw abort_reason, set_now t w, [])
          else (Returned tt, set_now wake w, [])
      | None => (Returned tt, set_now wake w, [])
      end.

(** [runtime.ts]: getOutlookRuntime *)
Definition getOutlookRuntime : M PluginRuntime :=
  match env_runtime env with
  | Some r => ret r
  | None => throw (Reason "Outlook runtime not initialized")
  end.

(** The separator of [replyBuffer.join]: two line feeds. *)
Definition blank_line : string := String "010" (String "010" EmptyString).

Definition is_final (kind : string) : bool := String.eqb kind "final".

(** The [deliver] callback that [processMessage] gives to the dispatcher. *)
Definition deliver (creds : OutlookCredentials) (mailbox : string)
    (msg : GraphMessage) (draftOnly : bool)
    (payload : ReplyPayload) (kind : string) : M unit :=
  (if JS.truthy (payload_text payload)
   then modify (fun w =>
          set_replyBuffer (replyBuffer w ++ [JS.nullish (payload_text payload) ""]) w)
   else ret tt) ;;;
  w <- get_world ;;
  if (is_final kind && Nat.ltb 0 (List.length (replyBuffer w)))%bool then
    let replyText := JS.join blank_line (replyBuffer w) in
    modify (set_replyBuffer []) ;;;
    if draftOnly then
      draftId <- createDraftReply creds mailbox (id msg) replyText ;;
      log Info (LogDraftCreated draftId (id msg) (String.length replyText))
    else
      replyToMessage creds mailbox (id msg) replyText ;;;
      log Info (LogReplied (id msg) (String.length replyText))
  else ret tt.

(** [await m], reporting whether it threw. *)
Definition settle (m : M unit) : M (option Err) :=
  fun w =>
    let '(r, w1, t1) := m w in
    (Returned (match r with Returned _ => None | Threw e => Some e end), w1, t1).

(** The host runs one dispatch against the sink. *)
Fixpoint runHost (sink : ReplyPayload -> string -> M unit) (h : Host) : M unit :=
  match h with
  | HReturn => ret tt
  | HThrow e => throw e
  | HWait ms k => elapse ms ;;; runHost sink k
  | HDeliver p kind k =>
      emit (EvDeliver p kind) ;;;
      r <- settle (sink p kind) ;;
      runHost sink (k r)
  end.

Definition senderAddress_of (msg : GraphMessage) : string :=
  JS.nullish (match from_emailAddress msg with
              | Some a => address a
              | None => None
              end) "unknown".

Definition senderName_of (msg : GraphMessage) : string :=
  JS.or_else (match from_emailAddress msg with
              | Some a => name a
              | None => None
              end) (senderAddress_of msg).

Definition text_of (msg : GraphMessage) : string :=
  JS.or_else (option_map JS.trim (body_content msg)) "(empty)".

Definition sessionKey_of (msg : GraphMessage) : string :=
  "outlook:" ++ JS.toLowerCase (senderAddress_of msg).

(** The object literal passed to [finalizeInboundContext]. *)
Definition inbound_context (mailbox : string) (msg : GraphMessage) : InboundContext :=
  let senderAddress := senderAddress_of msg in
  let senderName := senderName_of msg in
  let text := text_of msg in
  let sessionKey := sessionKey_of msg in
  {| Body := text;
     RawBody := text;
     CommandBody := text;
     From := senderAddress;
     To := mailbox;
     SessionKey := sessionKey;
     AccountId := "default";
     ChatType := "direct";
     ConversationLabel := senderName;
     SenderName := senderName;
     SenderId := senderAddress;
     Provider := "outlook";
     Surface := "outlook";
     MessageSid := id msg;
     Timestamp := JS.Date_getTime (receivedDateTime msg);
     WasMentioned := true;
     CommandAuthorized := true;
     OriginatingChannel := "outlook";
     OriginatingTo := mailbox |}.

(** [core.channel.reply.dispatchReplyFromConfig({ctx, cfg, dispatcher, ...})] *)
Definition dispatch (core : PluginRuntime) (ctx : InboundContext)
    (sink : ReplyPayload -> string -> M unit) : M unit :=
  emit (EvDispatch ctx) ;;;
  w <- get_world ;;
  modify next_dispatch ;;;
  runHost sink (dispatchReplyFromConfig core (dispatchCount w) ctx).

Definition processMessage (creds : OutlookCredentials) (mailbox : string)
    (msg : GraphMessage) (draftOnly : bool) : M unit :=
  core <- getOutlookRuntime ;;
  log Debug (LogProcessing (id msg) (senderAddress_of msg)) ;;;
  markAsRead creds mailbox (id msg) ;;;
  let ctxPayload := finalizeInboundContext core (inbound_context mailbox msg) in
  modify (set_replyBuffer []) ;;;
  finally
    (try_catch
       (dispatch core ctxPayload (deliver creds mailbox msg draftOnly))
       (fun err => log Error (LogDispatchFailed (id msg) err)))
    (emit EvIdle).

(** [oc?.draftOnly !== false] *)
Definition draftOnly_of (oc : option OutlookChannelConfig) : bool :=
  match oc with
  | Some c => match oc_draftOnly c with
              | Some false => false
              | _ => true
              end
  | None => true
  end.

(** [oc?.pollIntervalMs ?? 15_000] *)
Definition pollMs_of (oc : option OutlookChannelConfig) : Z :=
  match oc with
  | Some c => match oc_pollIntervalMs c with
              | Some p => p
              | None => 15000
              end
  | None => 15000
  end.

(** [for (const msg of messages) { if (aborted) break; await processMessage }] *)
Fixpoint forMessages (creds : OutlookCredentials) (mailbox : string)
    (draftOnly : bool) (messages : list GraphMessage) : M unit :=
  match messages with
  | [] => ret tt
  | msg :: rest =>
      w <- get_world ;;
      if aborted w then ret tt
      else
        processMessage creds mailbox msg draftOnly ;;;
        forMessages creds mailbox draftOnly rest
  end.

Inductive LoopCtl := Continue | Break.

(** The first [try]/[catch] of the loop body. *)
Definition pollCycle (creds : OutlookCredentials) (mailbox : string)
    (draftOnly : bool) : M LoopCtl :=
  try_catch
    (messages <- listUnreadMessages creds mailbox 20 ;;
     forMessages creds mailbox draftOnly messages ;;;
     ret Continue)
    (fun err =>
       w <- get_world ;;
       if aborted w then ret Break
       else log Error (LogPollCycleError err) ;;; ret Continue).

(** How a run of the monitor ends: [NotStarted] and [Stopped] are the two
    ways the function returns; [OutOfFuel] means the loop was still running
    after the given number of cycles. *)
Inductive Exit := NotStarted | Stopped | OutOfFuel.

(** [while (!abortSignal.aborted) { ... }] *)
Fixpoint monitorLoop (fuel : nat) (creds : OutlookCredentials) (mailbox : string)
    (pollMs : Z) (draftOnly : bool) : M Exit :=
  w <- get_world ;;
  if aborted w then ret Stopped
  else
    match fuel with
    | O => ret OutOfFuel
    | S fuel' =>
        ctl <- pollCycle creds mailbox draftOnly ;;
        match ctl with
        | Break => ret Stopped
        | Continue =>
            slept <- try_catch (sleep pollMs ;;; ret Continue) (fun _ => ret Break) ;;
            match slept with
            | Break => ret Stopped
            | Continue => monitorLoop fuel' creds mailbox pollMs draftOnly
            end
        end
    end.

Definition monitorOutlookEmail (cfg : OpenClawConfig) (fuel : nat) : M Exit :=
  let oc := resolveOutlookChannelConfig cfg in
  match resolveOutlookCredentials (env_process env) oc with
  | None => log Error LogCredentialsMissing ;;; ret NotStarted
  | Some creds =>
      let mailbox := chain_trim oc oc_mailbox in
      if negb (JS.truthy mailbox) then
        log Error LogMailboxNotConfigured ;;; ret NotStarted
      else
        let mailbox := JS.nullish mailbox "" in
        let pollMs := pollMs_of oc in
        let draftOnly := draftOnly_of oc in
        log Info (LogMonitorStarted mailbox pollMs draftOnly) ;;;
        e <- monitorLoop fuel creds mailbox pollMs draftOnly ;;
        match e with
        | OutOfFuel => ret OutOfFuel
        | _ => log Info LogMonitorStopped ;;; ret Stopped
        end
  end.

(* ===================================================================== *)
(** ** outbound.ts *)
(* ===================================================================== *)

(** The fields of the outbound context that [sendText] reads. *)
Record OutboundContext := mkOutboundContext {
  ctx_cfg : OpenClawConfig;
  ctx_to : string;
  ctx_text : string
}.

Definition default_subject : string := "Message from OpenClaw".

(** [outlookOutbound.sendText]; the result is [{channel, messageId}]. *)
Definition sendText (ctx : OutboundContext) : M (string * string) :=
  let oc := resolveOutlookChannelConfig (ctx_cfg ctx) in
  match resolveOutlookCredentials (env_process env) oc with
  | None => throw (ConfigError "outlook credentials not configured")
  | Some creds =>
      let mailbox := chain_trim oc oc_mailbox in
      if negb (JS.truthy mailbox) then
        throw (ConfigError "outlook mailbox not configured")
      else
        sendNewMail creds (JS.nullish mailbox "") (ctx_to ctx) default_subject
                    (ctx_text ctx) ;;;
        ret ("outlook", "sent")
  end.

End Code.

(* ===================================================================== *)
(** ** Observations on traces *)
(* ===================================================================== *)

(** The calls of [graph.ts] functions in a trace, in order. *)
Definition mail_calls (t : list Event) : list MailOp :=
  flat_map (fun e => match e with EvCall op => [op] | _ => [] end) t.

(** The invocations of the reply sink in a trace, in order. *)
Definition deliveries (t : list Event) : list (ReplyPayload * string) :=
  flat_map (fun e => match e with EvDeliver p k => [(p, k)] | _ => [] end) t.

(** The HTTP requests of a trace, in order. *)
Definition fetches (t : list Event) : list Request :=
  flat_map (fun e => match e with EvFetch r => [r] | _ => [] end) t.

(** An event of the host side of a dispatch. *)
Definition is_dispatch_event (e : Event) : bool :=
  match e with
  | EvDispatch _ | EvDeliver _ _ => true
  | _ => false
  end.

Definition is_fetch_event (e : Event) : bool :=
  match e with
  | EvFetch _ => true
  | _ => false
  end.

(** An event that is neither a mail call nor an event of a dispatch. *)
Definition is_quiet_event (e : Event) : bool :=
  match e with
  | EvFetch _ | EvLog _ _ => true
  | _ => false
  end.

Definition quiet (t : list Event) : Prop :=
  Forall (fun e => is_quiet_event e = true) t.

(** A trace of HTTP requests only. *)
Definition only_fetches (t : list Event) : Prop :=
  Forall (fun e => is_fetch_event e = true) t.

(** The mail call of the flush, by branch. *)
Definition flush_op (draftOnly : bool) (mailbox messageId replyText : string) : MailOp :=
  if draftOnly then OpCreateDraftReply mailbox messageId replyText
  else OpReply mailbox messageId replyText.

(** The buffer after [if (payload.text) replyBuffer.push(payload.text)]. *)
Definition pushed (buf : list string) (p : ReplyPayload) : list string :=
  if JS.truthy (payload_text p) then buf ++ [JS.nullish (payload_text p) ""]
  else buf.

(** The reply sink as a state machine on the buffer alone: the bodies that
    a sequence of sink invocations flushes, starting from buffer [buf]. *)
Fixpoint flushes (buf : list string) (ds : list (ReplyPayload * string)) : list string :=
  match ds with
  | [] => []
  | (p, kind) :: rest =>
      let buf' := pushed buf p in
      if (is_final kind && Nat.ltb 0 (List.length buf'))%bool
      then JS.join blank_line buf' :: flushes [] rest
      else flushes buf' rest
  end.


(** A sequence of sink invocations in which a non-empty text has been
    delivered by the time an invocation of kind final arrives. *)
Definition produces_text_and_final (ds : list (ReplyPayload * string)) : Prop :=
  exists ds1 p k ds2,
    ds = ds1 ++ (p, k) :: ds2
    /\ is_final k = true
    /\ exists q kq, In (q, kq) (ds1 ++ [(p, k)]) /\ JS.truthy (payload_text q) = true.

(** A mail call that sends a reply or stores a draft reply. *)
Definition is_flush_op (op : MailOp) : bool :=
  match op with
  | OpReply _ _ _ | OpCreateDraftReply _ _ _ => true
  | _ => false
  end.

(** [oc?.draftOnly] *)
Definition configured_draftOnly (oc : option OutlookChannelConfig) : option bool :=
  match oc with
  | Some c => oc_draftOnly c
  | None => None
  end.

(** Receive times in non-decreasing order ([NaN] compares as unordered). *)
Definition received_le (a b : GraphMessage) : bool :=
  match JS.Date_getTime (receivedDateTime a), JS.Date_getTime (receivedDateTime b) with
  | Some x, Some y => x <=? y
  | _, _ => false
  end.

Fixpoint ascending (l : list GraphMessage) : bool :=
  match l with
  | [] => true
  | a :: rest =>
      match rest with
      | [] => true
      | b :: _ => (received_le a b && ascending rest)%bool
      end
  end.

(** Two code units that are the same letter up to case. *)
Definition same_letter (c1 c2 : ascii) : Prop :=
  c1 = c2
  \/ (JS.is_upper c1 = true /\ nat_of_ascii c2 = (nat_of_ascii c1 + 32)%nat)
  \/ (JS.is_upper c2 = true /\ nat_of_ascii c1 = (nat_of_ascii c2 + 32)%nat).

(** Two addresses that differ at most in the case of their letters. *)
Inductive same_up_to_case : string -> string -> Prop :=
| same_nil : same_up_to_case "" ""
| same_cons c1 c2 s1 s2 :
    same_letter c1 c2 -> same_up_to_case s1 s2 ->
    same_up_to_case (String c1 s1) (String c2 s2).

(** The configuration [cfg] with [channels.outlook.draftOnly] replaced. *)
Definition with_draftOnly (d : option bool) (cfg : OpenClawConfig) : OpenClawConfig :=
  match channels_outlook cfg with
  | Some c =>
      mkConfig (Some (mkChannelConfig (oc_enabled c) (oc_appId c) (oc_appPassword c)
                        (oc_tenantId c) (oc_mailbox c) (oc_pollIntervalMs c) d))
  | None => cfg
  end.

(** What a computation leaves untouched besides the clock, the token cache
    and the fetch counter: it emits HTTP requests only. *)
Definition transport_only {A} (m : M A) : Prop :=
  forall w,
    only_fetches (trace (m w))
    /\ replyBuffer (world_after (m w)) = replyBuffer w
    /\ dispatchCount (world_after (m w)) = dispatchCount w.

(** A function of [graph.ts]: the spy sees its entry, then HTTP requests. *)
Definition mail_op_shape {A} (op : MailOp) (m : M A) : Prop :=
  forall w, exists t,
    trace (m w) = EvCall op :: t
    /\ only_fetches t
    /\ replyBuffer (world_after (m w)) = replyBuffer w
    /\ dispatchCount (world_after (m w)) = dispatchCount w.


(* ===================================================================== *)
(** ** channel.ts *)
(* ===================================================================== *)

(** [channel.ts]: ResolvedOutlookAccount *)
Record ResolvedOutlookAccount := mkAccount {
  acc_mailbox : string;
  acc_appId : string;
  acc_appSecret : string;
  acc_tenantId : string
}.

(** How a synchronous function ends: with a value, or with the TypeError
    that reading a property of [undefined] throws. *)
Inductive Completion (A : Type) :=
| Normal (a : A)
| TypeError (what : string).
Arguments Normal {A} a.
Arguments TypeError {A} what.

(** [oc?.enabled === false] *)
Definition enabled_is_false (oc : option OutlookChannelConfig) : bool :=
  match oc with
  | Some c => match oc_enabled c with
              | Some false => true
              | _ => false
              end
  | None => false
  end.

(** [config.listAccountIds] *)
Definition listAccountIds (cfg : OpenClawConfig) : list string :=
  let oc := resolveOutlookChannelConfig cfg in
  if negb (enabled_is_false oc) then ["default"] else [].

(** [config.resolveAccount]; [None] is [undefined].  The mailbox is read as
    [oc.mailbox], without optional chaining on [oc]. *)
Definition resolveAccount (penv : ProcessEnv) (cfg : OpenClawConfig)
  : Completion (option ResolvedOutlookAccount) :=
  let oc := resolveOutlookChannelConfig cfg in
  if enabled_is_false oc then Normal None
  else
    match resolveOutlookCredentials penv oc with
    | None => Normal None
    | Some creds =>
        match oc with
        | None => TypeError "Cannot read properties of undefined (reading 'mailbox')"
        | Some c =>
            let mailbox := option_map JS.trim (oc_mailbox c) in
            if negb (JS.truthy mailbox) then Normal None
            else Normal (Some (mkAccount (JS.nullish mailbox "") (appId creds)
                                         (appSecret creds) (tenantId creds)))
        end
    end.

(** [config.isConfigured]:
    [Boolean(oc && resolveOutlookCredentials(oc) && oc.mailbox?.trim())] *)
Definition isConfigured (penv : ProcessEnv) (cfg : OpenClawConfig) : bool :=
  match resolveOutlookChannelConfig cfg with
  | None => false
  | Some c =>
      match resolveOutlookCredentials penv (Some c) with
      | None => false
      | Some _ => JS.truthy (option_map JS.trim (oc_mailbox c))
      end
  end.

Definition send_hint : string :=
  "- `channel=outlook` sends email. Set `to` to a recipient email address.".

Definition draft_only_hint : string :=
  "- outlook is in draft-only mode: sent messages land in Drafts for review. Set channels.outlook.draftOnly=false to send live.".

(** [agentPrompt.messageToolHints] *)
Definition messageToolHints (cfg : OpenClawConfig) : list string :=
  let oc := resolveOutlookChannelConfig cfg in
  let hints := [send_hint] in
  if match oc with
     | Some c => match oc_draftOnly c with
                 | Some false => false
                 | _ => true
                 end
     | None => true
     end
  then hints ++ [draft_only_hint]
  else hints.

(** The [error] of a probe result: a fixed message, or [String(err)]. *)
Inductive ProbeError :=
| ProbeMessage (msg : string)
| ProbeCaught (e : Err).

(** The result of [status.probeAccount]: [{ok, error?}]. *)
Record ProbeResult := mkProbeResult {
  probe_ok : bool;
  probe_error : option ProbeError
}.

(** [status.probeAccount]; the account may be [undefined]. *)
Definition probeAccount (env : Env) (account : option ResolvedOutlookAccount)
  : M ProbeResult :=
  match account with
  | None => ret (mkProbeResult false (Some (ProbeMessage "credentials or mailbox missing")))
  | Some a =>
      if (String.eqb (acc_appId a) "" || String.eqb (acc_mailbox a) "")%bool then
        ret (mkProbeResult false (Some (ProbeMessage "credentials or mailbox missing")))
      else
        try_catch
          (let creds := mkCreds (acc_appId a) (acc_appSecret a) (acc_tenantId a) in
           listUnreadMessages env creds (acc_mailbox a) 1 ;;;
           ret (mkProbeResult true None))
          (fun err => ret (mkProbeResult false (Some (ProbeCaught err))))
  end.

(* ===================================================================== *)
(** ** Further observations *)
(* ===================================================================== *)

(** Any one function of [graph.ts], called as the spy names it, its result
    dropped. *)
Definition perform (env : Env) (creds : OutlookCredentials) (op : MailOp) : M unit :=
  match op with
  | OpListUnread mailbox top => listUnreadMessages env creds mailbox top ;;; ret tt
  | OpMarkAsRead mailbox messageId => markAsRead env creds mailbox messageId
  | OpReply mailbox messageId replyText =>
      replyToMessage env creds mailbox messageId replyText
  | OpCreateDraftReply mailbox messageId replyText =>
      createDraftReply env creds mailbox messageId replyText ;;; ret tt
  | OpSendNewMail mailbox to subject bodyText =>
      sendNewMail env creds mailbox to subject bodyText
  end.

(** The mailbox a call of [graph.ts] is about. *)
Definition op_mailbox (op : MailOp) : string :=
  match op with
  | OpListUnread mailbox _ | OpMarkAsRead mailbox _ | OpReply mailbox _ _
  | OpCreateDraftReply mailbox _ _ | OpSendNewMail mailbox _ _ _ => mailbox
  end.

(** The name a function of [graph.ts] gives its HTTP failures. *)
Definition op_label (op : MailOp) : string :=
  match op with
  | OpListUnread _ _ => "list messages"
  | OpMarkAsRead _ _ => "mark-as-read"
  | OpReply _ _ _ => "reply"
  | OpCreateDraftReply _ _ _ => "createReply"
  | OpSendNewMail _ _ _ _ => "sendMail"
  end.

(** The wake-up time of a sleep that starts in [w]. *)
Definition wake_time (ms : Z) (w : World) : Z := now w + timer_delay ms.

(** The signal does not fire before time [t]. *)
Definition no_abort_before (env : Env) (t : Z) : Prop :=
  match env_abortAt env with
  | Some a => t <= a
  | None => True
  end.

(** The number of occurrences of the idle notification in a trace. *)
Definition idle_count (t : list Event) : nat :=
  List.length (filter (fun e => match e with EvIdle => true | _ => false end) t).

(** The number of calls of the dispatch in a trace. *)
Definition dispatch_count (t : list Event) : nat :=
  List.length (filter (fun e => match e with EvDispatch _ => true | _ => false end) t).

(** The idle notification or the call of the dispatch. *)
Definition is_host_mark (e : Event) : bool :=
  match e with
  | EvIdle | EvDispatch _ => true
  | _ => false
  end.

(** A computation that never sets the clock back. *)
Definition clock_mono {A} (m : M A) : Prop :=
  forall w, now w <= now (world_after (m w)).

(** The mail calls of processing one message that was marked read and whose
    flushes had the given bodies. *)
Definition message_calls (d : bool) (mailbox : string)
    (block : GraphMessage * list string) : list MailOp :=
  OpMarkAsRead mailbox (id (fst block))
    :: map (flush_op d mailbox (id (fst block))) (snd block).

(** A mail call that a monitor of [mailbox] makes when its flush branch is
    [d]: the listing of twenty, a marking, or the flush of that branch. *)
Definition monitor_call (d : bool) (mailbox : string) (op : MailOp) : bool :=
  match op with
  | OpListUnread m top => (String.eqb m mailbox && (top =? 20))%bool
  | OpMarkAsRead m _ => String.eqb m mailbox
  | OpCreateDraftReply m _ _ => (String.eqb m mailbox && d)%bool
  | OpReply m _ _ => (String.eqb m mailbox && negb d)%bool
  | OpSendNewMail _ _ _ _ => false
  end.
(* ===================================================================== *)
(** ** Concrete scenarios *)
(* ===================================================================== *)

Module Scenario.

Definition creds : OutlookCredentials := mkCreds "app-id" "app-secret" "tenant-id".

Definition cfg (draftOnly : option bool) : OpenClawConfig :=
  mkConfig (Some (mkChannelConfig None (Some "app-id") (Some "app-secret")
                    (Some "tenant-id") (Some "helpdesk@example.com") None draftOnly)).

Definition mailbox : string := "helpdesk@example.com".

Definition msgA : GraphMessage :=
  mkGraphMessage "msg-A" "Hello" (Some "hi")
    (Some (mkEmailAddress (Some "A@B.com") (Some "Ann")))
    "2024-05-02T09:00:00Z" false None.

Definition msgB : GraphMessage :=
  mkGraphMessage "msg-B" "Again" (Some "hi again")
    (Some (mkEmailAddress (Some "a@b.com") None))
    "2024-05-01T09:00:00Z" false None.

(** The transport: the token endpoint grants [tok-n] for one hour; the
    mail provider answers every request with 200, lists [msgA] (received
    later) before [msgB] (received earlier), and names drafts [draft-1]. *)
Definition transport (n : nat) (req : Request) : FetchResult :=
  if String.eqb (req_url req) (token_url creds)
  then FetchResponse 120
         (mkResponse true 200 "" (mkJsonBody "tok-new" 3600 [] ""))
  else FetchResponse 80
         (mkResponse true 200 "" (mkJsonBody "" 0 [msgA; msgB] "draft-1")).

(** The agent answers the first dispatch with two blocks and a final
    chunk, and throws on every later dispatch after one block. *)
Definition agent (n : nat) (ctx : InboundContext) : Host :=
  match n with
  | O =>
      HDeliver (mkPayload (Some "Dear Ann,")) "block" (fun _ =>
      HWait 500 (
      HDeliver (mkPayload (Some "thanks.")) "block" (fun _ =>
      HDeliver (mkPayload (Some "Bye")) "final" (fun _ => HReturn))))
  | S _ =>
      HDeliver (mkPayload (Some "partial")) "block" (fun _ =>
      HThrow (Reason "agent crashed"))
  end.

(** An agent that signals final without any text. *)
Definition silent_agent (n : nat) (ctx : InboundContext) : Host :=
  HDeliver (mkPayload None) "tool" (fun _ =>
  HDeliver (mkPayload (Some "")) "final" (fun _ => HReturn)).

(** An agent that throws on every dispatch. *)
Definition failing_agent (n : nat) (ctx : InboundContext) : Host :=
  HWait 300 (HThrow (Reason "agent crashed")).

Definition runtime (a : nat -> InboundContext -> Host) : PluginRuntime :=
  mkRuntime (fun c => c) a.

Definition env (a : nat -> InboundContext -> Host) (abortAt : option Z) : Env :=
  mkEnv (mkProcessEnv None None None) transport abortAt (Some (runtime a)).

(** A world at time [t] whose cache holds [tok-old], expiring at [e]. *)
Definition world (t e : Z) : World :=
  mkWorld t (Some (mkCachedToken "tok-old" e)) [] 0 0.

End Scenario.

(** Further scenarios: transports and hosts that fail. *)
Module Cases.

Definition denied : Response :=
  mkResponse false 401 "invalid_client" (mkJsonBody "" 0 [] "").

Definition unavailable : Response :=
  mkResponse false 503 "service unavailable" (mkJsonBody "" 0 [] "").

(** The token endpoint refuses; the mail provider answers as in [Scenario]. *)
Definition transport_denying_token (n : nat) (req : Request) : FetchResult :=
  if String.eqb (req_url req) (token_url Scenario.creds)
  then FetchResponse 50 denied
  else Scenario.transport n req.

(** The token endpoint grants; every request to the mail provider gets 503. *)
Definition transport_failing_graph (n : nat) (req : Request) : FetchResult :=
  if String.eqb (req_url req) (token_url Scenario.creds)
  then Scenario.transport n req
  else FetchResponse 30 unavailable.

(** Listing works; marking read (PATCH) gets 503. *)
Definition transport_failing_mark (n : nat) (req : Request) : FetchResult :=
  if String.eqb (req_method req) "PATCH"
  then FetchResponse 30 unavailable
  else Scenario.transport n req.

Definition env (transport : nat -> Request -> FetchResult) (abortAt : option Z)
    (core : option PluginRuntime) : Env :=
  mkEnv (mkProcessEnv None None None) transport abortAt core.

(** An agent that answers with one final chunk after two seconds. *)
Definition slow_agent (n : nat) (ctx : InboundContext) : Host :=
  HWait 2000 (HDeliver (mkPayload (Some "ok")) "final" (fun _ => HReturn)).

(** An agent that sends two final chunks. *)
Definition two_finals (n : nat) (ctx : InboundContext) : Host :=
  HDeliver (mkPayload (Some "first")) "final" (fun _ =>
  HDeliver (mkPayload (Some "second")) "final" (fun _ => HReturn)).

Definition account : ResolvedOutlookAccount :=
  mkAccount Scenario.mailbox "app-id" "app-secret" "tenant-id".

End Cases.

(* ===================================================================== *)
(** ** Lemmas on the monad and on traces *)
(* ===================================================================== *)

Lemma mail_calls_app (a b : list Event) :
  mail_calls (a ++ b) = mail_calls a ++ mail_calls b.
Proof. apply flat_map_app. Qed.

Lemma deliveries_app (a b : list Event) :
  deliveries (a ++ b) = deliveries a ++ deliveries b.
Proof. apply flat_map_app. Qed.

Lemma fetches_app (a b : list Event) :
  fetches (a ++ b) = fetches a ++ fetches b.
Proof. apply flat_map_app. Qed.

Lemma quiet_mail_calls (t : list Event) : quiet t -> mail_calls t = [].
Proof.
  induction 1 as [|e t He _ IH]; [reflexivity|].
  destruct e; try discriminate; exact IH.
Qed.

Lemma quiet_deliveries (t : list Event) : quiet t -> deliveries t = [].
Proof.
  induction 1 as [|e t He _ IH]; [reflexivity|].
  destruct e; try discriminate; exact IH.
Qed.

Lemma quiet_no_dispatch (t : list Event) (e : Event) :
  quiet t -> In e t -> is_dispatch_event e = false.
Proof.
  intros H Hin. unfold quiet in H. rewrite Forall_forall in H.
  specialize (H e Hin). destruct e; try discriminate; reflexivity.
Qed.


Lemma quiet_app (a b : list Event) : quiet a -> quiet b -> quiet (a ++ b).
Proof. intros; apply Forall_app; split; assumption. Qed.

Lemma only_fetches_quiet (t : list Event) : only_fetches t -> quiet t.
Proof.
  apply Forall_impl. intros e He. destruct e; try discriminate; reflexivity.
Qed.

Lemma only_fetches_app (a b : list Event) :
  only_fetches a -> only_fetches b -> only_fetches (a ++ b).
Proof. intros; apply Forall_app; split; assumption. Qed.


Lemma fetch_transport_only env req : transport_only (fetch env req).
Proof.
  intros w. unfold fetch.
  destruct (env_fetch env (fetchCount w) req); cbn;
    (split; [repeat constructor | split; reflexivity]).
Qed.

Lemma getGraphAccessToken_transport_only env creds :
  transport_only (getGraphAccessToken env creds).
Proof.
  intros w. unfold getGraphAccessToken, bind, get_world.
  destruct (cache_fresh (tokenCache w) (now w)).
  - cbn. split; [constructor | split; reflexivity].
  - pose proof (fetch_transport_only env (token_request creds) w) as (Hf & Hb & Hd).
    destruct (fetch env (token_request creds) w) as [[r w1] t]. cbn in Hf, Hb, Hd.
    destruct r as [res|e]; cbn.
    + destruct (ok res); cbn; rewrite ?app_nil_r; auto.
    + auto.
Qed.

Lemma transport_only_ret {A} (a : A) : transport_only (ret a).
Proof. intros w; cbn. split; [constructor | split; reflexivity]. Qed.

Lemma transport_only_throw {A} (e : Err) : transport_only (@throw A e).
Proof. intros w; cbn. split; [constructor | split; reflexivity]. Qed.

Lemma transport_only_bind {A B} (m : M A) (f : A -> M B) :
  transport_only m -> (forall a, transport_only (f a)) -> transport_only (bind m f).
Proof.
  intros Hm Hf w. unfold bind.
  pose proof (Hm w) as (H1 & H2 & H3).
  destruct (m w) as [[r w1] t1]. cbn in H1, H2, H3.
  destruct r as [a|e]; cbn; [|auto].
  pose proof (Hf a w1) as (H4 & H5 & H6).
  destruct (f a w1) as [[r2 w2] t2]. cbn in *.
  split; [apply only_fetches_app; assumption | split; congruence].
Qed.

Lemma graphFetch_transport_only env creds path query method body :
  transport_only (graphFetch env creds path query method body).
Proof.
  apply transport_only_bind.
  - apply getGraphAccessToken_transport_only.
  - intros tok. apply fetch_transport_only.
Qed.


Lemma mail_op_shape_intro {A} (op : MailOp) (m : M A) :
  transport_only m -> mail_op_shape op (emit (EvCall op) ;;; m).
Proof.
  intros Hm w. unfold bind, emit.
  pose proof (Hm w) as (H1 & H2 & H3).
  destruct (m w) as [[r w1] t1]. cbn in *.
  exists t1. auto.
Qed.

Ltac transport :=
  repeat first
    [ apply graphFetch_transport_only
    | apply transport_only_bind; [|intros ?]
    | apply transport_only_ret
    | apply transport_only_throw
    | match goal with |- transport_only (if ?b then _ else _) => destruct b end ].

Lemma listUnreadMessages_shape env creds mailbox top :
  mail_op_shape (OpListUnread mailbox top) (listUnreadMessages env creds mailbox top).
Proof. apply mail_op_shape_intro. transport. Qed.

Lemma markAsRead_shape env creds mailbox messageId :
  mail_op_shape (OpMarkAsRead mailbox messageId) (markAsRead env creds mailbox messageId).
Proof. apply mail_op_shape_intro. transport. Qed.

Lemma replyToMessage_shape env creds mailbox messageId replyText :
  mail_op_shape (OpReply mailbox messageId replyText)
                (replyToMessage env creds mailbox messageId replyText).
Proof. apply mail_op_shape_intro. transport. Qed.

Lemma createDraftReply_shape env creds mailbox messageId replyText :
  mail_op_shape (OpCreateDraftReply mailbox messageId replyText)
                (createDraftReply env creds mailbox messageId replyText).
Proof. apply mail_op_shape_intro. transport. Qed.

Lemma sendNewMail_shape env creds mailbox to subject bodyText :
  mail_op_shape (OpSendNewMail mailbox to subject bodyText)
                (sendNewMail env creds mailbox to subject bodyText).
Proof. apply mail_op_shape_intro. transport. Qed.

Lemma pushed_nonempty (buf : list string) (p : ReplyPayload) :
  buf <> [] -> pushed buf p <> [].
Proof.
  unfold pushed. destruct (JS.truthy (payload_text p)); [|auto].
  intros _ H. apply app_eq_nil in H. destruct H; discriminate.
Qed.

Lemma pushed_truthy (buf : list string) (p : ReplyPayload) :
  JS.truthy (payload_text p) = true -> pushed buf p <> [].
Proof.
  unfold pushed. intros ->. intros H. apply app_eq_nil in H. destruct H; discriminate.
Qed.

(** One invocation of the sink: either it flushes, entering exactly one mail
    function with the joined buffer and leaving the buffer empty, or it only
    updates the buffer. *)
Lemma deliver_run env creds mailbox msg d p kind w :
  let buf' := pushed (replyBuffer w) p in
  let x := deliver env creds mailbox msg d p kind w in
  if (is_final kind && Nat.ltb 0 (List.length buf'))%bool then
    exists t,
      trace x = EvCall (flush_op d mailbox (id msg) (JS.join blank_line buf')) :: t
      /\ quiet t
      /\ replyBuffer (world_after x) = []
      /\ dispatchCount (world_after x) = dispatchCount w
  else
    x = (Returned tt, set_replyBuffer buf' w, []).
Proof.
  intros buf' x.
  set (w' := set_replyBuffer buf' w).
  assert (E : x = (if (is_final kind && Nat.ltb 0 (List.length buf'))%bool
                   then
                     let replyText := JS.join blank_line buf' in
                     modify (set_replyBuffer []) ;;;
                     if d then
                       draftId <- createDraftReply env creds mailbox (id msg) replyText ;;
                       log Info (LogDraftCreated draftId (id msg) (String.length replyText))
                     else
                       replyToMessage env creds mailbox (id msg) replyText ;;;
                       log Info (LogReplied (id msg) (String.length replyText))
                   else ret tt) w').
  { subst x w' buf'. unfold deliver, pushed.
    destruct (JS.truthy (payload_text p)); unfold bind at 1; cbn [modify ret];
      unfold bind at 1; unfold get_world; cbn [replyBuffer set_replyBuffer];
      replace (set_replyBuffer (replyBuffer w) w) with w by (destruct w; reflexivity);
      match goal with |- _ = ?b => destruct b as [[? ?] ?] end; reflexivity. }
  rewrite E. clear E x.
  destruct (is_final kind && Nat.ltb 0 (List.length buf'))%bool; [|reflexivity].
  cbv zeta. set (body := JS.join blank_line buf').
  assert (Hd : dispatchCount w' = dispatchCount w) by reflexivity.
  destruct d; cbn [flush_op].
  - pose proof (createDraftReply_shape env creds mailbox (id msg) body
                  (set_replyBuffer [] w')) as (t & Ht & Hq & Hbuf & Hdc).
    unfold bind, modify.
    destruct (createDraftReply env creds mailbox (id msg) body (set_replyBuffer [] w'))
      as [[r w1] t1]. cbn in Ht, Hbuf, Hdc. subst t1.
    destruct r as [draftId|e]; cbn.
    + exists (t ++ [EvLog Info (LogDraftCreated draftId (id msg) (String.length body))]).
      repeat split; try congruence.
      apply quiet_app; [apply only_fetches_quiet; assumption | repeat constructor].
    + exists t. repeat split; try congruence. apply only_fetches_quiet; assumption.
  - pose proof (replyToMessage_shape env creds mailbox (id msg) body
                  (set_replyBuffer [] w')) as (t & Ht & Hq & Hbuf & Hdc).
    unfold bind, modify.
    destruct (replyToMessage env creds mailbox (id msg) body (set_replyBuffer [] w'))
      as [[r w1] t1]. cbn in Ht, Hbuf, Hdc. subst t1.
    destruct r as [u|e]; cbn.
    + exists (t ++ [EvLog Info (LogReplied (id msg) (String.length body))]).
      repeat split; try congruence.
      apply quiet_app; [apply only_fetches_quiet; assumption | repeat constructor].
    + exists t. repeat split; try congruence. apply only_fetches_quiet; assumption.
Qed.

(** Unfolding of one step of the host. *)
Lemma runHost_deliver_eq sink p kind k w :
  runHost sink (HDeliver p kind k) w =
  let '(r, w1, t1) := sink p kind w in
  let '(r2, w2, t2) :=
    runHost sink (k (match r with Returned _ => None | Threw e => Some e end)) w1 in
  (r2, w2, EvDeliver p kind :: t1 ++ t2).
Proof.
  cbn [runHost]. unfold bind, emit, settle.
  destruct (sink p kind w) as [[r w1] t1].
  destruct (runHost sink _ w1) as [[r2 w2] t2]. reflexivity.
Qed.

Lemma runHost_wait_eq sink ms k w :
  runHost sink (HWait ms k) w = runHost sink k (set_now (now w + Z.of_N ms) w).
Proof.
  cbn [runHost]. unfold bind, elapse, modify.
  destruct (runHost sink k _) as [[r2 w2] t2]. reflexivity.
Qed.

(** The mail calls of a dispatch are exactly the flushes of the deliveries it
    made, each through the branch chosen by [draftOnly]. *)
Lemma runHost_calls env creds mailbox msg d h :
  forall w,
    let x := runHost (deliver env creds mailbox msg d) h w in
    mail_calls (trace x)
    = map (flush_op d mailbox (id msg)) (flushes (replyBuffer w) (deliveries (trace x))).
Proof.
  induction h as [| e | ms k IH | p kind k IH]; intros w x; subst x.
  - reflexivity.
  - reflexivity.
  - rewrite runHost_wait_eq. apply (IH (set_now (now w + Z.of_N ms) w)).
  - rewrite runHost_deliver_eq.
    pose proof (deliver_run env creds mailbox msg d p kind w) as Hd. cbv zeta in Hd.
    destruct (deliver env creds mailbox msg d p kind w) as [[r w1] t1] eqn:E.
    set (o := match r with Returned _ => None | Threw e => Some e end).
    specialize (IH o w1). cbv zeta in IH.
    destruct (runHost (deliver env creds mailbox msg d) (k o) w1) as [[r2 w2] t2].
    cbn [trace snd] in *.
    change (EvDeliver p kind :: t1 ++ t2) with ([EvDeliver p kind] ++ t1 ++ t2).
    rewrite !mail_calls_app, !deliveries_app. cbn [mail_calls deliveries flat_map app].
    cbn [flushes].
    destruct (is_final kind && Nat.ltb 0 (List.length (pushed (replyBuffer w) p)))%bool.
    + destruct Hd as (t & Ht & Hq & Hbuf & _). cbn in Ht, Hbuf. subst t1.
      cbn [mail_calls deliveries flat_map app].
      fold (mail_calls t). fold (deliveries t).
      rewrite (quiet_mail_calls t Hq), (quiet_deliveries t Hq).
      cbn [app map]. rewrite IH, Hbuf. reflexivity.
    + inversion Hd; subst. cbn. exact IH.
Qed.

Lemma app_eq_split {A} (a b t1 t2 : list A) (e : A) :
  a ++ b = t1 ++ e :: t2 ->
  (exists m, a = t1 ++ e :: m /\ t2 = m ++ b)
  \/ (exists m, t1 = a ++ m /\ b = m ++ e :: t2).
Proof.
  intros H. apply app_eq_app in H. destruct H as [l [[H1 H2] | [H1 H2]]].
  - destruct l as [|x l].
    + right. exists []. rewrite app_nil_r in H1. cbn in H2. subst. rewrite app_nil_r. auto.
    + left. cbn in H2. injection H2 as -> ->. exists l. auto.
  - right. exists l. auto.
Qed.


Lemma processMessage_no_runtime env creds mailbox msg d w :
  env_runtime env = None ->
  processMessage env creds mailbox msg d w
  = (Threw (Reason "Outlook runtime not initialized"), w, []).
Proof.
  intros H. unfold processMessage, getOutlookRuntime. rewrite H. reflexivity.
Qed.

(** The run of [processMessage], step by step. *)
Lemma processMessage_eq env creds mailbox msg d w core :
  env_runtime env = Some core ->
  processMessage env creds mailbox msg d w =
  let '(r1, w1, t1) := markAsRead env creds mailbox (id msg) w in
  let debug := EvLog Debug (LogProcessing (id msg) (senderAddress_of msg)) in
  match r1 with
  | Threw e => (Threw e, w1, debug :: t1)
  | Returned _ =>
      let ctx := finalizeInboundContext core (inbound_context mailbox msg) in
      let '(r2, w2, t2) :=
        runHost (deliver env creds mailbox msg d)
                (dispatchReplyFromConfig core (dispatchCount w1) ctx)
                (next_dispatch (set_replyBuffer [] w1)) in
      (Returned tt, w2,
       debug :: t1 ++ EvDispatch ctx :: t2
         ++ match r2 with
            | Threw e => [EvLog Error (LogDispatchFailed (id msg) e)]
            | Returned _ => []
            end ++ [EvIdle])
  end.
Proof.
  intros H. unfold processMessage, getOutlookRuntime. rewrite H.
  unfold bind at 1. cbn [ret]. unfold bind at 1. cbn [log emit].
  unfold bind at 1.
  destruct (markAsRead env creds mailbox (id msg) w) as [[r1 w1] t1].
  destruct r1 as [u|e]; [|reflexivity].
  unfold bind at 1. cbn [modify]. unfold finally, try_catch, dispatch.
  unfold bind at 1. cbn [emit]. unfold bind at 1. cbn [get_world].
  unfold bind at 1. cbn [modify dispatchCount set_replyBuffer].
  change (next_dispatch (mkWorld (now w1) (tokenCache w1) [] (fetchCount w1) (dispatchCount w1)))
    with (next_dispatch (set_replyBuffer [] w1)).
  destruct (runHost _ _ _) as [[r2 w2] t2].
  destruct r2 as [[]|e2]; cbn; destruct u; rewrite ?app_nil_r, <- ?app_assoc; reflexivity.
Qed.

(* ===================================================================== *)
(** ** TokenCache *)
(* ===================================================================== *)

(** C4.  A call of [getGraphAccessToken] with a cached token: when the cached
    token expires more than 60 s after now, it is returned, the world is
    unchanged and nothing is requested; otherwise exactly one request is
    made, the client-credentials request to the token endpoint, and when it
    succeeds the new token is returned and cached with expiry
    [now + expires_in] (seconds, kept in milliseconds).  For a token cached
    with expiry [t0 + 3600 s], a call at [t0 + 3000 s] is served from the
    cache and a call at [t0 + 3545 s] makes exactly one request. *)
Theorem getGraphAccessToken_cached_or_refreshed env creds w c :
  tokenCache w = Some c ->
  let x := getGraphAccessToken env creds w in
  (expiresAt c > now w + 60000 -> x = (Returned (token c), w, []))
  /\ (expiresAt c <= now w + 60000 ->
      trace x = [EvFetch (token_request creds)]
      /\ req_body (token_request creds)
         = BodyForm [("grant_type", "client_credentials");
                     ("client_id", appId creds);
                     ("client_secret", appSecret creds);
                     ("scope", "https://graph.microsoft.com/.default")]
      /\ forall d r,
           env_fetch env (fetchCount w) (token_request creds) = FetchResponse d r ->
           ok r = true ->
           result x = Returned (access_token (json r))
           /\ tokenCache (world_after x)
              = Some (mkCachedToken (access_token (json r))
                                    (now w + expires_in (json r) * 1000)))
  /\ (forall t0, expiresAt c = t0 + 3600 * 1000 ->
        (now w = t0 + 3000 * 1000 ->
           result x = Returned (token c) /\ fetches (trace x) = [])
        /\ (now w = t0 + 3545 * 1000 ->
           fetches (trace x) = [token_request creds])).
Proof.
  intros Hc x.
  assert (Hfresh : expiresAt c > now w + 60000 -> x = (Returned (token c), w, [])).
  { intros Hgt. subst x. unfold getGraphAccessToken, bind, get_world.
    unfold cache_fresh. rewrite Hc.
    replace (expiresAt c >? now w + 60000) with true
      by (symmetry; apply Z.gtb_lt; lia).
    reflexivity. }
  assert (Hstale : expiresAt c <= now w + 60000 ->
                   trace x = [EvFetch (token_request creds)]
                   /\ forall d r,
                        env_fetch env (fetchCount w) (token_request creds)
                        = FetchResponse d r ->
                        ok r = true ->
                        result x = Returned (access_token (json r))
                        /\ tokenCache (world_after x)
                           = Some (mkCachedToken (access_token (json r))
                                     (now w + expires_in (json r) * 1000))).
  { intros Hle. subst x. unfold getGraphAccessToken, bind, get_world.
    unfold cache_fresh. rewrite Hc.
    replace (expiresAt c >? now w + 60000) with false
      by (symmetry; rewrite Z.gtb_ltb; apply Z.ltb_ge; lia).
    unfold fetch.
    destruct (env_fetch env (fetchCount w) (token_request creds)) as [d e | d r].
    - split; [reflexivity | intros ? ? ?; discriminate].
    - destruct (ok r) eqn:Hok; cbn.
      + split; [reflexivity|]. intros d' r' H _. injection H as _ <-. auto.
      + split; [reflexivity|]. intros d' r' H Hok'. injection H as _ <-. congruence. }
  split; [exact Hfresh|]. split.
  - intros Hle. destruct (Hstale Hle) as [H1 H2].
    split; [exact H1 | split; [reflexivity | exact H2]].
  - intros t0 He. split.
    + intros Hn. rewrite Hfresh by lia. split; reflexivity.
    + intros Hn. destruct Hstale as [-> _]; [lia | reflexivity].
Qed.

(** The scenario of C4: a token cached at [t0 = 1000000] for one hour. *)
Lemma getGraphAccessToken_cached_or_refreshed_witness :
  getGraphAccessToken (Scenario.env Scenario.agent None) Scenario.creds
    (Scenario.world (1000000 + 3000 * 1000) (1000000 + 3600 * 1000))
  = (Returned "tok-old",
     Scenario.world (1000000 + 3000 * 1000) (1000000 + 3600 * 1000), [])
  /\ fetches (trace (getGraphAccessToken (Scenario.env Scenario.agent None) Scenario.creds
                (Scenario.world (1000000 + 3545 * 1000) (1000000 + 3600 * 1000))))
     = [token_request Scenario.creds].
Proof.
  split.
  - apply (getGraphAccessToken_cached_or_refreshed
             (Scenario.env Scenario.agent None) Scenario.creds
             (Scenario.world (1000000 + 3000 * 1000) (1000000 + 3600 * 1000))
             (mkCachedToken "tok-old" (1000000 + 3600 * 1000)) eq_refl).
    reflexivity.
  - apply (getGraphAccessToken_cached_or_refreshed
             (Scenario.env Scenario.agent None) Scenario.creds
             (Scenario.world (1000000 + 3545 * 1000) (1000000 + 3600 * 1000))
             (mkCachedToken "tok-old" (1000000 + 3600 * 1000)) eq_refl)
      with (t0 := 1000000); reflexivity.
Defined.

(* ===================================================================== *)
(** ** MailClient *)
(* ===================================================================== *)

(** The request that [listUnreadMessages] sends with bearer token [tok]. *)
Lemma listUnreadMessages_run env creds mailbox top w :
  let req tok :=
    mkRequest "GET"
      (GRAPH ++ "/users/" ++ JS.encodeURIComponent mailbox ++ "/mailfolders/inbox/messages")
      (listUnread_params top)
      [("Authorization", ("Bearer " ++ tok)%string); ("Content-Type", "application/json")]
      BodyNone in
  listUnreadMessages env creds mailbox top w =
  let '(rt, w1, t1) := getGraphAccessToken env creds w in
  match rt with
  | Threw e => (Threw e, w1, EvCall (OpListUnread mailbox top) :: t1)
  | Returned tok =>
      let w2 := set_now (now w1 + match env_fetch env (fetchCount w1) (req tok) with
                                  | FetchRejected d _ | FetchResponse d _ => Z.of_N d
                                  end) (next_fetch w1) in
      let t := EvCall (OpListUnread mailbox top) :: t1 ++ [EvFetch (req tok)] in
      match env_fetch env (fetchCount w1) (req tok) with
      | FetchRejected _ e => (Threw e, w2, t)
      | FetchResponse _ r =>
          if ok r then (Returned (value (json r)), w2, t)
          else (Threw (HttpError "list messages" (status r) (text r)), w2, t)
      end
  end.
Proof.
  cbv zeta. unfold listUnreadMessages, graphFetch.
  unfold bind at 1. cbn [emit]. unfold bind at 1. unfold bind at 1.
  destruct (getGraphAccessToken env creds w) as [[rt w1] t1].
  destruct rt as [tok|e]; [|reflexivity].
  unfold fetch.
  destruct (env_fetch env (fetchCount w1) _) as [d e | d r]; [reflexivity|].
  destruct (ok r); cbn; rewrite ?app_nil_r; reflexivity.
Qed.

(** C5, as the code has it.  [listUnreadMessages] asks the provider for
    ascending receive-time order ([$orderby=receivedDateTime asc]) in every
    list request it sends, and returns the list of the response as it is,
    without sorting it: the result is in non-decreasing receive-time order
    whenever the transport's list is. *)
Theorem listUnreadMessages_requests_ascending env creds mailbox top w :
  let x := listUnreadMessages env creds mailbox top w in
  (forall req, In req (fetches (trace x)) ->
     req = token_request creds
     \/ In ("$orderby", "receivedDateTime asc") (req_query req))
  /\ (forall msgs, result x = Returned msgs ->
        exists n req d r,
          In req (fetches (trace x))
          /\ In ("$orderby", "receivedDateTime asc") (req_query req)
          /\ env_fetch env n req = FetchResponse d r
          /\ ok r = true
          /\ msgs = value (json r)
          /\ ascending msgs = ascending (value (json r))).
Proof.
  intros x. subst x. rewrite listUnreadMessages_run. cbv zeta.
  pose proof (getGraphAccessToken_transport_only env creds w) as (Hf & _).
  destruct (getGraphAccessToken env creds w) as [[rt w1] t1] eqn:Et. cbn [trace snd] in Hf.
  assert (Ht1 : forall req, In req (fetches t1) -> req = token_request creds).
  { revert Et. unfold getGraphAccessToken, bind, get_world.
    destruct (cache_fresh (tokenCache w) (now w)).
    - intros [= _ _ <-]. intros req [].
    - unfold fetch. destruct (env_fetch env (fetchCount w) (token_request creds)) as [d e|d r].
      + intros [= _ _ <-]. intros req [<-|[]]. reflexivity.
      + destruct (ok r); cbn; intros [= _ _ <-]; intros req [<-|[]]; reflexivity. }
  destruct rt as [tok|e].
  - set (req := mkRequest _ _ _ _ _).
    assert (Hin : In ("$orderby", "receivedDateTime asc") (req_query req))
      by (right; left; reflexivity).
    assert (Hall : forall q, In q (fetches (EvCall (OpListUnread mailbox top)
                                              :: t1 ++ [EvFetch req])) ->
                     q = token_request creds
                     \/ In ("$orderby", "receivedDateTime asc") (req_query q)).
    { intros q Hq. change (In q (fetches (t1 ++ [EvFetch req]))) in Hq.
      rewrite fetches_app in Hq. apply in_app_or in Hq. destruct Hq as [Hq|[<-|[]]]; auto. }
    assert (Hreq : In req (fetches (EvCall (OpListUnread mailbox top)
                                      :: t1 ++ [EvFetch req]))).
    { change (In req (fetches (t1 ++ [EvFetch req]))). rewrite fetches_app.
      apply in_or_app. right. left. reflexivity. }
    destruct (env_fetch env (fetchCount w1) req) as [d e | d r] eqn:Ef.
    + split; [exact Hall | intros msgs; discriminate].
    + destruct (ok r) eqn:Hok.
      * split; [exact Hall|]. intros msgs [= <-].
        exists (fetchCount w1), req, d, r. repeat split; auto.
      * split; [exact Hall | intros msgs; discriminate].
  - split; [|intros msgs; discriminate].
    intros q Hq. left. apply Ht1. exact Hq.
Qed.

(** C5, as stated, does not hold: a transport that lists a later message
    first gets its list back in that order. *)
Lemma listUnreadMessages_ascending_counterexample :
  ~ (forall env creds mailbox top w msgs,
       result (listUnreadMessages env creds mailbox top w) = Returned msgs ->
       ascending msgs = true).
Proof.
  intros H.
  specialize (H (Scenario.env Scenario.agent None) Scenario.creds Scenario.mailbox 20
                (Scenario.world 0 0) [Scenario.msgA; Scenario.msgB] eq_refl).
  vm_compute in H. discriminate H.
Qed.

(* ===================================================================== *)
(** ** MessageProcessor *)
(* ===================================================================== *)

Lemma runHost_no_dispatch env creds mailbox msg d h :
  forall w ctx, ~ In (EvDispatch ctx) (trace (runHost (deliver env creds mailbox msg d) h w)).
Proof.
  induction h as [| e | ms k IH | p kind k IH]; intros w ctx H.
  - destruct H.
  - destruct H.
  - rewrite runHost_wait_eq in H. eapply IH; eassumption.
  - rewrite runHost_deliver_eq in H.
    pose proof (deliver_run env creds mailbox msg d p kind w) as Hd. cbv zeta in Hd.
    destruct (deliver env creds mailbox msg d p kind w) as [[r w1] t] eqn:E.
    set (o := match r with Returned _ => None | Threw e => Some e end) in *.
    specialize (IH o w1 ctx).
    destruct (runHost (deliver env creds mailbox msg d) (k o) w1) as [[r2 w2] t'].
    cbn [trace snd] in *.
    destruct H as [H|H]; [discriminate|].
    apply in_app_or in H. destruct H as [H|H]; [|auto].
    destruct (is_final kind && Nat.ltb 0 (List.length (pushed (replyBuffer w) p)))%bool.
    + destruct Hd as (tq & Htq & Hq & _). cbn in Htq. subst t.
      destruct H as [H|H]; [discriminate|].
      pose proof (quiet_no_dispatch tq _ Hq H). discriminate.
    + inversion Hd; subst. destruct H.
Qed.

Lemma markAsRead_no_dispatch env creds mailbox messageId w e :
  In e (trace (markAsRead env creds mailbox messageId w)) -> is_dispatch_event e = false.
Proof.
  destruct (markAsRead_shape env creds mailbox messageId w) as (t & -> & Hf & _).
  intros [<-|H]; [reflexivity|].
  apply (quiet_no_dispatch t); [apply only_fetches_quiet|]; assumption.
Qed.

(** The only dispatch of [processMessage] gets the finalized context. *)
Lemma processMessage_dispatch_ctx env creds mailbox msg d w ctx :
  In (EvDispatch ctx) (trace (processMessage env creds mailbox msg d w)) ->
  exists core,
    env_runtime env = Some core
    /\ ctx = finalizeInboundContext core (inbound_context mailbox msg).
Proof.
  destruct (env_runtime env) as [core|] eqn:Hr.
  - rewrite (processMessage_eq env creds mailbox msg d w core Hr).
    pose proof (markAsRead_no_dispatch env creds mailbox (id msg) w) as Hm.
    destruct (markAsRead env creds mailbox (id msg) w) as [[r1 w1] t1].
    cbn [trace snd] in Hm. cbv zeta.
    destruct r1 as [u|e].
    + pose proof (runHost_no_dispatch env creds mailbox msg d
                    (dispatchReplyFromConfig core (dispatchCount w1)
                       (finalizeInboundContext core (inbound_context mailbox msg)))
                    (next_dispatch (set_replyBuffer [] w1)) ctx) as Hh.
      destruct (runHost _ _ _) as [[r2 w2] t2]. cbn [trace snd] in *.
      intros [H|H]; [discriminate|].
      apply in_app_or in H. destruct H as [H|H].
      * specialize (Hm _ H). discriminate.
      * destruct H as [H|H]; [injection H as <-; eauto|].
        apply in_app_or in H. destruct H as [H|H]; [contradiction|].
        apply in_app_or in H. destruct H as [H|H].
        -- destruct r2; [destruct H | destruct H as [H|[]]; discriminate].
        -- destruct H as [H|[]]; discriminate.
    + cbn [trace snd]. intros [H|H]; [discriminate|].
      specialize (Hm _ H). discriminate.
  - rewrite processMessage_no_runtime by assumption. intros [].
Qed.

Lemma lower_char_same_letter c1 c2 :
  same_letter c1 c2 -> JS.lower_char c1 = JS.lower_char c2.
Proof.
  assert (Hup : forall a b,
             JS.is_upper a = true -> nat_of_ascii b = (nat_of_ascii a + 32)%nat ->
             JS.lower_char a = JS.lower_char b).
  { intros a b Ha Hb. unfold JS.lower_char. rewrite Ha.
    assert (Hnb : JS.is_upper b = false).
    { unfold JS.is_upper in *. apply andb_prop in Ha. destruct Ha as [H1 H2].
      apply Nat.leb_le in H1. apply Nat.leb_le in H2. rewrite Hb.
      apply andb_false_iff. right. apply Nat.leb_gt. lia. }
    rewrite Hnb, <- Hb. apply ascii_nat_embedding. }
  intros [-> | [[Ha Hb] | [Ha Hb]]]; [reflexivity | auto | symmetry; auto].
Qed.

Lemma toLowerCase_same_up_to_case s1 s2 :
  same_up_to_case s1 s2 -> JS.toLowerCase s1 = JS.toLowerCase s2.
Proof.
  induction 1 as [|c1 c2 s1 s2 Hc _ IH]; [reflexivity|].
  cbn. rewrite IH, (lower_char_same_letter c1 c2 Hc). reflexivity.
Qed.

(** C8.  The context that [processMessage] builds for a message carries the
    session key ["outlook:"] followed by the lower-cased sender address, and
    that context, finalized by the host, is the one handed to the dispatch;
    so when finalizing keeps the session key, the key handed to the dispatch
    is that string.  Two messages whose sender addresses differ at most in
    letter case get the identical session key. *)
Theorem sessionKey_is_lowercased_sender env creds mailbox msg d w :
  SessionKey (inbound_context mailbox msg)
  = ("outlook:" ++ JS.toLowerCase (senderAddress_of msg))%string
  /\ (forall a n, from_emailAddress msg = Some (mkEmailAddress (Some a) n) ->
        senderAddress_of msg = a)
  /\ (forall ctx core,
        env_runtime env = Some core ->
        (forall c, SessionKey (finalizeInboundContext core c) = SessionKey c) ->
        In (EvDispatch ctx) (trace (processMessage env creds mailbox msg d w)) ->
        SessionKey ctx = ("outlook:" ++ JS.toLowerCase (senderAddress_of msg))%string)
  /\ (forall msg' d' w' ctx ctx' core,
        same_up_to_case (senderAddress_of msg) (senderAddress_of msg') ->
        env_runtime env = Some core ->
        (forall c, SessionKey (finalizeInboundContext core c) = SessionKey c) ->
        In (EvDispatch ctx) (trace (processMessage env creds mailbox msg d w)) ->
        In (EvDispatch ctx') (trace (processMessage env creds mailbox msg' d' w')) ->
        SessionKey ctx = SessionKey ctx').
Proof.
  assert (Hkey : forall m d0 w0 ctx core,
             env_runtime env = Some core ->
             (forall c, SessionKey (finalizeInboundContext core c) = SessionKey c) ->
             In (EvDispatch ctx) (trace (processMessage env creds mailbox m d0 w0)) ->
             SessionKey ctx = ("outlook:" ++ JS.toLowerCase (senderAddress_of m))%string).
  { intros m d0 w0 ctx core Hr Hfin Hin.
    apply processMessage_dispatch_ctx in Hin. destruct Hin as (core' & Hr' & ->).
    rewrite Hr in Hr'. injection Hr' as <-. rewrite Hfin. reflexivity. }
  split; [reflexivity|]. split.
  - intros a n H. unfold senderAddress_of. rewrite H. reflexivity.
  - split.
    + intros ctx core. apply Hkey.
    + intros msg' d' w' ctx ctx' core Hsame Hr Hfin H1 H2.
      rewrite (Hkey _ _ _ _ _ Hr Hfin H1), (Hkey _ _ _ _ _ Hr Hfin H2).
      rewrite (toLowerCase_same_up_to_case _ _ Hsame). reflexivity.
Qed.

(** The scenario of C8: [msgA] comes from [A@B.com], [msgB] from [a@b.com]. *)
Lemma sessionKey_is_lowercased_sender_witness :
  SessionKey (inbound_context Scenario.mailbox Scenario.msgA) = "outlook:a@b.com"
  /\ SessionKey (inbound_context Scenario.mailbox Scenario.msgA)
     = SessionKey (inbound_context Scenario.mailbox Scenario.msgB).
Proof.
  assert (HA : In (EvDispatch (inbound_context Scenario.mailbox Scenario.msgA))
                  (trace (processMessage (Scenario.env Scenario.agent None) Scenario.creds
                            Scenario.mailbox Scenario.msgA true
                            (Scenario.world 0 3600000))))
    by (vm_compute; right; right; right; left; reflexivity).
  assert (HB : In (EvDispatch (inbound_context Scenario.mailbox Scenario.msgB))
                  (trace (processMessage (Scenario.env Scenario.agent None) Scenario.creds
                            Scenario.mailbox Scenario.msgB true
                            (Scenario.world 0 3600000))))
    by (vm_compute; right; right; right; left; reflexivity).
  pose proof (sessionKey_is_lowercased_sender (Scenario.env Scenario.agent None)
                Scenario.creds Scenario.mailbox Scenario.msgA true
                (Scenario.world 0 3600000))
    as (_ & _ & Hkey & Hsame).
  split.
  - apply (Hkey _ (Scenario.runtime Scenario.agent) eq_refl (fun c => eq_refl)
             HA).
  - apply (Hsame Scenario.msgB true (Scenario.world 0 3600000) _ _
             (Scenario.runtime Scenario.agent)); try reflexivity;
      [|exact HA | exact HB].
    cbv [senderAddress_of Scenario.msgA Scenario.msgB from_emailAddress address JS.nullish].
    repeat (apply same_cons;
            [first [left; reflexivity
                   | right; left; split; reflexivity
                   | right; right; split; reflexivity]|]).
    apply same_nil.
Defined.

Lemma markAsRead_run env creds mailbox messageId w :
  let req tok :=
    mkRequest "PATCH"
      (GRAPH ++ "/users/" ++ JS.encodeURIComponent mailbox ++ "/messages/" ++ messageId)
      []
      [("Authorization", ("Bearer " ++ tok)%string); ("Content-Type", "application/json")]
      (BodyJson (JObj [("isRead", JBool true)])) in
  markAsRead env creds mailbox messageId w =
  let '(rt, w1, t1) := getGraphAccessToken env creds w in
  match rt with
  | Threw e => (Threw e, w1, EvCall (OpMarkAsRead mailbox messageId) :: t1)
  | Returned tok =>
      let w2 := set_now (now w1 + match env_fetch env (fetchCount w1) (req tok) with
                                  | FetchRejected d _ | FetchResponse d _ => Z.of_N d
                                  end) (next_fetch w1) in
      let t := EvCall (OpMarkAsRead mailbox messageId) :: t1 ++ [EvFetch (req tok)] in
      match env_fetch env (fetchCount w1) (req tok) with
      | FetchRejected _ e => (Threw e, w2, t)
      | FetchResponse _ r =>
          if ok r then (Returned tt, w2, t)
          else (Threw (HttpError "mark-as-read" (status r) (text r)), w2, t)
      end
  end.
Proof.
  cbv zeta. unfold markAsRead, graphFetch.
  unfold bind at 1. cbn [emit]. unfold bind at 1. unfold bind at 1.
  destruct (getGraphAccessToken env creds w) as [[rt w1] t1].
  destruct rt as [tok|e]; [|reflexivity].
  unfold fetch.
  destruct (env_fetch env (fetchCount w1) _) as [d e | d r]; [reflexivity|].
  destruct (ok r); cbn; rewrite ?app_nil_r; reflexivity.
Qed.

(** C2.  Whenever the trace of [processMessage] shows an event of the
    dispatch (the call of the dispatch or an invocation of the reply sink),
    [markAsRead] has returned normally before it: its whole trace lies before
    that event, it ends with the PATCH request that sets [isRead], and the
    provider has answered that request with success. *)
Theorem markAsRead_precedes_dispatch env creds mailbox msg d w :
  forall t1 e t2,
    trace (processMessage env creds mailbox msg d w) = t1 ++ e :: t2 ->
    is_dispatch_event e = true ->
    let m := markAsRead env creds mailbox (id msg) w in
    result m = Returned tt
    /\ (exists post,
          t1 = EvLog Debug (LogProcessing (id msg) (senderAddress_of msg))
                 :: trace m ++ post)
    /\ (exists pre req n dl r,
          trace m = EvCall (OpMarkAsRead mailbox (id msg)) :: pre ++ [EvFetch req]
          /\ req_method req = "PATCH"
          /\ req_body req = BodyJson (JObj [("isRead", JBool true)])
          /\ env_fetch env n req = FetchResponse dl r
          /\ ok r = true).
Proof.
  intros t1 e t2 H He m. subst m.
  destruct (env_runtime env) as [core|] eqn:Hr.
  2:{ rewrite processMessage_no_runtime in H by assumption. destruct t1; discriminate. }
  rewrite (processMessage_eq env creds mailbox msg d w core Hr) in H.
  pose proof (markAsRead_no_dispatch env creds mailbox (id msg) w) as Hnd.
  pose proof (markAsRead_run env creds mailbox (id msg) w) as Hrun. cbv zeta in Hrun.
  destruct (markAsRead env creds mailbox (id msg) w) as [[r1 w1] tm] eqn:Em.
  cbn [trace snd result fst] in H, Hnd |- *. cbv zeta in H.
  assert (Hpre : forall l, (EvLog Debug (LogProcessing (id msg) (senderAddress_of msg)) :: tm)
                           = t1 ++ e :: l -> False).
  { intros l Hl.
    assert (Hin : In e (EvLog Debug (LogProcessing (id msg) (senderAddress_of msg)) :: tm))
      by (rewrite Hl; apply in_or_app; right; left; reflexivity).
    destruct Hin as [<-|Hin]; [discriminate|].
    specialize (Hnd _ Hin). congruence. }
  destruct r1 as [[]|err].
  - destruct (runHost _ _ _) as [[r2 w2] th]. cbn [trace snd] in H.
    change (EvLog Debug (LogProcessing (id msg) (senderAddress_of msg)) :: tm ++ ?x)
      with ((EvLog Debug (LogProcessing (id msg) (senderAddress_of msg)) :: tm) ++ x) in H.
    apply app_eq_split in H. destruct H as [(l & Hl & _) | (l & Hl & _)].
    + exfalso. eapply Hpre; eassumption.
    + split; [reflexivity|]. split; [exists l; exact Hl|].
      destruct (getGraphAccessToken env creds w) as [[rt wt] tt0].
      destruct rt as [tok|err]; [|discriminate].
      match type of Hrun with context [env_fetch env ?n ?q] =>
        destruct (env_fetch env n q) as [dl err | dl r] eqn:Ef; [discriminate|];
        destruct (ok r) eqn:Hok; [|discriminate];
        injection Hrun as _ ->;
        exists tt0, q, n, dl, r; repeat split; assumption
      end.
  - cbn [trace snd] in H. exfalso. eapply Hpre; eassumption.
Qed.

(** The scenario of C2: the first dispatch event of processing [msgA]. *)
Lemma markAsRead_precedes_dispatch_witness :
  result (markAsRead (Scenario.env Scenario.agent None) Scenario.creds Scenario.mailbox
            (id Scenario.msgA) (Scenario.world 0 3600000)) = Returned tt.
Proof.
  pose (tr := trace (processMessage (Scenario.env Scenario.agent None) Scenario.creds
                       Scenario.mailbox Scenario.msgA true (Scenario.world 0 3600000))).
  refine (proj1 (markAsRead_precedes_dispatch (Scenario.env Scenario.agent None)
                   Scenario.creds Scenario.mailbox Scenario.msgA true
                   (Scenario.world 0 3600000)
                   (firstn 3 tr)
                   (EvDispatch (inbound_context Scenario.mailbox Scenario.msgA))
                   (skipn 4 tr) _ _)).
  - vm_compute. reflexivity.
  - reflexivity.
Defined.

Lemma dispatch_eq core ctx sink w :
  dispatch core ctx sink w =
  let '(r, w2, t2) :=
    runHost sink (dispatchReplyFromConfig core (dispatchCount w) ctx) (next_dispatch w) in
  (r, w2, EvDispatch ctx :: t2).
Proof.
  unfold dispatch. unfold bind at 1. cbn [emit]. unfold bind at 1. cbn [get_world].
  unfold bind at 1. cbn [modify].
  destruct (runHost _ _ _) as [[r w2] t2]. destruct r; reflexivity.
Qed.

(** The first events of processing a message. *)
Lemma processMessage_begins env creds mailbox msg d w core :
  env_runtime env = Some core ->
  exists tl,
    trace (processMessage env creds mailbox msg d w)
    = EvLog Debug (LogProcessing (id msg) (senderAddress_of msg))
        :: EvCall (OpMarkAsRead mailbox (id msg)) :: tl.
Proof.
  intros Hr. rewrite (processMessage_eq env creds mailbox msg d w core Hr).
  destruct (markAsRead_shape env creds mailbox (id msg) w) as (t & Ht & _).
  destruct (markAsRead env creds mailbox (id msg) w) as [[r1 w1] t1].
  cbn [trace snd] in Ht. subst t1. cbv zeta.
  destruct r1.
  - destruct (runHost _ _ _) as [[r2 w2] t2]. cbn. eauto.
  - cbn. eauto.
Qed.

(** C6.  When the dispatch for message [A] throws [e]: [processMessage]
    returns normally, having logged the failure with the id of [A] and sent
    the idle notification; the loop over the messages of the cycle, which
    was processing [A], goes on with the iteration for the next message [B]
    as it does after any message; and that iteration, run while the monitor
    has not been cancelled, processes [B], starting by marking it read. *)
Theorem dispatch_error_is_contained env creds mailbox d A B rest w core w1 t1 e w2 t2 :
  env_runtime env = Some core ->
  markAsRead env creds mailbox (id A) w = (Returned tt, w1, t1) ->
  dispatch core (finalizeInboundContext core (inbound_context mailbox A))
           (deliver env creds mailbox A d) (set_replyBuffer [] w1)
  = (Threw e, w2, t2) ->
  let a := processMessage env creds mailbox A d w in
  let b := processMessage env creds mailbox B d w2 in
  result a = Returned tt
  /\ world_after a = w2
  /\ trace a = EvLog Debug (LogProcessing (id A) (senderAddress_of A))
                 :: t1 ++ t2 ++ [EvLog Error (LogDispatchFailed (id A) e); EvIdle]
  /\ (aborted env w = false ->
      forMessages env creds mailbox d (A :: B :: rest) w
      = let '(r, w3, t3) := forMessages env creds mailbox d (B :: rest) w2 in
        (r, w3, trace a ++ t3))
  /\ (aborted env w2 = false ->
      (exists tl,
         trace (forMessages env creds mailbox d (B :: rest) w2)
         = EvLog Debug (LogProcessing (id B) (senderAddress_of B))
             :: EvCall (OpMarkAsRead mailbox (id B)) :: tl)
      /\ forMessages env creds mailbox d (B :: rest) w2
         = match result b with
           | Returned _ =>
               let '(r, w3, t3) := forMessages env creds mailbox d rest (world_after b) in
               (r, w3, trace b ++ t3)
           | Threw e' => (Threw e', world_after b, trace b)
           end).
Proof.
  intros Hr Hm Hd a b.
  assert (Ha : a = (Returned tt, w2,
                    EvLog Debug (LogProcessing (id A) (senderAddress_of A))
                      :: t1 ++ t2 ++ [EvLog Error (LogDispatchFailed (id A) e); EvIdle])).
  { subst a. rewrite (processMessage_eq env creds mailbox A d w core Hr), Hm. cbv zeta.
    rewrite dispatch_eq in Hd. cbn [dispatchCount set_replyBuffer] in Hd.
    destruct (runHost _ _ _) as [[r2 w2'] t2'].
    injection Hd as -> -> <-. cbn. reflexivity. }
  rewrite Ha. cbn [result world_after trace fst snd].
  split; [reflexivity|]. split; [reflexivity|]. split; [reflexivity|]. split.
  - intros Hw.
    change (forMessages env creds mailbox d (A :: B :: rest))
      with (w0 <- get_world ;;
            if aborted env w0 then ret tt
            else processMessage env creds mailbox A d ;;;
                 forMessages env creds mailbox d (B :: rest)).
    unfold bind at 1. cbn [get_world]. rewrite Hw.
    unfold bind at 1. fold a. rewrite Ha.
    destruct (forMessages env creds mailbox d (B :: rest) w2) as [[r w3] t3].
    reflexivity.
  - intros Hw2.
    assert (Hfor : forMessages env creds mailbox d (B :: rest) w2
                   = match result b with
                     | Returned _ =>
                         let '(r, w3, t3) :=
                           forMessages env creds mailbox d rest (world_after b) in
                         (r, w3, trace b ++ t3)
                     | Threw e' => (Threw e', world_after b, trace b)
                     end).
    { cbn [forMessages]. unfold bind at 1. cbn [get_world]. rewrite Hw2.
      unfold bind at 1. fold b.
      destruct b as [[rb wb] tb]. cbn [result world_after trace fst snd].
      destruct rb as [u|e'].
      - destruct (forMessages env creds mailbox d rest wb) as [[r w3] t3]. reflexivity.
      - reflexivity. }
    split; [|exact Hfor].
    rewrite Hfor.
    destruct (processMessage_begins env creds mailbox B d w2 core Hr) as (tl & Htl).
    fold b in Htl.
    destruct (result b).
    + destruct (forMessages env creds mailbox d rest (world_after b)) as [[r w3] t3].
      cbn [trace snd]. rewrite Htl. exists (tl ++ t3). reflexivity.
    + cbn [trace snd]. rewrite Htl. exists tl. reflexivity.
Qed.

(** The scenario of C6: the agent throws while [msgA] is processed, and
    [msgB] is marked read next. *)
Lemma dispatch_error_is_contained_witness :
  result (processMessage (Scenario.env Scenario.failing_agent None) Scenario.creds
            Scenario.mailbox Scenario.msgA true (Scenario.world 0 3600000))
  = Returned tt
  /\ In (EvCall (OpMarkAsRead Scenario.mailbox "msg-B"))
        (trace (forMessages (Scenario.env Scenario.failing_agent None) Scenario.creds
                  Scenario.mailbox true [Scenario.msgA; Scenario.msgB]
                  (Scenario.world 0 3600000))).
Proof.
  pose (env := Scenario.env Scenario.failing_agent None).
  pose (w := Scenario.world 0 3600000).
  pose (m := markAsRead env Scenario.creds Scenario.mailbox (id Scenario.msgA) w).
  pose (core := Scenario.runtime Scenario.failing_agent).
  pose (dsp := dispatch core
                 (finalizeInboundContext core
                    (inbound_context Scenario.mailbox Scenario.msgA))
                 (deliver env Scenario.creds Scenario.mailbox Scenario.msgA true)
                 (set_replyBuffer [] (world_after m))).
  assert (Hm : m = (Returned tt, world_after m, trace m)) by (vm_compute; reflexivity).
  assert (Hd : dsp = (Threw (Reason "agent crashed"), world_after dsp, trace dsp))
    by (vm_compute; reflexivity).
  destruct (dispatch_error_is_contained env Scenario.creds Scenario.mailbox true
              Scenario.msgA Scenario.msgB [] w core (world_after m) (trace m)
              (Reason "agent crashed") (world_after dsp) (trace dsp) eq_refl Hm Hd)
    as (H1 & _ & _ & H4 & H5).
  split; [exact H1|].
  destruct (H5 eq_refl) as [(tl & Htl) _].
  fold env w. rewrite (H4 eq_refl).
  destruct (forMessages env Scenario.creds Scenario.mailbox true [Scenario.msgB]
              (world_after dsp)) as [[r w3] t3].
  cbn [trace snd] in Htl |- *. rewrite Htl.
  apply in_or_app. right. right. left. reflexivity.
Defined.

(* ===================================================================== *)
(** ** InboundPoller *)
(* ===================================================================== *)

(** The body of a cycle never throws, and it asks to leave the loop only
    when the signal has fired. *)
Lemma pollCycle_returns env creds mailbox d w :
  let c := pollCycle env creds mailbox d w in
  exists ctl,
    result c = Returned ctl
    /\ (ctl = Break -> aborted env (world_after c) = true).
Proof.
  cbv zeta. unfold pollCycle, try_catch.
  destruct ((messages <- listUnreadMessages env creds mailbox 20 ;;
             forMessages env creds mailbox d messages ;;; ret Continue) w)
    as [[r w1] t1] eqn:E.
  destruct r as [ctl|e].
  - exists ctl. split; [reflexivity|]. intros ->. exfalso.
    revert E. unfold bind.
    destruct (listUnreadMessages env creds mailbox 20 w) as [[r0 w0] t0].
    destruct r0 as [msgs|e0]; [|discriminate].
    destruct (forMessages env creds mailbox d msgs w0) as [[r2 w2] t2].
    destruct r2; cbn; discriminate.
  - unfold bind, get_world.
    destruct (aborted env w1) eqn:Ha; cbn.
    + exists Break. auto.
    + exists Continue. split; [reflexivity | discriminate].
Qed.

(** C7.  At the head of any iteration of the loop, in world [w]: when the
    signal fires at a time [t] that falls inside the sleep that follows the
    cycle, that is after the cycle has ended and before the timer of the
    sleep is due ([timer_delay pollMs] after the end of the cycle: the poll
    interval, or 1 ms when the interval is below 1 or above 2147483647),
    the sleep is rejected at time [t], before the timer would have fired,
    and the loop ends there, whatever number of further iterations it would
    have been allowed: its trace is the trace of the cycle, with nothing
    after it.  Once the loop has stopped, [monitorOutlookEmail] only logs
    that it stopped and returns. *)
Theorem cancel_during_sleep_stops env creds mailbox pollMs d w t :
  env_abortAt env = Some t ->
  let c := pollCycle env creds mailbox d w in
  now w < t ->
  now (world_after c) < t < now (world_after c) + timer_delay pollMs ->
  sleep env pollMs (world_after c) = (Threw abort_reason, set_now t (world_after c), [])
  /\ now (set_now t (world_after c)) < now (world_after c) + timer_delay pollMs
  /\ (forall fuel,
        monitorLoop env (S fuel) creds mailbox pollMs d w
        = (Returned Stopped, set_now t (world_after c), trace c))
  /\ (forall cfg fuel,
        resolveOutlookCredentials (env_process env) (resolveOutlookChannelConfig cfg)
        = Some creds ->
        chain_trim (resolveOutlookChannelConfig cfg) oc_mailbox = Some mailbox ->
        mailbox <> "" ->
        pollMs_of (resolveOutlookChannelConfig cfg) = pollMs ->
        draftOnly_of (resolveOutlookChannelConfig cfg) = d ->
        monitorOutlookEmail env cfg (S fuel) w
        = (Returned Stopped, set_now t (world_after c),
           EvLog Info (LogMonitorStarted mailbox pollMs d)
             :: trace c ++ [EvLog Info LogMonitorStopped])).
Proof.
  intros Ht c Hw [Hlo Hhi].
  assert (Hsleep : sleep env pollMs (world_after c)
                   = (Threw abort_reason, set_now t (world_after c), [])).
  { unfold sleep, aborted. rewrite Ht.
    replace (t <=? now (world_after c)) with false by (symmetry; apply Z.leb_gt; lia).
    replace (t <? now (world_after c) + timer_delay pollMs) with true
      by (symmetry; apply Z.ltb_lt; lia).
    reflexivity. }
  assert (Hloop : forall fuel,
             monitorLoop env (S fuel) creds mailbox pollMs d w
             = (Returned Stopped, set_now t (world_after c), trace c)).
  { intros fuel. cbn [monitorLoop]. unfold bind at 1. cbn [get_world].
    unfold aborted at 1. rewrite Ht.
    replace (t <=? now w) with false by (symmetry; apply Z.leb_gt; lia).
    unfold bind at 1. fold c.
    destruct (pollCycle_returns env creds mailbox d w) as (ctl & Hres & Hbrk).
    fold c in Hres, Hbrk.
    destruct c as [[rc wc] tc]. cbn [result world_after trace fst snd] in *.
    subst rc.
    destruct ctl.
    - unfold bind at 1. unfold try_catch. unfold bind at 1. rewrite Hsleep.
      cbn. rewrite app_nil_r. reflexivity.
    - exfalso. specialize (Hbrk eq_refl). unfold aborted in Hbrk. rewrite Ht in Hbrk.
      apply Z.leb_le in Hbrk. lia. }
  split; [exact Hsleep|]. split; [cbn; lia|]. split; [exact Hloop|].
  intros cfg fuel Hc Hm Hne Hp Hd.
  unfold monitorOutlookEmail. rewrite Hc, Hm, Hp, Hd.
  assert (Htr : JS.truthy (Some mailbox) = true).
  { cbn. destruct (String.eqb_spec mailbox ""); [contradiction | reflexivity]. }
  rewrite Htr. cbn [negb JS.nullish].
  unfold bind at 1. cbn [log emit]. unfold bind at 1. rewrite Hloop.
  cbn. reflexivity.
Qed.

(** The scenario of C7: the cycle ends at 820 ms, the signal fires at
    5000 ms, the timer was set for 15820 ms. *)
Lemma cancel_during_sleep_stops_witness :
  result (monitorOutlookEmail (Scenario.env Scenario.agent (Some 5000))
            (Scenario.cfg None) 5 (Scenario.world 0 3600000)) = Returned Stopped
  /\ now (world_after (monitorOutlookEmail (Scenario.env Scenario.agent (Some 5000))
                         (Scenario.cfg None) 5 (Scenario.world 0 3600000))) = 5000
  /\ fetches (trace (monitorOutlookEmail (Scenario.env Scenario.agent (Some 5000))
                       (Scenario.cfg None) 5 (Scenario.world 0 3600000)))
     = fetches (trace (pollCycle (Scenario.env Scenario.agent (Some 5000)) Scenario.creds
                         Scenario.mailbox true (Scenario.world 0 3600000))).
Proof.
  destruct (cancel_during_sleep_stops (Scenario.env Scenario.agent (Some 5000))
              Scenario.creds Scenario.mailbox 15000 true (Scenario.world 0 3600000) 5000
              eq_refl eq_refl)
    as (_ & _ & _ & H).
  - vm_compute. split; reflexivity.
  - rewrite (H (Scenario.cfg None) 4%nat eq_refl eq_refl); try reflexivity.
    + cbn [result world_after trace fst snd set_now now].
      split; [reflexivity|]. split; [reflexivity|].
      change (EvLog Info (LogMonitorStarted Scenario.mailbox 15000 true) :: ?l ++ ?r)
        with ([EvLog Info (LogMonitorStarted Scenario.mailbox 15000 true)] ++ l ++ r).
      rewrite !fetches_app. cbn [fetches flat_map app]. apply app_nil_r.
    + discriminate.
Defined.

(* ===================================================================== *)
(** ** The reply buffer *)
(* ===================================================================== *)

Lemma in_mail_calls (op : MailOp) (t : list Event) :
  In op (mail_calls t) <-> In (EvCall op) t.
Proof.
  unfold mail_calls. rewrite in_flat_map. split.
  - intros (e & He & Hin). destruct e; try contradiction.
    destruct Hin as [<-|[]]. exact He.
  - intros H. exists (EvCall op). split; [exact H | left; reflexivity].
Qed.

(** The mail calls of [processMessage]: [markAsRead], then one call per
    flush, through the branch chosen by [draftOnly]. *)
Lemma processMessage_calls env creds mailbox msg d w :
  let x := processMessage env creds mailbox msg d w in
  exists pre,
    (pre = [] \/ pre = [OpMarkAsRead mailbox (id msg)])
    /\ mail_calls (trace x)
       = pre ++ map (flush_op d mailbox (id msg)) (flushes [] (deliveries (trace x))).
Proof.
  cbv zeta.
  destruct (env_runtime env) as [core|] eqn:Hr.
  2:{ rewrite processMessage_no_runtime by assumption. exists []. auto. }
  rewrite (processMessage_eq env creds mailbox msg d w core Hr).
  destruct (markAsRead_shape env creds mailbox (id msg) w) as (tf & Ht & Hf & _).
  destruct (markAsRead env creds mailbox (id msg) w) as [[r1 w1] t1].
  cbn [trace snd] in Ht. subst t1. cbv zeta.
  apply only_fetches_quiet in Hf.
  exists [OpMarkAsRead mailbox (id msg)]. split; [auto|].
  destruct r1 as [u|e].
  - pose proof (runHost_calls env creds mailbox msg d
                  (dispatchReplyFromConfig core (dispatchCount w1)
                     (finalizeInboundContext core (inbound_context mailbox msg)))
                  (next_dispatch (set_replyBuffer [] w1))) as Hc.
    cbv zeta in Hc. cbn [replyBuffer next_dispatch set_replyBuffer] in Hc.
    destruct (runHost _ _ _) as [[r2 w2] t2]. cbn [trace snd] in *.
    repeat (progress cbn [mail_calls deliveries flat_map app]
            || rewrite mail_calls_app || rewrite deliveries_app).
    fold (mail_calls tf) (deliveries tf) (mail_calls t2) (deliveries t2).
    rewrite (quiet_mail_calls tf Hf), (quiet_deliveries tf Hf).
    destruct r2; cbn [mail_calls deliveries flat_map app];
      rewrite ?app_nil_r; cbn [app]; rewrite Hc; reflexivity.
  - cbn [trace snd mail_calls deliveries flat_map app].
    fold (mail_calls tf) (deliveries tf).
    rewrite (quiet_mail_calls tf Hf), (quiet_deliveries tf Hf). reflexivity.
Qed.




Lemma flushes_no_text (ds : list (ReplyPayload * string)) :
  (forall p k, In (p, k) ds -> JS.truthy (payload_text p) = false) ->
  flushes [] ds = [].
Proof.
  induction ds as [|[p k] ds IH]; intros H; [reflexivity|].
  cbn [flushes]. unfold pushed. rewrite (H p k) by (left; reflexivity).
  cbn. rewrite andb_false_r. apply IH. intros q kq Hin. apply (H q kq). right. exact Hin.
Qed.

Lemma flushes_nonempty (ds1 ds2 : list (ReplyPayload * string)) p k :
  forall buf,
    is_final k = true ->
    (buf <> [] \/ exists q kq, In (q, kq) (ds1 ++ [(p, k)]) /\ JS.truthy (payload_text q) = true) ->
    flushes buf (ds1 ++ (p, k) :: ds2) <> [].
Proof.
  induction ds1 as [|[q0 k0] ds1 IH]; intros buf Hk H.
  - cbn [app flushes]. rewrite Hk.
    assert (Hne : pushed buf p <> []).
    { destruct H as [H | (q & kq & [Hin|[]] & Hq)].
      - apply pushed_nonempty; assumption.
      - injection Hin as <- <-. apply pushed_truthy; assumption. }
    destruct (pushed buf p); [contradiction|]. cbn. discriminate.
  - cbn [app flushes].
    destruct (is_final k0 && Nat.ltb 0 (List.length (pushed buf q0)))%bool; [discriminate|].
    apply IH; [exact Hk|].
    destruct H as [H | (q & kq & [Hin|Hin] & Hq)].
    + left. apply pushed_nonempty; assumption.
    + injection Hin as <- <-. left. apply pushed_truthy; assumption.
    + right. eauto.
Qed.


Lemma filter_flush_ops d mailbox messageId (l : list string) :
  filter is_flush_op (map (flush_op d mailbox messageId) l)
  = map (flush_op d mailbox messageId) l.
Proof.
  induction l as [|b l IH]; [reflexivity|].
  cbn. destruct d; cbn; rewrite IH; reflexivity.
Qed.

(** The replies and drafts of [processMessage] are its flushes. *)
Lemma processMessage_flush_calls env creds mailbox msg d w :
  let x := processMessage env creds mailbox msg d w in
  filter is_flush_op (mail_calls (trace x))
  = map (flush_op d mailbox (id msg)) (flushes [] (deliveries (trace x))).
Proof.
  cbv zeta.
  destruct (processMessage_calls env creds mailbox msg d w) as (pre & Hpre & ->).
  rewrite filter_app, filter_flush_ops.
  destruct Hpre as [-> | ->]; reflexivity.
Qed.

(** C1.  For the [draftOnly] flag that [monitorOutlookEmail] derives from
    the configuration: when [draftOnly] is unset or true, every flush enters
    [createDraftReply], once, and [replyToMessage] is never entered; when it
    is false, every flush enters [replyToMessage], once, and
    [createDraftReply] is never entered.  In particular a dispatch that has
    delivered a non-empty text by the time it signals final makes the
    call of its branch. *)
Theorem flush_branch_follows_draftOnly env oc creds mailbox msg w :
  let x := processMessage env creds mailbox msg (draftOnly_of oc) w in
  let calls := mail_calls (trace x) in
  let bodies := flushes [] (deliveries (trace x)) in
  ((configured_draftOnly oc = None \/ configured_draftOnly oc = Some true) ->
     (produces_text_and_final (deliveries (trace x)) ->
        exists body, In (OpCreateDraftReply mailbox (id msg) body) calls)
     /\ (forall m i b, ~ In (OpReply m i b) calls)
     /\ filter is_flush_op calls = map (OpCreateDraftReply mailbox (id msg)) bodies)
  /\ (configured_draftOnly oc = Some false ->
     (produces_text_and_final (deliveries (trace x)) ->
        exists body, In (OpReply mailbox (id msg) body) calls)
     /\ (forall m i b, ~ In (OpCreateDraftReply m i b) calls)
     /\ filter is_flush_op calls = map (OpReply mailbox (id msg)) bodies).
Proof.
  intros x calls bodies.
  pose proof (processMessage_flush_calls env creds mailbox msg (draftOnly_of oc) w) as Hf.
  cbv zeta in Hf. fold x calls bodies in Hf.
  assert (Hbody : produces_text_and_final (deliveries (trace x)) ->
                  exists body, In (flush_op (draftOnly_of oc) mailbox (id msg) body) calls).
  { intros (ds1 & p & k & ds2 & Hds & Hk & Hq).
    assert (Hne : bodies <> []).
    { subst bodies. rewrite Hds. apply flushes_nonempty; [exact Hk | right; exact Hq]. }
    destruct bodies as [|body rest]; [contradiction|].
    exists body.
    assert (Hin : In (flush_op (draftOnly_of oc) mailbox (id msg) body)
                     (filter is_flush_op calls))
      by (rewrite Hf; left; reflexivity).
    apply filter_In in Hin. tauto. }
  assert (Hnever : forall op, In op calls -> is_flush_op op = true ->
                   exists body, op = flush_op (draftOnly_of oc) mailbox (id msg) body).
  { intros op Hin Hop.
    assert (Hin' : In op (filter is_flush_op calls)) by (apply filter_In; auto).
    rewrite Hf in Hin'. apply in_map_iff in Hin'. destruct Hin' as (body & <- & _).
    eauto. }
  split.
  - intros Hcfg.
    assert (Hd : draftOnly_of oc = true).
    { unfold draftOnly_of, configured_draftOnly in *.
      destruct oc as [c|]; [|reflexivity].
      destruct Hcfg as [-> | ->]; reflexivity. }
    rewrite Hd in *. cbn [flush_op] in *.
    split; [exact Hbody|]. split; [|exact Hf].
    intros m i b Hin. destruct (Hnever _ Hin eq_refl) as (body & Hb). discriminate.
  - intros Hcfg.
    assert (Hd : draftOnly_of oc = false).
    { unfold draftOnly_of, configured_draftOnly in *.
      destruct oc as [c|]; [|discriminate]. rewrite Hcfg. reflexivity. }
    rewrite Hd in *. cbn [flush_op] in *.
    split; [exact Hbody|]. split; [|exact Hf].
    intros m i b Hin. destruct (Hnever _ Hin eq_refl) as (body & Hb). discriminate.
Qed.

(** The scenario of C1: the agent answers [msgA] with two blocks and a final
    chunk; with [draftOnly] unset a draft is created, with [draftOnly] false
    the reply is sent. *)
Lemma flush_branch_follows_draftOnly_witness :
  (exists body,
     In (OpCreateDraftReply Scenario.mailbox "msg-A" body)
        (mail_calls (trace (processMessage (Scenario.env Scenario.agent None)
                              Scenario.creds Scenario.mailbox Scenario.msgA
                              (draftOnly_of (channels_outlook (Scenario.cfg None)))
                              (Scenario.world 0 3600000)))))
  /\ (exists body,
        In (OpReply Scenario.mailbox "msg-A" body)
           (mail_calls (trace (processMessage (Scenario.env Scenario.agent None)
                                 Scenario.creds Scenario.mailbox Scenario.msgA
                                 (draftOnly_of (channels_outlook (Scenario.cfg (Some false))))
                                 (Scenario.world 0 3600000))))).
Proof.
  assert (Hp : forall d,
             produces_text_and_final
               (deliveries (trace (processMessage (Scenario.env Scenario.agent None)
                                     Scenario.creds Scenario.mailbox Scenario.msgA d
                                     (Scenario.world 0 3600000))))).
  { intros d.
    exists [(mkPayload (Some "Dear Ann,"), "block"); (mkPayload (Some "thanks."), "block")],
           (mkPayload (Some "Bye")), "final", [].
    split; [destruct d; vm_compute; reflexivity|].
    split; [reflexivity|].
    exists (mkPayload (Some "Bye")), "final".
    split; [right; right; left; reflexivity | reflexivity]. }
  split.
  - apply (proj1 (flush_branch_follows_draftOnly (Scenario.env Scenario.agent None)
                    (channels_outlook (Scenario.cfg None)) Scenario.creds Scenario.mailbox
                    Scenario.msgA (Scenario.world 0 3600000)) (or_introl eq_refl)).
    apply Hp.
  - apply (proj2 (flush_branch_follows_draftOnly (Scenario.env Scenario.agent None)
                    (channels_outlook (Scenario.cfg (Some false))) Scenario.creds
                    Scenario.mailbox Scenario.msgA (Scenario.world 0 3600000)) eq_refl).
    apply Hp.
Defined.




(** C10.  When no invocation of the sink during the dispatch carries a
    non-empty text, [processMessage] enters no mail function other than
    [markAsRead]: neither [replyToMessage] nor [createDraftReply] is
    called, whatever kinds the invocations have. *)
Theorem no_text_no_flush env creds mailbox msg d w :
  let x := processMessage env creds mailbox msg d w in
  (forall p k, In (p, k) (deliveries (trace x)) -> JS.truthy (payload_text p) = false) ->
  (forall op, In op (mail_calls (trace x)) -> op = OpMarkAsRead mailbox (id msg))
  /\ filter is_flush_op (mail_calls (trace x)) = []
  /\ (forall m i b, ~ In (EvCall (OpReply m i b)) (trace x))
  /\ (forall m i b, ~ In (EvCall (OpCreateDraftReply m i b)) (trace x)).
Proof.
  intros x H.
  destruct (processMessage_calls env creds mailbox msg d w) as (pre & Hpre & Hc).
  cbv zeta in Hc. fold x in Hc.
  rewrite (flushes_no_text _ H) in Hc. cbn [map] in Hc. rewrite app_nil_r in Hc.
  assert (Hall : forall op, In op (mail_calls (trace x)) ->
                            op = OpMarkAsRead mailbox (id msg)).
  { intros op Hin. rewrite Hc in Hin.
    destruct Hpre as [-> | ->]; [destruct Hin | destruct Hin as [<-|[]]; reflexivity]. }
  split; [exact Hall|]. split.
  - rewrite Hc. destruct Hpre as [-> | ->]; reflexivity.
  - split; intros m i b Hin; apply in_mail_calls in Hin;
      specialize (Hall _ Hin); discriminate.
Qed.

(** The scenario of C10: a tool payload without text, then a final payload
    with an empty text. *)
Lemma no_text_no_flush_witness :
  mail_calls (trace (processMessage (Scenario.env Scenario.silent_agent None)
                       Scenario.creds Scenario.mailbox Scenario.msgA true
                       (Scenario.world 0 3600000)))
  = [OpMarkAsRead Scenario.mailbox "msg-A"]
  /\ filter is_flush_op
       (mail_calls (trace (processMessage (Scenario.env Scenario.silent_agent None)
                             Scenario.creds Scenario.mailbox Scenario.msgA true
                             (Scenario.world 0 3600000)))) = [].
Proof.
  split; [vm_compute; reflexivity|].
  apply (no_text_no_flush (Scenario.env Scenario.silent_agent None) Scenario.creds
           Scenario.mailbox Scenario.msgA true (Scenario.world 0 3600000)).
  intros p k Hin. vm_compute in Hin.
  destruct Hin as [Hin|[Hin|[]]]; injection Hin as <- <-; reflexivity.
Defined.

(** The scenario of C5: the request of the listing and its answer. *)
Lemma listUnreadMessages_requests_ascending_witness :
  exists n req d r,
    In ("$orderby", "receivedDateTime asc") (req_query req)
    /\ env_fetch (Scenario.env Scenario.agent None) n req = FetchResponse d r
    /\ [Scenario.msgA; Scenario.msgB] = value (json r).
Proof.
  destruct (proj2 (listUnreadMessages_requests_ascending (Scenario.env Scenario.agent None)
                     Scenario.creds Scenario.mailbox 20 (Scenario.world 0 3600000))
              [Scenario.msgA; Scenario.msgB] eq_refl)
    as (n & req & d & r & _ & Hq & Hf & _ & Hv & _).
  exists n, req, d, r. auto.
Defined.

(* ===================================================================== *)
(** ** OutboundSender *)
(* ===================================================================== *)

Lemma sendNewMail_run env creds mailbox to subject bodyText w :
  let req tok :=
    mkRequest "POST"
      (GRAPH ++ "/users/" ++ JS.encodeURIComponent mailbox ++ "/sendMail")
      []
      [("Authorization", ("Bearer " ++ tok)%string); ("Content-Type", "application/json")]
      (sendMail_body to subject bodyText) in
  sendNewMail env creds mailbox to subject bodyText w =
  let '(rt, w1, t1) := getGraphAccessToken env creds w in
  match rt with
  | Threw e => (Threw e, w1, EvCall (OpSendNewMail mailbox to subject bodyText) :: t1)
  | Returned tok =>
      let w2 := set_now (now w1 + match env_fetch env (fetchCount w1) (req tok) with
                                  | FetchRejected d _ | FetchResponse d _ => Z.of_N d
                                  end) (next_fetch w1) in
      let t := EvCall (OpSendNewMail mailbox to subject bodyText)
                 :: t1 ++ [EvFetch (req tok)] in
      match env_fetch env (fetchCount w1) (req tok) with
      | FetchRejected _ e => (Threw e, w2, t)
      | FetchResponse _ r =>
          if ok r then (Returned tt, w2, t)
          else (Threw (HttpError "sendMail" (status r) (text r)), w2, t)
      end
  end.
Proof.
  cbv zeta. unfold sendNewMail, graphFetch.
  unfold bind at 1. cbn [emit]. unfold bind at 1. unfold bind at 1.
  destruct (getGraphAccessToken env creds w) as [[rt w1] t1].
  destruct rt as [tok|e]; [|reflexivity].
  unfold fetch.
  destruct (env_fetch env (fetchCount w1) _) as [d e | d r]; [reflexivity|].
  destruct (ok r); cbn; rewrite ?app_nil_r; reflexivity.
Qed.

Lemma resolveOutlookCredentials_with_draftOnly penv dopt cfg :
  resolveOutlookCredentials penv (resolveOutlookChannelConfig (with_draftOnly dopt cfg))
  = resolveOutlookCredentials penv (resolveOutlookChannelConfig cfg)
  /\ chain_trim (resolveOutlookChannelConfig (with_draftOnly dopt cfg)) oc_mailbox
     = chain_trim (resolveOutlookChannelConfig cfg) oc_mailbox.
Proof.
  unfold with_draftOnly, resolveOutlookChannelConfig.
  destruct cfg as [[c|]]; split; reflexivity.
Qed.

(** C9.  [sendText] with credentials that resolve and a mailbox that is
    configured enters [sendNewMail] exactly once, with the subject
    ["Message from OpenClaw"], and no other mail function; once the bearer
    token is at hand exactly one request follows, the POST to [/sendMail]
    with that subject, the recipient and the text.  The reply buffer is not
    touched, and the value of [draftOnly] in the configuration changes
    nothing in the run. *)
Theorem sendText_sends_once env ctx creds mailbox w :
  resolveOutlookCredentials (env_process env) (resolveOutlookChannelConfig (ctx_cfg ctx))
  = Some creds ->
  chain_trim (resolveOutlookChannelConfig (ctx_cfg ctx)) oc_mailbox = Some mailbox ->
  mailbox <> "" ->
  let x := sendText env ctx w in
  mail_calls (trace x)
  = [OpSendNewMail mailbox (ctx_to ctx) "Message from OpenClaw" (ctx_text ctx)]
  /\ (forall tok w1 t1,
        getGraphAccessToken env creds w = (Returned tok, w1, t1) ->
        exists req,
          trace x = EvCall (OpSendNewMail mailbox (ctx_to ctx) "Message from OpenClaw"
                              (ctx_text ctx)) :: t1 ++ [EvFetch req]
          /\ req_method req = "POST"
          /\ req_url req
             = (GRAPH ++ "/users/" ++ JS.encodeURIComponent mailbox ++ "/sendMail")%string
          /\ req_body req
             = sendMail_body (ctx_to ctx) "Message from OpenClaw" (ctx_text ctx))
  /\ replyBuffer (world_after x) = replyBuffer w
  /\ (forall dopt,
        sendText env (mkOutboundContext (with_draftOnly dopt (ctx_cfg ctx))
                        (ctx_to ctx) (ctx_text ctx)) w = x).
Proof.
  intros Hc Hm Hne x.
  assert (Htr : JS.truthy (Some mailbox) = true).
  { cbn. destruct (String.eqb_spec mailbox ""); [contradiction | reflexivity]. }
  assert (Hx : x = (sendNewMail env creds mailbox (ctx_to ctx) default_subject (ctx_text ctx)
                      ;;; ret ("outlook", "sent")) w).
  { subst x. unfold sendText. rewrite Hc, Hm, Htr. reflexivity. }
  assert (Hd : forall dopt,
             sendText env (mkOutboundContext (with_draftOnly dopt (ctx_cfg ctx))
                             (ctx_to ctx) (ctx_text ctx)) w = x).
  { intros dopt. rewrite Hx. unfold sendText. cbn [ctx_cfg ctx_to ctx_text].
    destruct (resolveOutlookCredentials_with_draftOnly (env_process env) dopt (ctx_cfg ctx))
      as [-> ->].
    rewrite Hc, Hm, Htr. reflexivity. }
  assert (Hs : exists r1 w1 tf,
             sendNewMail env creds mailbox (ctx_to ctx) default_subject (ctx_text ctx) w
             = (r1, w1, EvCall (OpSendNewMail mailbox (ctx_to ctx) default_subject
                                  (ctx_text ctx)) :: tf)
             /\ trace x = EvCall (OpSendNewMail mailbox (ctx_to ctx) default_subject
                                    (ctx_text ctx)) :: tf
             /\ world_after x = w1
             /\ only_fetches tf
             /\ replyBuffer w1 = replyBuffer w).
  { destruct (sendNewMail_shape env creds mailbox (ctx_to ctx) default_subject
                (ctx_text ctx) w) as (tf & Ht & Hf & Hb & _).
    rewrite Hx. unfold bind.
    destruct (sendNewMail env creds mailbox (ctx_to ctx) default_subject (ctx_text ctx) w)
      as [[r1 w1] ts].
    cbn [trace world_after fst snd] in Ht, Hb. subst ts.
    exists r1, w1, tf.
    destruct r1; cbn [trace world_after fst snd ret]; cbn [app]; rewrite ?app_nil_r; auto. }
  destruct Hs as (r1 & w1 & tf & Hsend & Htrace & Hworld & Hf & Hb).
  rewrite Htrace, Hworld.
  split; [|split; [|split; [exact Hb | exact Hd]]].
  - cbn [mail_calls flat_map app]. fold (mail_calls tf).
    rewrite (quiet_mail_calls tf (only_fetches_quiet tf Hf)). reflexivity.
  - intros tok w0 t0 Hg.
    pose proof (sendNewMail_run env creds mailbox (ctx_to ctx) default_subject
                  (ctx_text ctx) w) as Hrun.
    cbv zeta in Hrun. rewrite Hsend, Hg in Hrun.
    match type of Hrun with context [env_fetch env ?n ?q] =>
      exists q; destruct (env_fetch env n q) as [dl err | dl r];
        [|destruct (ok r)]; injection Hrun as _ _ ->; repeat split; reflexivity
    end.
Qed.

(** The scenario of C9: [send("x@y.com", "hello")] in draft-only mode. *)
Lemma sendText_sends_once_witness :
  mail_calls (trace (sendText (Scenario.env Scenario.agent None)
                       (mkOutboundContext (Scenario.cfg (Some true)) "x@y.com" "hello")
                       (Scenario.world 0 0)))
  = [OpSendNewMail Scenario.mailbox "x@y.com" "Message from OpenClaw" "hello"]
  /\ sendText (Scenario.env Scenario.agent None)
       (mkOutboundContext (with_draftOnly (Some false) (Scenario.cfg (Some true)))
          "x@y.com" "hello") (Scenario.world 0 0)
     = sendText (Scenario.env Scenario.agent None)
         (mkOutboundContext (Scenario.cfg (Some true)) "x@y.com" "hello")
         (Scenario.world 0 0).
Proof.
  destruct (sendText_sends_once (Scenario.env Scenario.agent None)
              (mkOutboundContext (Scenario.cfg (Some true)) "x@y.com" "hello")
              Scenario.creds Scenario.mailbox (Scenario.world 0 0) eq_refl eq_refl)
    as (H1 & _ & _ & H4).
  - discriminate.
  - split; [exact H1 | exact (H4 (Some false))].
Defined.

(* ===================================================================== *)
(** ** Credentials and the token cache, further properties *)
(* ===================================================================== *)

Lemma truthy_nullish (a : option string) :
  JS.truthy a = true -> a = Some (JS.nullish a "") /\ JS.nullish a "" <> "".
Proof.
  destruct a as [s|]; cbn; [|discriminate].
  destruct (String.eqb_spec s ""); [discriminate|]. auto.
Qed.

Lemma or_opt_cases (a b : option string) :
  (JS.truthy a = true /\ JS.or_opt a b = a)
  \/ (JS.truthy a = false /\ JS.or_opt a b = b).
Proof. unfold JS.or_opt. destruct (JS.truthy a); auto. Qed.

(** The three fields of resolved credentials, each as the code picks it. *)
Lemma resolveOutlookCredentials_fields penv oc c :
  resolveOutlookCredentials penv oc = Some c ->
  JS.or_opt (chain_trim oc oc_appId) (option_map JS.trim (OUTLOOK_APP_ID penv))
  = Some (appId c)
  /\ JS.or_opt (chain_trim oc oc_appPassword) (option_map JS.trim (OUTLOOK_APP_SECRET penv))
     = Some (appSecret c)
  /\ JS.or_opt (chain_trim oc oc_tenantId) (option_map JS.trim (OUTLOOK_TENANT_ID penv))
     = Some (tenantId c)
  /\ appId c <> "" /\ appSecret c <> "" /\ tenantId c <> "".
Proof.
  unfold resolveOutlookCredentials.
  set (a := JS.or_opt (chain_trim oc oc_appId) _).
  set (s := JS.or_opt (chain_trim oc oc_appPassword) _).
  set (t := JS.or_opt (chain_trim oc oc_tenantId) _).
  destruct (JS.truthy a) eqn:Ha; [|discriminate].
  destruct (JS.truthy s) eqn:Hs; [|discriminate].
  destruct (JS.truthy t) eqn:Ht; [|discriminate].
  cbn. intros [= <-]. cbn.
  destruct (truthy_nullish a Ha) as [Ea Na].
  destruct (truthy_nullish s Hs) as [Es Ns].
  destruct (truthy_nullish t Ht) as [Et Nt].
  repeat split; assumption.
Qed.

(** X1.  Credentials that resolve are complete: none of the application
    id, the secret and the tenant id is the empty string, whatever the
    configuration and the environment hold. *)
Theorem resolveOutlookCredentials_nonempty penv oc c :
  resolveOutlookCredentials penv oc = Some c ->
  appId c <> "" /\ appSecret c <> "" /\ tenantId c <> "".
Proof.
  intros H. apply resolveOutlookCredentials_fields in H. tauto.
Qed.

(** X2.  For each of the three fields of resolved credentials: a value of
    the channel configuration that is not blank once trimmed is taken, and
    the environment variable is ignored; a value that is absent or blank
    falls back to the trimmed environment variable. *)
Theorem resolveOutlookCredentials_precedence penv oc c :
  resolveOutlookCredentials penv oc = Some c ->
  (forall s, chain_trim oc oc_appId = Some s -> s <> "" -> appId c = s)
  /\ (forall s, chain_trim oc oc_appPassword = Some s -> s <> "" -> appSecret c = s)
  /\ (forall s, chain_trim oc oc_tenantId = Some s -> s <> "" -> tenantId c = s)
  /\ (JS.truthy (chain_trim oc oc_appId) = false ->
      option_map JS.trim (OUTLOOK_APP_ID penv) = Some (appId c))
  /\ (JS.truthy (chain_trim oc oc_appPassword) = false ->
      option_map JS.trim (OUTLOOK_APP_SECRET penv) = Some (appSecret c))
  /\ (JS.truthy (chain_trim oc oc_tenantId) = false ->
      option_map JS.trim (OUTLOOK_TENANT_ID penv) = Some (tenantId c)).
Proof.
  intros H. apply resolveOutlookCredentials_fields in H.
  destruct H as (Ha & Hs & Ht & _).
  assert (Hcfg : forall a b v s, JS.or_opt a b = Some v -> a = Some s -> s <> "" -> v = s).
  { intros a b v s Hor -> Hne. unfold JS.or_opt in Hor. cbn in Hor.
    destruct (String.eqb_spec s ""); [contradiction|]. cbn in Hor. congruence. }
  assert (Henv : forall a b v, JS.or_opt a b = Some v -> JS.truthy a = false -> b = Some v).
  { intros a b v Hor Hf. unfold JS.or_opt in Hor. rewrite Hf in Hor. exact Hor. }
  repeat split; eauto.
Qed.

(** The scenario of X1 and X2: a blank application id in the configuration,
    and environment variables with surrounding blanks. *)
Lemma resolveOutlookCredentials_nonempty_witness :
  appId (mkCreds "env-app" "cfg-secret" "env-tenant") <> "".
Proof.
  apply (resolveOutlookCredentials_nonempty
           (mkProcessEnv (Some " env-app ") (Some "env-secret") (Some "env-tenant"))
           (Some (mkChannelConfig None (Some "   ") (Some " cfg-secret") None None None None))
           (mkCreds "env-app" "cfg-secret" "env-tenant") eq_refl).
Defined.

Lemma resolveOutlookCredentials_precedence_witness :
  appSecret (mkCreds "env-app" "cfg-secret" "env-tenant") = "cfg-secret"
  /\ option_map JS.trim (Some " env-app ") = Some "env-app".
Proof.
  destruct (resolveOutlookCredentials_precedence
              (mkProcessEnv (Some " env-app ") (Some "env-secret") (Some "env-tenant"))
              (Some (mkChannelConfig None (Some "   ") (Some " cfg-secret") None None None
                       None))
              (mkCreds "env-app" "cfg-secret" "env-tenant") eq_refl)
    as (_ & Hs & _ & Ha & _).
  split.
  - apply (Hs "cfg-secret" eq_refl). discriminate.
  - apply Ha. reflexivity.
Defined.

(** X3.  When no fresh token is cached and the token request fails, by a
    rejected fetch or by a response that is not ok, [getGraphAccessToken]
    throws after that single request and leaves the cache as it was; a
    response that is not ok is reported with its status and body. *)
Theorem getGraphAccessToken_failure_keeps_cache env creds w :
  cache_fresh (tokenCache w) (now w) = false ->
  let x := getGraphAccessToken env creds w in
  trace x = [EvFetch (token_request creds)]
  /\ (forall d e,
        env_fetch env (fetchCount w) (token_request creds) = FetchRejected d e ->
        result x = Threw e /\ tokenCache (world_after x) = tokenCache w)
  /\ (forall d r,
        env_fetch env (fetchCount w) (token_request creds) = FetchResponse d r ->
        ok r = false ->
        result x = Threw (HttpError "token request" (status r) (text r))
        /\ tokenCache (world_after x) = tokenCache w).
Proof.
  intros Hc x. subst x. unfold getGraphAccessToken, bind, get_world. rewrite Hc.
  unfold fetch.
  destruct (env_fetch env (fetchCount w) (token_request creds)) as [d e | d r].
  - cbn. split; [reflexivity|]. split.
    + intros d' e' [= _ <-]. auto.
    + intros d' r' H. discriminate.
  - destruct (ok r) eqn:Hok; cbn.
    + split; [reflexivity|]. split; [intros ? ? ?; discriminate|].
      intros d' r' [= _ <-] Hno. congruence.
    + split; [reflexivity|]. split; [intros ? ? ?; discriminate|].
      intros d' r' [= _ <-] _. auto.
Qed.

(** X4.  After a refresh that succeeded, the cache is shared by every
    caller, whatever credentials it passes: the next call is served from the
    cache, without a request, exactly when the lifetime granted, counted
    from the moment before the token request was sent, exceeds the time the
    request took by more than 60 s; otherwise it requests a token again. *)
Theorem getGraphAccessToken_refresh_then_reuse env creds creds' w d r :
  cache_fresh (tokenCache w) (now w) = false ->
  env_fetch env (fetchCount w) (token_request creds) = FetchResponse d r ->
  ok r = true ->
  let w1 := world_after (getGraphAccessToken env creds w) in
  now w1 = now w + Z.of_N d
  /\ (expires_in (json r) * 1000 > Z.of_N d + 60000 ->
      getGraphAccessToken env creds' w1 = (Returned (access_token (json r)), w1, []))
  /\ (expires_in (json r) * 1000 <= Z.of_N d + 60000 ->
      trace (getGraphAccessToken env creds' w1) = [EvFetch (token_request creds')]).
Proof.
  intros Hc Hf Hok w1.
  assert (Hw1 : w1 = set_tokenCache
                       (Some (mkCachedToken (access_token (json r))
                                (now w + expires_in (json r) * 1000)))
                       (set_now (now w + Z.of_N d) (next_fetch w))).
  { subst w1. unfold getGraphAccessToken, bind, get_world. rewrite Hc.
    unfold fetch. rewrite Hf, Hok. reflexivity. }
  split; [rewrite Hw1; reflexivity|].
  split.
  - intros Hgt. unfold getGraphAccessToken, bind, get_world.
    replace (cache_fresh (tokenCache w1) (now w1)) with true.
    + rewrite Hw1. reflexivity.
    + rewrite Hw1. cbn. symmetry. apply Z.gtb_lt. lia.
  - intros Hle. unfold getGraphAccessToken, bind, get_world.
    replace (cache_fresh (tokenCache w1) (now w1)) with false.
    + unfold fetch.
      destruct (env_fetch env (fetchCount w1) (token_request creds')) as [d' e'|d' r'];
        [reflexivity|]. destruct (ok r'); reflexivity.
    + rewrite Hw1. cbn. symmetry. rewrite Z.gtb_ltb. apply Z.ltb_ge. lia.
Qed.

(** The scenario of X3: the token endpoint answers 401. *)
Lemma getGraphAccessToken_failure_keeps_cache_witness :
  result (getGraphAccessToken
            (Cases.env Cases.transport_denying_token None None)
            Scenario.creds (Scenario.world 0 0))
  = Threw (HttpError "token request" 401 "invalid_client")
  /\ tokenCache (world_after (getGraphAccessToken
                   (Cases.env Cases.transport_denying_token None None)
                   Scenario.creds (Scenario.world 0 0)))
     = Some (mkCachedToken "tok-old" 0).
Proof.
  apply (proj2 (proj2 (getGraphAccessToken_failure_keeps_cache
                         (Cases.env Cases.transport_denying_token None None)
                         Scenario.creds (Scenario.world 0 0) eq_refl))
           50%N Cases.denied eq_refl eq_refl).
Defined.

(** The scenario of X4: a token granted for one hour by a request that took
    120 ms is reused by a caller with other credentials. *)
Lemma getGraphAccessToken_refresh_then_reuse_witness :
  result (getGraphAccessToken (Scenario.env Scenario.agent None)
            (mkCreds "other-app" "other-secret" "other-tenant")
            (world_after (getGraphAccessToken (Scenario.env Scenario.agent None)
                            Scenario.creds (Scenario.world 0 0))))
  = Returned "tok-new".
Proof.
  rewrite (proj1 (proj2 (getGraphAccessToken_refresh_then_reuse
                           (Scenario.env Scenario.agent None) Scenario.creds
                           (mkCreds "other-app" "other-secret" "other-tenant")
                           (Scenario.world 0 0) 120%N
                           (mkResponse true 200 "" (mkJsonBody "tok-new" 3600 [] ""))
                           eq_refl eq_refl eq_refl)) eq_refl).
  reflexivity.
Defined.

(* ===================================================================== *)
(** ** The functions of graph.ts, further properties *)
(* ===================================================================== *)

(** The common shape of the five functions of [graph.ts]. *)
Lemma graph_call_run {A} env creds op path query method body what (f : JsonBody -> A) w :
  let req tok :=
    mkRequest method (GRAPH ++ path) query
      [("Authorization", ("Bearer " ++ tok)%string); ("Content-Type", "application/json")]
      body in
  (emit (EvCall op) ;;;
   res <- graphFetch env creds path query method body ;;
   if negb (ok res) then throw (HttpError what (status res) (text res))
   else ret (f (json res))) w =
  let '(rt, w1, t1) := getGraphAccessToken env creds w in
  match rt with
  | Threw e => (Threw e, w1, EvCall op :: t1)
  | Returned tok =>
      let w2 := set_now (now w1 + match env_fetch env (fetchCount w1) (req tok) with
                                  | FetchRejected d _ | FetchResponse d _ => Z.of_N d
                                  end) (next_fetch w1) in
      let t := EvCall op :: t1 ++ [EvFetch (req tok)] in
      match env_fetch env (fetchCount w1) (req tok) with
      | FetchRejected _ e => (Threw e, w2, t)
      | FetchResponse _ r =>
          if ok r then (Returned (f (json r)), w2, t)
          else (Threw (HttpError what (status r) (text r)), w2, t)
      end
  end.
Proof.
  cbv zeta. unfold graphFetch.
  unfold bind at 1. cbn [emit]. unfold bind at 1. unfold bind at 1.
  destruct (getGraphAccessToken env creds w) as [[rt w1] t1].
  destruct rt as [tok|e]; [|reflexivity].
  unfold fetch.
  destruct (env_fetch env (fetchCount w1) _) as [d e | d r]; [reflexivity|].
  destruct (ok r); cbn; rewrite ?app_nil_r; reflexivity.
Qed.

(** Any function of [graph.ts]: the token first, then one request under
    [/users/<mailbox>], and an outcome read off the response. *)
Lemma perform_run env creds op w :
  exists (req : string -> Request),
    (forall tok,
       req_headers (req tok)
       = [("Authorization", ("Bearer " ++ tok)%string); ("Content-Type", "application/json")]
       /\ exists suffix,
            req_url (req tok)
            = (GRAPH ++ "/users/" ++ JS.encodeURIComponent (op_mailbox op) ++ suffix)%string)
    /\ perform env creds op w =
       let '(rt, w1, t1) := getGraphAccessToken env creds w in
       match rt with
       | Threw e => (Threw e, w1, EvCall op :: t1)
       | Returned tok =>
           let w2 := set_now (now w1 + match env_fetch env (fetchCount w1) (req tok) with
                                       | FetchRejected d _ | FetchResponse d _ => Z.of_N d
                                       end) (next_fetch w1) in
           let t := EvCall op :: t1 ++ [EvFetch (req tok)] in
           match env_fetch env (fetchCount w1) (req tok) with
           | FetchRejected _ e => (Threw e, w2, t)
           | FetchResponse _ r =>
               if ok r then (Returned tt, w2, t)
               else (Threw (HttpError (op_label op) (status r) (text r)), w2, t)
           end
       end.
Proof.
  destruct op as [mailbox top | mailbox mid | mailbox mid txt | mailbox mid txt
                 | mailbox to subj txt]; cbn [perform op_mailbox op_label].
  - exists (fun tok => mkRequest "GET" (GRAPH ++ "/users/" ++ JS.encodeURIComponent mailbox ++ "/mailfolders/inbox/messages")%string (listUnread_params top) [("Authorization", ("Bearer " ++ tok)%string); ("Content-Type", "application/json")] BodyNone). split.
    + intros tok. split; [reflexivity|]. eexists. reflexivity.
    + unfold bind at 1. unfold listUnreadMessages.
      rewrite (graph_call_run env creds (OpListUnread mailbox top) _ _ _ _ _ value w).
      cbv zeta. destruct (getGraphAccessToken env creds w) as [[rt w1] t1].
      destruct rt as [tok|e]; [|reflexivity].
      destruct (env_fetch env (fetchCount w1) _) as [d e | d r]; [reflexivity|].
      destruct (ok r); cbn; rewrite ?app_nil_r; reflexivity.
  - exists (fun tok => mkRequest "PATCH" (GRAPH ++ "/users/" ++ JS.encodeURIComponent mailbox ++ "/messages/" ++ mid)%string [] [("Authorization", ("Bearer " ++ tok)%string); ("Content-Type", "application/json")] (BodyJson (JObj [("isRead", JBool true)]))). split.
    + intros tok. split; [reflexivity|]. eexists. reflexivity.
    + unfold markAsRead.
      rewrite (graph_call_run env creds (OpMarkAsRead mailbox mid) _ _ _ _ _
                 (fun _ => tt) w).
      reflexivity.
  - exists (fun tok => mkRequest "POST" (GRAPH ++ "/users/" ++ JS.encodeURIComponent mailbox ++ "/messages/" ++ mid ++ "/reply")%string [] [("Authorization", ("Bearer " ++ tok)%string); ("Content-Type", "application/json")] (reply_body txt)). split.
    + intros tok. split; [reflexivity|]. eexists. reflexivity.
    + unfold replyToMessage.
      rewrite (graph_call_run env creds (OpReply mailbox mid txt) _ _ _ _ _
                 (fun _ => tt) w).
      reflexivity.
  - exists (fun tok => mkRequest "POST" (GRAPH ++ "/users/" ++ JS.encodeURIComponent mailbox ++ "/messages/" ++ mid ++ "/createReply")%string [] [("Authorization", ("Bearer " ++ tok)%string); ("Content-Type", "application/json")] (reply_body txt)). split.
    + intros tok. split; [reflexivity|]. eexists. reflexivity.
    + unfold bind at 1. unfold createDraftReply.
      rewrite (graph_call_run env creds (OpCreateDraftReply mailbox mid txt) _ _ _ _ _
                 draft_id w).
      cbv zeta. destruct (getGraphAccessToken env creds w) as [[rt w1] t1].
      destruct rt as [tok|e]; [|reflexivity].
      destruct (env_fetch env (fetchCount w1) _) as [d e | d r]; [reflexivity|].
      destruct (ok r); cbn; rewrite ?app_nil_r; reflexivity.
  - exists (fun tok => mkRequest "POST" (GRAPH ++ "/users/" ++ JS.encodeURIComponent mailbox ++ "/sendMail")%string [] [("Authorization", ("Bearer " ++ tok)%string); ("Content-Type", "application/json")] (sendMail_body to subj txt)). split.
    + intros tok. split; [reflexivity|]. eexists. reflexivity.
    + unfold sendNewMail.
      rewrite (graph_call_run env creds (OpSendNewMail mailbox to subj txt) _ _ _ _ _
                 (fun _ => tt) w).
      reflexivity.
Qed.

Lemma getGraphAccessToken_fetches env creds w :
  let x := getGraphAccessToken env creds w in
  (fetches (trace x) = [] /\ exists tok, result x = Returned tok)
  \/ fetches (trace x) = [token_request creds].
Proof.
  cbv zeta. unfold getGraphAccessToken, bind, get_world.
  destruct (cache_fresh (tokenCache w) (now w)).
  - left. cbn. eauto.
  - right. unfold fetch.
    destruct (env_fetch env (fetchCount w) (token_request creds)) as [d e|d r];
      [reflexivity|]. destruct (ok r); reflexivity.
Qed.

(** X5.  No function of [graph.ts] talks to the mail provider without a
    token: when [getGraphAccessToken] throws, the function throws the same
    error, and the only request made is the one to the token endpoint. *)
Theorem graph_call_needs_token env creds op w e w1 t1 :
  getGraphAccessToken env creds w = (Threw e, w1, t1) ->
  perform env creds op w = (Threw e, w1, EvCall op :: t1)
  /\ fetches (trace (perform env creds op w)) = [token_request creds].
Proof.
  intros Hg.
  destruct (perform_run env creds op w) as (req & _ & Hrun).
  rewrite Hg in Hrun. rewrite Hrun. split; [reflexivity|].
  pose proof (getGraphAccessToken_fetches env creds w) as Hf. cbv zeta in Hf.
  rewrite Hg in Hf. cbn [trace result fst snd] in Hf.
  destruct Hf as [[_ [tok Htok]] | Hf]; [discriminate|].
  cbn [trace snd fetches flat_map app]. exact Hf.
Qed.

(** X6.  With the token at hand, every function of [graph.ts] sends exactly
    one request, whatever the answer (nothing is retried): it goes to a path
    under [/users/<encoded mailbox>] of the Graph endpoint and carries the
    token as bearer.  With the token request there are at most two requests
    per call. *)
Theorem graph_call_sends_one_request env creds op w tok w1 t1 :
  getGraphAccessToken env creds w = (Returned tok, w1, t1) ->
  let x := perform env creds op w in
  exists req suffix,
    trace x = EvCall op :: t1 ++ [EvFetch req]
    /\ fetches (trace x) = fetches t1 ++ [req]
    /\ In ("Authorization", ("Bearer " ++ tok)%string) (req_headers req)
    /\ req_url req
       = (GRAPH ++ "/users/" ++ JS.encodeURIComponent (op_mailbox op) ++ suffix)%string
    /\ fetchCount (world_after x) = S (fetchCount w1)
    /\ (List.length (fetches (trace x)) <= 2)%nat.
Proof.
  intros Hg x. subst x.
  destruct (perform_run env creds op w) as (req & Hreq & Hrun).
  rewrite Hg in Hrun. cbv zeta in Hrun.
  destruct (Hreq tok) as (Hh & suffix & Hu).
  exists (req tok), suffix.
  assert (Htr : trace (perform env creds op w) = EvCall op :: t1 ++ [EvFetch (req tok)]
                /\ fetchCount (world_after (perform env creds op w)) = S (fetchCount w1)).
  { rewrite Hrun.
    destruct (env_fetch env (fetchCount w1) (req tok)) as [d e|d r];
      [|destruct (ok r)]; split; reflexivity. }
  destruct Htr as [Htr Hc]. rewrite Htr.
  assert (Hf : fetches (EvCall op :: t1 ++ [EvFetch (req tok)]) = fetches t1 ++ [req tok]).
  { change (fetches (t1 ++ [EvFetch (req tok)]) = fetches t1 ++ [req tok]).
    rewrite fetches_app. reflexivity. }
  split; [reflexivity|]. split; [exact Hf|].
  split; [rewrite Hh; left; reflexivity|]. split; [exact Hu|]. split; [exact Hc|].
  rewrite Hf, length_app. cbn [List.length].
  pose proof (getGraphAccessToken_fetches env creds w) as Ht. cbv zeta in Ht.
  rewrite Hg in Ht. cbn [trace snd] in Ht.
  destruct Ht as [[-> _] | ->]; cbn; lia.
Qed.

(** X7.  With the token at hand, the outcome of every function of
    [graph.ts] follows the answer to its one request: a rejected fetch is
    thrown as it is; a response that is not ok is thrown as an error naming
    the function and carrying the status and the body of the response; only
    a response that is ok makes the function return. *)
Theorem graph_call_outcome env creds op w tok w1 t1 :
  getGraphAccessToken env creds w = (Returned tok, w1, t1) ->
  let x := perform env creds op w in
  exists req,
    fetches (trace x) = fetches t1 ++ [req]
    /\ (forall d e, env_fetch env (fetchCount w1) req = FetchRejected d e ->
          result x = Threw e)
    /\ (forall d r, env_fetch env (fetchCount w1) req = FetchResponse d r ->
          ok r = false ->
          result x = Threw (HttpError (op_label op) (status r) (text r)))
    /\ (forall d r, env_fetch env (fetchCount w1) req = FetchResponse d r ->
          ok r = true ->
          result x = Returned tt).
Proof.
  intros Hg x. subst x.
  destruct (perform_run env creds op w) as (req & _ & Hrun).
  rewrite Hg in Hrun. cbv zeta in Hrun.
  exists (req tok). rewrite Hrun.
  destruct (env_fetch env (fetchCount w1) (req tok)) as [d e|d r] eqn:Ef.
  - cbn [trace result fst snd].
    split; [change (fetches (t1 ++ [EvFetch (req tok)]) = fetches t1 ++ [req tok]);
            rewrite fetches_app; reflexivity|].
    split; [intros d' e' [= _ <-]; reflexivity|].
    split; intros d' r' H; discriminate.
  - destruct (ok r) eqn:Hok; cbn [trace result fst snd];
      (split; [change (fetches (t1 ++ [EvFetch (req tok)]) = fetches t1 ++ [req tok]);
               rewrite fetches_app; reflexivity|]);
      (split; [intros d' e' H; discriminate|]);
      split; intros d' r' [= _ <-] H; congruence.
Qed.

(** The scenario of X5: a reply attempted while the token endpoint answers
    401. *)
Lemma graph_call_needs_token_witness :
  fetches (trace (perform (Cases.env Cases.transport_denying_token None None)
                    Scenario.creds (OpReply Scenario.mailbox "msg-A" "hi")
                    (Scenario.world 0 0)))
  = [token_request Scenario.creds].
Proof.
  pose (g := getGraphAccessToken
               (Cases.env Cases.transport_denying_token None None)
               Scenario.creds (Scenario.world 0 0)).
  apply (proj2 (graph_call_needs_token
                  (Cases.env Cases.transport_denying_token None None)
                  Scenario.creds (OpReply Scenario.mailbox "msg-A" "hi")
                  (Scenario.world 0 0)
                  (HttpError "token request" 401 "invalid_client")
                  (world_after g) (trace g) eq_refl)).
Defined.

(** The scenario of X6: a draft created with a cached token. *)
Lemma graph_call_sends_one_request_witness :
  (List.length
     (fetches (trace (perform (Scenario.env Scenario.agent None) Scenario.creds
                        (OpCreateDraftReply Scenario.mailbox "msg-A" "hi")
                        (Scenario.world 0 3600000)))) <= 2)%nat.
Proof.
  destruct (graph_call_sends_one_request (Scenario.env Scenario.agent None) Scenario.creds
              (OpCreateDraftReply Scenario.mailbox "msg-A" "hi")
              (Scenario.world 0 3600000) "tok-old" (Scenario.world 0 3600000) [] eq_refl)
    as (req & suffix & _ & _ & _ & _ & _ & H).
  exact H.
Defined.

(** The scenario of X7: the provider answers the draft request with 503. *)
Lemma graph_call_outcome_witness :
  result (perform (Cases.env Cases.transport_failing_graph None None)
            Scenario.creds (OpCreateDraftReply Scenario.mailbox "msg-A" "hi")
            (Scenario.world 0 3600000))
  = Threw (HttpError "createReply" 503 "service unavailable").
Proof.
  destruct (graph_call_outcome
              (Cases.env Cases.transport_failing_graph None None)
              Scenario.creds (OpCreateDraftReply Scenario.mailbox "msg-A" "hi")
              (Scenario.world 0 3600000) "tok-old" (Scenario.world 0 3600000) [] eq_refl)
    as (req & Hf & _ & Hbad & _).
  vm_compute in Hf. injection Hf as <-.
  apply (Hbad 30%N Cases.unavailable); reflexivity.
Defined.

(* ===================================================================== *)
(** ** The reply sink, further properties *)
(* ===================================================================== *)

(** X8.  One invocation of the reply sink.  An invocation that is not of
    kind final only appends its text, if it has one, to the buffer: it makes
    no call and never throws.  After an invocation of kind final the buffer
    is empty, also when the call to the mail provider threw, so text whose
    flush failed is not kept for a later flush.  An invocation of kind final
    that finds nothing to send makes no call. *)
Theorem deliver_buffer_discipline env creds mailbox msg d p kind w :
  let x := deliver env creds mailbox msg d p kind w in
  (is_final kind = false ->
     x = (Returned tt, set_replyBuffer (pushed (replyBuffer w) p) w, []))
  /\ (is_final kind = true -> replyBuffer (world_after x) = [])
  /\ (is_final kind = true -> pushed (replyBuffer w) p = [] ->
      result x = Returned tt /\ trace x = [])
  /\ (is_final kind = true -> pushed (replyBuffer w) p <> [] ->
      mail_calls (trace x)
      = [flush_op d mailbox (id msg) (JS.join blank_line (pushed (replyBuffer w) p))]).
Proof.
  intros x. subst x.
  pose proof (deliver_run env creds mailbox msg d p kind w) as H. cbv zeta in H.
  split; [|split; [|split]].
  - intros Hk. rewrite Hk in H. exact H.
  - intros Hk. rewrite Hk in H. cbn [andb] in H.
    destruct (pushed (replyBuffer w) p) as [|c l] eqn:E.
    + cbn in H. rewrite H. reflexivity.
    + cbn in H. destruct H as (t & _ & _ & Hb & _). exact Hb.
  - intros Hk He. rewrite Hk, He in H. cbn in H. rewrite H. split; reflexivity.
  - intros Hk Hne. rewrite Hk in H. cbn [andb] in H.
    destruct (pushed (replyBuffer w) p) as [|c l] eqn:E; [contradiction|].
    cbn [List.length Nat.ltb Nat.leb] in H.
    destruct H as (t & -> & Hq & _).
    cbn [mail_calls flat_map app]. fold (mail_calls t).
    rewrite (quiet_mail_calls t Hq). reflexivity.
Qed.

(** The scenario of X8: the draft request fails with 503 and the buffer is
    empty afterwards. *)
Lemma deliver_buffer_discipline_witness :
  replyBuffer (world_after
    (deliver (Cases.env Cases.transport_failing_graph None None)
       Scenario.creds Scenario.mailbox Scenario.msgA true (mkPayload (Some "Bye")) "final"
       (set_replyBuffer ["Dear Ann,"] (Scenario.world 0 3600000)))) = []
  /\ result (deliver (Cases.env Cases.transport_failing_graph None None)
       Scenario.creds Scenario.mailbox Scenario.msgA true (mkPayload (Some "Bye")) "final"
       (set_replyBuffer ["Dear Ann,"] (Scenario.world 0 3600000)))
     = Threw (HttpError "createReply" 503 "service unavailable").
Proof.
  split; [|vm_compute; reflexivity].
  apply (proj1 (proj2 (deliver_buffer_discipline
                         (Cases.env Cases.transport_failing_graph None None)
                         Scenario.creds Scenario.mailbox Scenario.msgA true
                         (mkPayload (Some "Bye")) "final"
                         (set_replyBuffer ["Dear Ann,"] (Scenario.world 0 3600000))))
           eq_refl).
Defined.

Lemma flushes_after_final (ds1 ds2 : list (ReplyPayload * string)) p k :
  forall buf,
    is_final k = true ->
    flushes buf (ds1 ++ (p, k) :: ds2)
    = flushes buf (ds1 ++ [(p, k)]) ++ flushes [] ds2.
Proof.
  induction ds1 as [|[q kq] ds1 IH]; intros buf Hk.
  - cbn [app flushes]. rewrite Hk. cbn [andb].
    destruct (pushed buf p) as [|c l]; reflexivity.
  - cbn [app flushes].
    destruct (is_final kq && Nat.ltb 0 (List.length (pushed buf q)))%bool.
    + cbn [app]. rewrite IH by assumption. reflexivity.
    + apply IH. assumption.
Qed.

(** X9.  Every invocation of kind final closes the buffer: what the
    dispatch delivers after it is flushed on its own, starting from an empty
    buffer, and is never joined with text delivered before it.  So two final
    chunks with texts give two separate replies (or drafts), in order. *)
Theorem text_after_final_starts_new_reply env creds mailbox msg d w :
  let x := processMessage env creds mailbox msg d w in
  (forall ds1 p k ds2,
     deliveries (trace x) = ds1 ++ (p, k) :: ds2 ->
     is_final k = true ->
     filter is_flush_op (mail_calls (trace x))
     = map (flush_op d mailbox (id msg)) (flushes [] (ds1 ++ [(p, k)]))
       ++ map (flush_op d mailbox (id msg)) (flushes [] ds2))
  /\ (forall a b ka kb,
        deliveries (trace x) = [(mkPayload (Some a), ka); (mkPayload (Some b), kb)] ->
        is_final ka = true -> is_final kb = true -> a <> "" -> b <> "" ->
        filter is_flush_op (mail_calls (trace x))
        = [flush_op d mailbox (id msg) a; flush_op d mailbox (id msg) b]).
Proof.
  intros x. subst x. split.
  - intros ds1 p k ds2 Hds Hk.
    rewrite processMessage_flush_calls, Hds, (flushes_after_final ds1 ds2 p k [] Hk).
    apply map_app.
  - intros a b ka kb Hds Hka Hkb Ha Hb.
    rewrite processMessage_flush_calls, Hds.
    cbn [flushes]. unfold pushed. cbn [payload_text JS.truthy JS.nullish].
    destruct (String.eqb_spec a ""); [contradiction|].
    destruct (String.eqb_spec b ""); [contradiction|].
    rewrite Hka, Hkb. reflexivity.
Qed.

(** The scenario of X9: an agent that sends two final chunks. *)
Lemma text_after_final_starts_new_reply_witness :
  filter is_flush_op
    (mail_calls (trace (processMessage
                          (Cases.env Scenario.transport None
                             (Some (Scenario.runtime Cases.two_finals)))
                          Scenario.creds Scenario.mailbox Scenario.msgA false
                          (Scenario.world 0 3600000))))
  = [OpReply Scenario.mailbox "msg-A" "first"; OpReply Scenario.mailbox "msg-A" "second"].
Proof.
  apply (proj2 (text_after_final_starts_new_reply
                  (Cases.env Scenario.transport None
                     (Some (Scenario.runtime Cases.two_finals)))
                  Scenario.creds Scenario.mailbox Scenario.msgA false
                  (Scenario.world 0 3600000))
           "first" "second" "final" "final");
    try reflexivity; try discriminate.
Defined.

(** X10.  The text handed to the agent is never empty: it is the trimmed
    body of the message, and the placeholder ["(empty)"] when the body is
    absent or blank; the three body fields of the context carry the same
    text.  The sender name is the name given by the provider and, when that
    is absent or empty, the sender address. *)
Theorem inbound_context_body mailbox msg :
  let ctx := inbound_context mailbox msg in
  Body ctx <> ""
  /\ RawBody ctx = Body ctx /\ CommandBody ctx = Body ctx
  /\ (forall s, body_content msg = Some s -> JS.trim s <> "" -> Body ctx = JS.trim s)
  /\ (body_content msg = None \/ (exists s, body_content msg = Some s /\ JS.trim s = "") ->
      Body ctx = "(empty)")
  /\ (forall a n, from_emailAddress msg = Some (mkEmailAddress a (Some n)) -> n <> "" ->
        SenderName ctx = n)
  /\ (forall a, from_emailAddress msg = Some (mkEmailAddress a None)
                \/ from_emailAddress msg = Some (mkEmailAddress a (Some "")) ->
        SenderName ctx = From ctx).
Proof.
  cbv zeta. cbn [Body RawBody CommandBody SenderName From inbound_context].
  unfold text_of, senderName_of.
  split; [|split; [reflexivity|split; [reflexivity|split; [|split; [|split]]]]].
  - destruct (body_content msg) as [s|]; cbn; [|discriminate].
    destruct (String.eqb_spec (JS.trim s) ""); [discriminate | assumption].
  - intros s -> Hs. cbn. destruct (String.eqb_spec (JS.trim s) ""); [contradiction|].
    reflexivity.
  - intros [-> | (s & -> & Hs)]; cbn; [reflexivity|]. rewrite Hs. reflexivity.
  - intros a n -> Hn. cbn. destruct (String.eqb_spec n ""); [contradiction|]. reflexivity.
  - intros a [-> | ->]; reflexivity.
Qed.

(** The scenario of X10: a body of blanks and line feeds. *)
Lemma inbound_context_body_witness :
  Body (inbound_context Scenario.mailbox
          (mkGraphMessage "m" "s" (Some "  ") (Some (mkEmailAddress (Some "a@b.com") None))
             "2024-05-01T09:00:00Z" false None)) = "(empty)".
Proof.
  apply (inbound_context_body Scenario.mailbox
           (mkGraphMessage "m" "s" (Some "  ") (Some (mkEmailAddress (Some "a@b.com") None))
              "2024-05-01T09:00:00Z" false None)).
  right. exists "  ". split; reflexivity.
Defined.

(* ===================================================================== *)
(** ** Processing one message, further properties *)
(* ===================================================================== *)

Lemma idle_count_app (a b : list Event) :
  idle_count (a ++ b) = (idle_count a + idle_count b)%nat.
Proof. unfold idle_count. rewrite filter_app, length_app. reflexivity. Qed.

Lemma dispatch_count_app (a b : list Event) :
  dispatch_count (a ++ b) = (dispatch_count a + dispatch_count b)%nat.
Proof. unfold dispatch_count. rewrite filter_app, length_app. reflexivity. Qed.

Lemma no_mark_counts (t : list Event) :
  Forall (fun e => is_host_mark e = false) t ->
  idle_count t = 0%nat /\ dispatch_count t = 0%nat.
Proof.
  induction 1 as [|e t He _ [IH1 IH2]]; [split; reflexivity|].
  unfold idle_count, dispatch_count in *.
  destruct e; try discriminate; cbn; auto.
Qed.

Lemma quiet_no_mark (t : list Event) :
  quiet t -> Forall (fun e => is_host_mark e = false) t.
Proof.
  apply Forall_impl. intros e He. destruct e; try discriminate; reflexivity.
Qed.

Lemma runHost_no_mark env creds mailbox msg d h :
  forall w,
    Forall (fun e => is_host_mark e = false)
           (trace (runHost (deliver env creds mailbox msg d) h w)).
Proof.
  induction h as [| e | ms k IH | p kind k IH]; intros w.
  - constructor.
  - constructor.
  - rewrite runHost_wait_eq. apply IH.
  - rewrite runHost_deliver_eq.
    pose proof (deliver_run env creds mailbox msg d p kind w) as Hd. cbv zeta in Hd.
    destruct (deliver env creds mailbox msg d p kind w) as [[r w1] t] eqn:E.
    set (o := match r with Returned _ => None | Threw e => Some e end).
    specialize (IH o w1).
    destruct (runHost (deliver env creds mailbox msg d) (k o) w1) as [[r2 w2] t'].
    cbn [trace snd] in *.
    constructor; [reflexivity|]. apply Forall_app. split; [|exact IH].
    destruct (is_final kind && Nat.ltb 0 (List.length (pushed (replyBuffer w) p)))%bool.
    + destruct Hd as (tq & Htq & Hq & _). cbn in Htq. subst t.
      constructor; [reflexivity|]. apply quiet_no_mark. exact Hq.
    + inversion Hd; subst. constructor.
Qed.

Lemma markAsRead_no_mark env creds mailbox messageId w :
  Forall (fun e => is_host_mark e = false)
         (trace (markAsRead env creds mailbox messageId w)).
Proof.
  destruct (markAsRead_shape env creds mailbox messageId w) as (t & -> & Hf & _).
  constructor; [reflexivity|]. apply quiet_no_mark, only_fetches_quiet. exact Hf.
Qed.

(** X11.  [processMessage] sends the idle notification exactly when it has
    called the dispatch, that is once, when the runtime is there and
    [markAsRead] has returned, and then as its very last step, whether the
    dispatch returned or threw; when [markAsRead] throws there is neither a
    dispatch nor an idle notification. *)
Theorem idle_follows_dispatch env creds mailbox msg d w :
  let tr := trace (processMessage env creds mailbox msg d w) in
  idle_count tr = dispatch_count tr
  /\ (dispatch_count tr <= 1)%nat
  /\ (dispatch_count tr = 1%nat -> exists pre, tr = pre ++ [EvIdle])
  /\ (dispatch_count tr = 1%nat <->
      env_runtime env <> None
      /\ result (markAsRead env creds mailbox (id msg) w) = Returned tt).
Proof.
  cbv zeta.
  destruct (env_runtime env) as [core|] eqn:Hr.
  2:{ rewrite processMessage_no_runtime by assumption. cbn.
      repeat split; try lia; try discriminate; intros [H _]; congruence. }
  rewrite (processMessage_eq env creds mailbox msg d w core Hr).
  pose proof (markAsRead_no_mark env creds mailbox (id msg) w) as Hm.
  destruct (markAsRead env creds mailbox (id msg) w) as [[r1 w1] t1].
  cbn [trace snd result fst] in *. cbv zeta.
  destruct (no_mark_counts t1 Hm) as [Hi1 Hd1].
  destruct r1 as [[]|e].
  - pose proof (runHost_no_mark env creds mailbox msg d
                  (dispatchReplyFromConfig core (dispatchCount w1)
                     (finalizeInboundContext core (inbound_context mailbox msg)))
                  (next_dispatch (set_replyBuffer [] w1))) as Hh.
    destruct (runHost _ _ _) as [[r2 w2] t2]. cbn [trace snd] in *.
    destruct (no_mark_counts t2 Hh) as [Hi2 Hd2].
    set (tail := match r2 with
                 | Returned _ => []
                 | Threw e => [EvLog Error (LogDispatchFailed (id msg) e)]
                 end).
    assert (Htail : idle_count tail = 0%nat /\ dispatch_count tail = 0%nat)
      by (subst tail; destruct r2; split; reflexivity).
    destruct Htail as [Hi3 Hd3].
    set (debug := EvLog Debug (LogProcessing (id msg) (senderAddress_of msg))).
    set (ctx := finalizeInboundContext core (inbound_context mailbox msg)).
    assert (Hi : idle_count (debug :: t1 ++ EvDispatch ctx :: t2 ++ tail ++ [EvIdle])
                 = 1%nat).
    { change (debug :: t1 ++ EvDispatch ctx :: t2 ++ tail ++ [EvIdle])
        with ([debug] ++ t1 ++ [EvDispatch ctx] ++ t2 ++ tail ++ [EvIdle]).
      rewrite !idle_count_app, Hi1, Hi2, Hi3. reflexivity. }
    assert (Hd : dispatch_count (debug :: t1 ++ EvDispatch ctx :: t2 ++ tail ++ [EvIdle])
                 = 1%nat).
    { change (debug :: t1 ++ EvDispatch ctx :: t2 ++ tail ++ [EvIdle])
        with ([debug] ++ t1 ++ [EvDispatch ctx] ++ t2 ++ tail ++ [EvIdle]).
      rewrite !dispatch_count_app, Hd1, Hd2, Hd3. reflexivity. }
    rewrite Hi, Hd. split; [reflexivity|]. split; [lia|]. split.
    + intros _. exists (debug :: t1 ++ EvDispatch ctx :: t2 ++ tail).
      cbn. rewrite <- !app_assoc. cbn. rewrite <- !app_assoc. reflexivity.
    + split; [intros _; split; [discriminate | reflexivity] | reflexivity].
  - cbn [trace snd].
    set (debug := EvLog Debug (LogProcessing (id msg) (senderAddress_of msg))).
    assert (Hi : idle_count (debug :: t1) = 0%nat)
      by (change (debug :: t1) with ([debug] ++ t1); rewrite idle_count_app, Hi1;
          reflexivity).
    assert (Hd : dispatch_count (debug :: t1) = 0%nat)
      by (change (debug :: t1) with ([debug] ++ t1); rewrite dispatch_count_app, Hd1;
          reflexivity).
    rewrite Hi, Hd. split; [reflexivity|]. split; [lia|]. split; [discriminate|].
    split; [discriminate | intros [_ H]; discriminate].
Qed.

(** The scenario of X11: the agent throws, and the idle notification is
    still the last event. *)
Lemma idle_follows_dispatch_witness :
  exists pre,
    trace (processMessage (Scenario.env Scenario.failing_agent None) Scenario.creds
             Scenario.mailbox Scenario.msgA true (Scenario.world 0 3600000))
    = pre ++ [EvIdle].
Proof.
  apply (idle_follows_dispatch (Scenario.env Scenario.failing_agent None) Scenario.creds
           Scenario.mailbox Scenario.msgA true (Scenario.world 0 3600000)).
  vm_compute. reflexivity.
Defined.

(* ===================================================================== *)
(** ** The poll loop, further properties *)
(* ===================================================================== *)

Lemma forMessages_aborted env creds mailbox d msgs w :
  aborted env w = true ->
  forMessages env creds mailbox d msgs w = (Returned tt, w, []).
Proof.
  intros Ha. destruct msgs as [|m rest]; [reflexivity|].
  cbn [forMessages]. unfold bind. cbn [get_world]. rewrite Ha. reflexivity.
Qed.

Lemma forMessages_cons_eq env creds mailbox d A rest w :
  aborted env w = false ->
  forMessages env creds mailbox d (A :: rest) w =
  let '(ra, w2, ta) := processMessage env creds mailbox A d w in
  match ra with
  | Returned _ =>
      let '(r, w3, t3) := forMessages env creds mailbox d rest w2 in (r, w3, ta ++ t3)
  | Threw e => (Threw e, w2, ta)
  end.
Proof.
  intros Ha.
  change (forMessages env creds mailbox d (A :: rest))
    with (w0 <- get_world ;;
          if aborted env w0 then ret tt
          else processMessage env creds mailbox A d ;;;
               forMessages env creds mailbox d rest).
  unfold bind at 1. cbn [get_world]. rewrite Ha. unfold bind at 1.
  destruct (processMessage env creds mailbox A d w) as [[ra w2] ta].
  destruct ra; [|reflexivity].
  destruct (forMessages env creds mailbox d rest w2) as [[r w3] t3]. reflexivity.
Qed.

Lemma pollCycle_eq env creds mailbox d w :
  pollCycle env creds mailbox d w =
  let '(rl, w1, tl) := listUnreadMessages env creds mailbox 20 w in
  match rl with
  | Threw e =>
      if aborted env w1 then (Returned Break, w1, tl)
      else (Returned Continue, w1, tl ++ [EvLog Error (LogPollCycleError e)])
  | Returned msgs =>
      let '(rf, w2, tf) := forMessages env creds mailbox d msgs w1 in
      match rf with
      | Returned _ => (Returned Continue, w2, tl ++ tf)
      | Threw e =>
          if aborted env w2 then (Returned Break, w2, tl ++ tf)
          else (Returned Continue, w2, tl ++ tf ++ [EvLog Error (LogPollCycleError e)])
      end
  end.
Proof.
  unfold pollCycle, try_catch. unfold bind at 1.
  destruct (listUnreadMessages env creds mailbox 20 w) as [[rl w1] tl].
  destruct rl as [msgs|e].
  - unfold bind at 1.
    destruct (forMessages env creds mailbox d msgs w1) as [[rf w2] tf].
    destruct rf as [u|e]; cbn [ret].
    + rewrite app_nil_r. reflexivity.
    + unfold bind, get_world. destruct (aborted env w2); cbn;
        rewrite ?app_nil_r, <- ?app_assoc; reflexivity.
  - unfold bind, get_world. destruct (aborted env w1); cbn; rewrite ?app_nil_r; reflexivity.
Qed.

Lemma monitorLoop_eq env fuel creds mailbox pollMs d w :
  aborted env w = false ->
  monitorLoop env (S fuel) creds mailbox pollMs d w =
  let '(rc, wc, tc) := pollCycle env creds mailbox d w in
  match rc with
  | Returned Break => (Returned Stopped, wc, tc)
  | Returned Continue =>
      let '(rs, ws, ts) := sleep env pollMs wc in
      match rs with
      | Threw _ => (Returned Stopped, ws, tc)
      | Returned _ =>
          let '(r, w3, t3) := monitorLoop env fuel creds mailbox pollMs d ws in
          (r, w3, tc ++ t3)
      end
  | Threw e => (Threw e, wc, tc)
  end.
Proof.
  intros Ha. cbn [monitorLoop]. unfold bind at 1. cbn [get_world]. rewrite Ha.
  unfold bind at 1.
  destruct (pollCycle env creds mailbox d w) as [[rc wc] tc].
  destruct rc as [[|]|e]; [|cbn; rewrite app_nil_r; reflexivity|reflexivity].
  unfold bind at 1. unfold try_catch. unfold bind at 1.
  assert (Hs : trace (sleep env pollMs wc) = []).
  { unfold sleep. destruct (aborted env wc); [reflexivity|].
    destruct (env_abortAt env) as [t|]; [|reflexivity].
    destruct (t <? now wc + timer_delay pollMs); reflexivity. }
  destruct (sleep env pollMs wc) as [[rs ws] ts]. cbn [trace snd] in Hs. subst ts.
  destruct rs as [u|e]; cbn [ret app].
  - destruct (monitorLoop env fuel creds mailbox pollMs d ws) as [[r w3] t3].
    cbn. reflexivity.
  - cbn. rewrite app_nil_r. reflexivity.
Qed.

(** The delay of a timer lies between 1 and [TIMEOUT_MAX]; it is the
    requested delay when that one lies in this range, and 1 otherwise. *)
Lemma timer_delay_range (ms : Z) : 1 <= timer_delay ms <= TIMEOUT_MAX.
Proof.
  unfold timer_delay, TIMEOUT_MAX.
  destruct (Z.ltb_spec ms 1); cbn [orb]; [lia|].
  destruct (Z.ltb_spec 2147483647 ms); lia.
Qed.

Lemma timer_delay_in_range (ms : Z) :
  1 <= ms <= TIMEOUT_MAX -> timer_delay ms = ms.
Proof.
  unfold timer_delay, TIMEOUT_MAX. intros H.
  destruct (Z.ltb_spec ms 1); cbn [orb]; [lia|].
  destruct (Z.ltb_spec 2147483647 ms); lia.
Qed.

Lemma timer_delay_out_of_range (ms : Z) :
  ms < 1 \/ TIMEOUT_MAX < ms -> timer_delay ms = 1.
Proof.
  unfold timer_delay, TIMEOUT_MAX. intros H.
  destruct (Z.ltb_spec ms 1); cbn [orb]; [reflexivity|].
  destruct (Z.ltb_spec 2147483647 ms); lia.
Qed.

Lemma sleep_completes env ms w :
  aborted env w = false ->
  no_abort_before env (wake_time ms w) ->
  sleep env ms w = (Returned tt, set_now (wake_time ms w) w, []).
Proof.
  intros Ha Hn. unfold sleep, wake_time, no_abort_before in *. rewrite Ha.
  destruct (env_abortAt env) as [t|]; [|reflexivity].
  replace (t <? now w + timer_delay ms) with false by (symmetry; apply Z.ltb_ge; lia).
  reflexivity.
Qed.

Lemma sleep_outcome env ms w :
  let x := sleep env ms w in
  trace x = []
  /\ (result x = Returned tt \/ result x = Threw abort_reason)
  /\ now w <= now (world_after x) <= wake_time ms w
  /\ (result x = Returned tt ->
      now (world_after x) = wake_time ms w /\ no_abort_before env (wake_time ms w))
  /\ (result x = Threw abort_reason ->
      exists t, env_abortAt env = Some t /\ (t <= now w \/ t < wake_time ms w)
                /\ now (world_after x) = Z.max (now w) t).
Proof.
  cbv zeta. unfold sleep, aborted, wake_time, no_abort_before.
  pose proof (timer_delay_range ms) as Hd.
  destruct (env_abortAt env) as [t|].
  - destruct (Z.leb_spec t (now w)).
    + cbn. refine (conj eq_refl (conj (or_intror eq_refl) (conj _ (conj _ _)))).
      * lia.
      * discriminate.
      * intros _. exists t. split; [reflexivity | split; lia].
    + destruct (Z.ltb_spec t (now w + timer_delay ms)); cbn.
      * refine (conj eq_refl (conj (or_intror eq_refl) (conj _ (conj _ _)))).
        -- lia.
        -- discriminate.
        -- intros _. exists t. split; [reflexivity | split; lia].
      * refine (conj eq_refl (conj (or_introl eq_refl) (conj _ (conj _ _)))).
        -- lia.
        -- intros _. split; [reflexivity | assumption].
        -- discriminate.
  - cbn. refine (conj eq_refl (conj (or_introl eq_refl) (conj _ (conj _ _)))).
    + lia.
    + intros _. split; [reflexivity | exact I].
    + discriminate.
Qed.

(** X12.  When marking message [A] read fails, [processMessage] throws that
    error: [A] is not handed to the agent, and the loop over the messages
    stops there, so the messages listed after [A] are not touched in this
    cycle.  The cycle itself does not throw: it logs a poll-cycle error. *)
Theorem markAsRead_failure_skips_cycle env creds mailbox d A rest w core e w1 t1 :
  env_runtime env = Some core ->
  aborted env w = false ->
  markAsRead env creds mailbox (id A) w = (Threw e, w1, t1) ->
  let tr := EvLog Debug (LogProcessing (id A) (senderAddress_of A)) :: t1 in
  processMessage env creds mailbox A d w = (Threw e, w1, tr)
  /\ forMessages env creds mailbox d (A :: rest) w = (Threw e, w1, tr)
  /\ mail_calls tr = [OpMarkAsRead mailbox (id A)]
  /\ dispatch_count tr = 0%nat
  /\ (forall w0 tl,
        listUnreadMessages env creds mailbox 20 w0 = (Returned (A :: rest), w, tl) ->
        aborted env w1 = false ->
        pollCycle env creds mailbox d w0
        = (Returned Continue, w1, tl ++ tr ++ [EvLog Error (LogPollCycleError e)])).
Proof.
  intros Hr Ha Hm tr.
  assert (Hp : processMessage env creds mailbox A d w = (Threw e, w1, tr)).
  { rewrite (processMessage_eq env creds mailbox A d w core Hr), Hm. reflexivity. }
  assert (Hf : forMessages env creds mailbox d (A :: rest) w = (Threw e, w1, tr)).
  { rewrite forMessages_cons_eq by assumption. rewrite Hp. reflexivity. }
  split; [exact Hp|]. split; [exact Hf|].
  destruct (markAsRead_shape env creds mailbox (id A) w) as (tf & Ht & Hq & _).
  pose proof (markAsRead_no_mark env creds mailbox (id A) w) as Hnm.
  rewrite Hm in Ht, Hnm. cbn [trace snd] in Ht, Hnm.
  split; [|split].
  - subst tr. rewrite Ht. cbn [mail_calls flat_map app]. fold (mail_calls tf).
    rewrite (quiet_mail_calls tf (only_fetches_quiet tf Hq)). reflexivity.
  - subst tr. change (dispatch_count ([EvLog Debug (LogProcessing (id A) (senderAddress_of A))]
                                        ++ t1) = 0%nat).
    rewrite dispatch_count_app. destruct (no_mark_counts t1 Hnm) as [_ ->]. reflexivity.
  - intros w0 tl Hl Ha1. rewrite pollCycle_eq, Hl, Hf, Ha1. reflexivity.
Qed.

(** X13.  While the plugin runtime has not been set, a cycle that lists
    messages marks none of them read and dispatches none: processing the
    first message throws before any call, and the cycle logs that error. *)
Theorem no_runtime_marks_nothing env creds mailbox d w A rest w1 tl :
  env_runtime env = None ->
  listUnreadMessages env creds mailbox 20 w = (Returned (A :: rest), w1, tl) ->
  aborted env w1 = false ->
  pollCycle env creds mailbox d w
  = (Returned Continue, w1,
     tl ++ [EvLog Error (LogPollCycleError (Reason "Outlook runtime not initialized"))])
  /\ mail_calls (trace (pollCycle env creds mailbox d w)) = [OpListUnread mailbox 20].
Proof.
  intros Hr Hl Ha.
  assert (Hc : pollCycle env creds mailbox d w
               = (Returned Continue, w1,
                  tl ++ [EvLog Error
                           (LogPollCycleError (Reason "Outlook runtime not initialized"))])).
  { rewrite pollCycle_eq, Hl, forMessages_cons_eq by assumption.
    rewrite processMessage_no_runtime by assumption. rewrite Ha. reflexivity. }
  split; [exact Hc|]. rewrite Hc. cbn [trace snd].
  destruct (listUnreadMessages_shape env creds mailbox 20 w) as (tf & Ht & Hq & _).
  rewrite Hl in Ht. cbn [trace snd] in Ht. subst tl.
  rewrite mail_calls_app. cbn [mail_calls flat_map app]. fold (mail_calls tf).
  rewrite (quiet_mail_calls tf (only_fetches_quiet tf Hq)). reflexivity.
Qed.

(** X14.  When listing the unread messages fails and the signal has not
    fired, the cycle does not throw: it logs the error and the loop goes to
    its sleep.  When that sleep completes, the loop goes on with the next
    iteration, from the world in which the sleep ended, which is later than
    the failure: the failure does not end the monitor, and the listing is
    not tried again before the sleep.  (How long the sleep lasts is the
    timer's matter: for a poll interval outside 1..2147483647 the timer is
    due after 1 ms.) *)
Theorem listing_failure_continues env creds mailbox pollMs d fuel w e w1 t1 :
  aborted env w = false ->
  listUnreadMessages env creds mailbox 20 w = (Threw e, w1, t1) ->
  aborted env w1 = false ->
  pollCycle env creds mailbox d w
  = (Returned Continue, w1, t1 ++ [EvLog Error (LogPollCycleError e)])
  /\ (forall ws,
        sleep env pollMs w1 = (Returned tt, ws, []) ->
        now w1 < now ws
        /\ monitorLoop env (S fuel) creds mailbox pollMs d w
           = let '(r, w3, t3) := monitorLoop env fuel creds mailbox pollMs d ws in
             (r, w3, t1 ++ EvLog Error (LogPollCycleError e) :: t3)).
Proof.
  intros Ha Hl Ha1.
  assert (Hc : pollCycle env creds mailbox d w
               = (Returned Continue, w1, t1 ++ [EvLog Error (LogPollCycleError e)])).
  { rewrite pollCycle_eq, Hl, Ha1. reflexivity. }
  split; [exact Hc|].
  intros ws Hs. split.
  - destruct (sleep_outcome env pollMs w1) as (_ & _ & _ & Hret & _).
    rewrite Hs in Hret. cbn [result world_after fst snd] in Hret.
    destruct (Hret eq_refl) as [Hnow _]. unfold wake_time in Hnow.
    pose proof (timer_delay_range pollMs). lia.
  - rewrite monitorLoop_eq by assumption.
    rewrite Hc, Hs.
    destruct (monitorLoop env fuel creds mailbox pollMs d ws) as [[r w3] t3].
    rewrite <- app_assoc. reflexivity.
Qed.

(** X15.  When the signal fires while message [A] is being processed, the
    processing of [A] runs to its end, the messages listed after [A] are not
    processed, and the loop ends without sleeping and without logging an
    error, also when the processing of [A] threw. *)
Theorem cancel_during_processing_stops env creds mailbox pollMs d fuel w A rest w1 tl
    ra w2 ta :
  aborted env w = false ->
  listUnreadMessages env creds mailbox 20 w = (Returned (A :: rest), w1, tl) ->
  aborted env w1 = false ->
  processMessage env creds mailbox A d w1 = (ra, w2, ta) ->
  aborted env w2 = true ->
  monitorLoop env (S fuel) creds mailbox pollMs d w = (Returned Stopped, w2, tl ++ ta).
Proof.
  intros Ha Hl Ha1 Hp Ha2.
  rewrite monitorLoop_eq by assumption.
  rewrite pollCycle_eq, Hl, forMessages_cons_eq by assumption. rewrite Hp.
  destruct ra as [u|e].
  - rewrite forMessages_aborted by assumption. rewrite app_nil_r.
    unfold sleep. rewrite Ha2. reflexivity.
  - rewrite Ha2. reflexivity.
Qed.

(** The scenario of X12: the provider answers every PATCH with 503; [msgA]
    is not dispatched and [msgB] is not touched. *)
Lemma markAsRead_failure_skips_cycle_witness :
  mail_calls (trace (pollCycle
                       (Cases.env Cases.transport_failing_mark None
                          (Some (Scenario.runtime Scenario.agent)))
                       Scenario.creds Scenario.mailbox true (Scenario.world 0 3600000)))
  = [OpListUnread Scenario.mailbox 20; OpMarkAsRead Scenario.mailbox "msg-A"].
Proof.
  pose (env := Cases.env Cases.transport_failing_mark None
                 (Some (Scenario.runtime Scenario.agent))).
  pose (l := listUnreadMessages env Scenario.creds Scenario.mailbox 20
               (Scenario.world 0 3600000)).
  pose (m := markAsRead env Scenario.creds Scenario.mailbox "msg-A" (world_after l)).
  destruct (markAsRead_failure_skips_cycle env Scenario.creds Scenario.mailbox true
              Scenario.msgA [Scenario.msgB] (world_after l)
              (Scenario.runtime Scenario.agent)
              (HttpError "mark-as-read" 503 "service unavailable")
              (world_after m) (trace m) eq_refl eq_refl eq_refl)
    as (_ & _ & _ & _ & H).
  fold env. rewrite (H (Scenario.world 0 3600000) (trace l) eq_refl eq_refl).
  vm_compute. reflexivity.
Defined.

(** The scenario of X13: two messages listed, no runtime set. *)
Lemma no_runtime_marks_nothing_witness :
  mail_calls (trace (pollCycle (Cases.env Scenario.transport None None)
                       Scenario.creds Scenario.mailbox true (Scenario.world 0 3600000)))
  = [OpListUnread Scenario.mailbox 20].
Proof.
  pose (l := listUnreadMessages (Cases.env Scenario.transport None None) Scenario.creds
               Scenario.mailbox 20 (Scenario.world 0 3600000)).
  apply (proj2 (no_runtime_marks_nothing (Cases.env Scenario.transport None None)
                  Scenario.creds Scenario.mailbox true (Scenario.world 0 3600000)
                  Scenario.msgA [Scenario.msgB] (world_after l) (trace l)
                  eq_refl eq_refl eq_refl)).
Defined.

(** The scenario of X14: the listing gets 503 after 30 ms; the loop sleeps
    and lists again, and gets 503 again. *)
Lemma listing_failure_continues_witness :
  mail_calls (trace (monitorLoop
                       (Cases.env Cases.transport_failing_graph None
                          (Some (Scenario.runtime Scenario.agent)))
                       2 Scenario.creds Scenario.mailbox 15000 true
                       (Scenario.world 0 3600000)))
  = [OpListUnread Scenario.mailbox 20; OpListUnread Scenario.mailbox 20].
Proof.
  pose (env := Cases.env Cases.transport_failing_graph None
                 (Some (Scenario.runtime Scenario.agent))).
  pose (l := listUnreadMessages env Scenario.creds Scenario.mailbox 20
               (Scenario.world 0 3600000)).
  pose (s := sleep env 15000 (world_after l)).
  fold env.
  destruct (listing_failure_continues env Scenario.creds Scenario.mailbox 15000 true 1
              (Scenario.world 0 3600000)
              (HttpError "list messages" 503 "service unavailable")
              (world_after l) (trace l) eq_refl eq_refl eq_refl) as [_ H].
  destruct (H (world_after s) eq_refl) as [_ ->].
  vm_compute. reflexivity.
Defined.

(** The scenario of X15: the signal fires at 1000 ms, while the agent is
    working on [msgA]; [msgB] is not processed. *)
Lemma cancel_during_processing_stops_witness :
  result (monitorLoop (Scenario.env Cases.slow_agent (Some 1000)) 3 Scenario.creds
            Scenario.mailbox 15000 true (Scenario.world 0 3600000))
  = Returned Stopped
  /\ mail_calls (trace (monitorLoop (Scenario.env Cases.slow_agent (Some 1000)) 3
                          Scenario.creds Scenario.mailbox 15000 true
                          (Scenario.world 0 3600000)))
     = [OpListUnread Scenario.mailbox 20; OpMarkAsRead Scenario.mailbox "msg-A";
        OpCreateDraftReply Scenario.mailbox "msg-A" "ok"].
Proof.
  pose (env := Scenario.env Cases.slow_agent (Some 1000)).
  pose (l := listUnreadMessages env Scenario.creds Scenario.mailbox 20
               (Scenario.world 0 3600000)).
  pose (p := processMessage env Scenario.creds Scenario.mailbox Scenario.msgA true
               (world_after l)).
  fold env.
  rewrite (cancel_during_processing_stops env Scenario.creds Scenario.mailbox 15000 true 2
             (Scenario.world 0 3600000) Scenario.msgA [Scenario.msgB]
             (world_after l) (trace l) (result p) (world_after p) (trace p)
             eq_refl eq_refl eq_refl eq_refl eq_refl).
  split; [reflexivity | vm_compute; reflexivity].
Defined.

(** X16.  At a loop head where the signal has already fired, the loop ends
    at once: it lists nothing, sleeps not and leaves the world as it is.  In
    particular a monitor started with a signal that has already fired logs
    its start and its stop and makes no request. *)
Theorem aborted_at_loop_head_stops env creds mailbox pollMs d fuel w :
  aborted env w = true ->
  monitorLoop env fuel creds mailbox pollMs d w = (Returned Stopped, w, [])
  /\ (forall cfg,
        resolveOutlookCredentials (env_process env) (resolveOutlookChannelConfig cfg)
        = Some creds ->
        chain_trim (resolveOutlookChannelConfig cfg) oc_mailbox = Some mailbox ->
        mailbox <> "" ->
        pollMs_of (resolveOutlookChannelConfig cfg) = pollMs ->
        draftOnly_of (resolveOutlookChannelConfig cfg) = d ->
        monitorOutlookEmail env cfg fuel w
        = (Returned Stopped, w,
           [EvLog Info (LogMonitorStarted mailbox pollMs d); EvLog Info LogMonitorStopped])).
Proof.
  intros Ha.
  assert (Hl : monitorLoop env fuel creds mailbox pollMs d w = (Returned Stopped, w, [])).
  { destruct fuel; cbn [monitorLoop]; unfold bind; cbn [get_world]; rewrite Ha;
      reflexivity. }
  split; [exact Hl|].
  intros cfg Hc Hm Hne Hp Hd.
  unfold monitorOutlookEmail. rewrite Hc, Hm, Hp, Hd.
  assert (Htr : JS.truthy (Some mailbox) = true).
  { cbn. destruct (String.eqb_spec mailbox ""); [contradiction | reflexivity]. }
  rewrite Htr. cbn [negb JS.nullish].
  unfold bind at 1. cbn [log emit]. unfold bind at 1. rewrite Hl. reflexivity.
Qed.

(** The scenario of X16: the signal has fired at 0 ms. *)
Lemma aborted_at_loop_head_stops_witness :
  fetches (trace (monitorOutlookEmail (Scenario.env Scenario.agent (Some 0))
                    (Scenario.cfg None) 5 (Scenario.world 0 3600000))) = [].
Proof.
  rewrite (proj2 (aborted_at_loop_head_stops (Scenario.env Scenario.agent (Some 0))
                    Scenario.creds Scenario.mailbox 15000 true 5
                    (Scenario.world 0 3600000) eq_refl)
             (Scenario.cfg None) eq_refl eq_refl); try reflexivity.
  discriminate.
Defined.

Lemma monitorLoop_aborted env creds mailbox pollMs d fuel w :
  aborted env w = true ->
  monitorLoop env fuel creds mailbox pollMs d w = (Returned Stopped, w, []).
Proof.
  intros Ha.
  destruct fuel; cbn [monitorLoop]; unfold bind; cbn [get_world]; rewrite Ha; reflexivity.
Qed.

(** X17.  The wait between two cycles.  [sleep] makes no call and never
    sets the clock back.  It settles in one of two ways: it returns, and
    then the signal had not fired when it started and did not fire before
    it ended; or it is rejected with the reason of the signal, and then the
    signal has fired: at once, with no timer started, when the signal had
    fired before the call, and otherwise at the time the signal fires.  An
    interval below 1 or above 2147483647 is a wait of 1 ms, as the timer
    has it: such a call behaves as [sleep(1, signal)]. *)
Theorem sleep_settles_by_timer_or_signal env ms w :
  let x := sleep env ms w in
  trace x = []
  /\ now w <= now (world_after x)
  /\ (result x = Returned tt \/ result x = Threw abort_reason)
  /\ (result x = Returned tt ->
      aborted env w = false /\ no_abort_before env (now (world_after x)))
  /\ (result x = Threw abort_reason ->
      exists t, env_abortAt env = Some t
                /\ now (world_after x) = Z.max (now w) t
                /\ aborted env (world_after x) = true)
  /\ (aborted env w = true -> x = (Threw abort_reason, w, []))
  /\ (ms < 1 \/ TIMEOUT_MAX < ms -> x = sleep env 1 w).
Proof.
  cbv zeta.
  destruct (sleep_outcome env ms w) as (H1 & H2 & H3 & H4 & H5).
  split; [exact H1|]. split; [lia|]. split; [exact H2|].
  split; [|split; [|split]].
  - intros Hr. destruct (H4 Hr) as [Hnow Hn]. rewrite Hnow. split; [|exact Hn].
    destruct (aborted env w) eqn:Ha; [|reflexivity].
    unfold sleep in Hr. rewrite Ha in Hr. discriminate.
  - intros Hr. destruct (H5 Hr) as (t & Ht & _ & Hnow).
    exists t. split; [exact Ht|]. split; [exact Hnow|].
    unfold aborted. rewrite Ht. apply Z.leb_le. lia.
  - intros Ha. unfold sleep. rewrite Ha. reflexivity.
  - intros Hm. unfold sleep.
    rewrite (timer_delay_out_of_range ms Hm).
    rewrite (timer_delay_in_range 1) by (unfold TIMEOUT_MAX; lia). reflexivity.
Qed.

(** The scenario of X17: a negative interval, no signal; the timer is due
    after 1 ms. *)
Lemma sleep_settles_by_timer_or_signal_witness :
  sleep (Scenario.env Scenario.agent None) (-5) (Scenario.world 700 0)
  = (Returned tt, Scenario.world 701 0, []).
Proof.
  rewrite (proj2 (proj2 (proj2 (proj2 (proj2 (proj2
             (sleep_settles_by_timer_or_signal (Scenario.env Scenario.agent None) (-5)
                (Scenario.world 700 0)))))))
             (or_introl eq_refl)).
  reflexivity.
Defined.

Lemma monitorLoop_returns env creds mailbox pollMs d fuel :
  forall w, exists ex,
    result (monitorLoop env fuel creds mailbox pollMs d w) = Returned ex
    /\ ex <> NotStarted.
Proof.
  induction fuel as [|fuel IH]; intros w.
  - cbn [monitorLoop]. unfold bind. cbn [get_world].
    destruct (aborted env w); cbn; eexists; split; try reflexivity; discriminate.
  - destruct (aborted env w) eqn:Ha.
    + rewrite monitorLoop_aborted by assumption. exists Stopped.
      split; [reflexivity | discriminate].
    + rewrite monitorLoop_eq by assumption.
      destruct (pollCycle_returns env creds mailbox d w) as (ctl & Hres & _).
      destruct (pollCycle env creds mailbox d w) as [[rc wc] tc].
      cbn [result fst] in Hres. subst rc.
      destruct ctl.
      * destruct (sleep env pollMs wc) as [[rs ws] ts].
        destruct rs as [u|e].
        -- destruct (IH ws) as (ex & Hex & Hne).
           destruct (monitorLoop env fuel creds mailbox pollMs d ws) as [[r w3] t3].
           cbn [result fst] in *. eauto.
        -- exists Stopped. split; [reflexivity | discriminate].
      * exists Stopped. split; [reflexivity | discriminate].
Qed.


(* ===================================================================== *)
(** ** The clock *)
(* ===================================================================== *)

Lemma clock_mono_ret {A} (a : A) : clock_mono (ret a).
Proof. intros w. cbn. lia. Qed.

Lemma clock_mono_throw {A} (e : Err) : clock_mono (@throw A e).
Proof. intros w. cbn. lia. Qed.

Lemma clock_mono_emit (e : Event) : clock_mono (emit e).
Proof. intros w. cbn. lia. Qed.

Lemma clock_mono_get_world : clock_mono get_world.
Proof. intros w. cbn. lia. Qed.

Lemma clock_mono_modify (f : World -> World) :
  (forall w, now w <= now (f w)) -> clock_mono (modify f).
Proof. intros H w. cbn. apply H. Qed.

Lemma clock_mono_bind {A B} (m : M A) (f : A -> M B) :
  clock_mono m -> (forall a, clock_mono (f a)) -> clock_mono (bind m f).
Proof.
  intros Hm Hf w. unfold bind. specialize (Hm w).
  destruct (m w) as [[r w1] t1]. cbn in Hm.
  destruct r as [a|e]; cbn; [|exact Hm].
  specialize (Hf a w1). destruct (f a w1) as [[r2 w2] t2]. cbn in *. lia.
Qed.

Lemma clock_mono_try_catch {A} (m : M A) (h : Err -> M A) :
  clock_mono m -> (forall e, clock_mono (h e)) -> clock_mono (try_catch m h).
Proof.
  intros Hm Hh w. unfold try_catch. specialize (Hm w).
  destruct (m w) as [[r w1] t1]. cbn in Hm.
  destruct r as [a|e]; cbn; [exact Hm|].
  specialize (Hh e w1). destruct (h e w1) as [[r2 w2] t2]. cbn in *. lia.
Qed.

Lemma clock_mono_finally {A} (m : M A) (f : M unit) :
  clock_mono m -> clock_mono f -> clock_mono (finally m f).
Proof.
  intros Hm Hf w. unfold finally. specialize (Hm w).
  destruct (m w) as [[r w1] t1]. cbn in Hm.
  specialize (Hf w1). destruct (f w1) as [[r2 w2] t2]. cbn in *. lia.
Qed.

Lemma clock_mono_fetch env req : clock_mono (fetch env req).
Proof.
  intros w. unfold fetch.
  destruct (env_fetch env (fetchCount w) req); cbn; lia.
Qed.

Ltac clock :=
  repeat first
    [ apply clock_mono_fetch
    | apply clock_mono_ret
    | apply clock_mono_throw
    | apply clock_mono_emit
    | apply clock_mono_get_world
    | apply clock_mono_modify; intros ?; cbn; lia
    | apply clock_mono_bind; [|intros ?]
    | apply clock_mono_try_catch; [|intros ?]
    | apply clock_mono_finally
    | match goal with
      | |- clock_mono (if ?b then _ else _) => destruct b
      | |- clock_mono (let _ := _ in _) => cbv zeta
      end ].

Lemma clock_mono_getGraphAccessToken env creds :
  clock_mono (getGraphAccessToken env creds).
Proof. unfold getGraphAccessToken. clock. Qed.

Lemma clock_mono_graphFetch env creds path query method body :
  clock_mono (graphFetch env creds path query method body).
Proof.
  unfold graphFetch. apply clock_mono_bind;
    [apply clock_mono_getGraphAccessToken | intros; apply clock_mono_fetch].
Qed.

Lemma clock_mono_listUnreadMessages env creds mailbox top :
  clock_mono (listUnreadMessages env creds mailbox top).
Proof.
  unfold listUnreadMessages. apply clock_mono_bind; [clock|intros _].
  apply clock_mono_bind; [apply clock_mono_graphFetch | intros; clock].
Qed.

Lemma clock_mono_markAsRead env creds mailbox messageId :
  clock_mono (markAsRead env creds mailbox messageId).
Proof.
  unfold markAsRead. apply clock_mono_bind; [clock|intros _].
  apply clock_mono_bind; [apply clock_mono_graphFetch | intros; clock].
Qed.

Lemma clock_mono_replyToMessage env creds mailbox messageId replyText :
  clock_mono (replyToMessage env creds mailbox messageId replyText).
Proof.
  unfold replyToMessage. apply clock_mono_bind; [clock|intros _].
  apply clock_mono_bind; [apply clock_mono_graphFetch | intros; clock].
Qed.

Lemma clock_mono_createDraftReply env creds mailbox messageId replyText :
  clock_mono (createDraftReply env creds mailbox messageId replyText).
Proof.
  unfold createDraftReply. apply clock_mono_bind; [clock|intros _].
  apply clock_mono_bind; [apply clock_mono_graphFetch | intros; clock].
Qed.

Lemma clock_mono_deliver env creds mailbox msg d p kind :
  clock_mono (deliver env creds mailbox msg d p kind).
Proof.
  unfold deliver.
  apply clock_mono_bind; [clock|intros _].
  apply clock_mono_bind; [clock|intros w0].
  destruct (is_final kind && Nat.ltb 0 (List.length (replyBuffer w0)))%bool; [|clock].
  cbv zeta. apply clock_mono_bind; [clock|intros _].
  destruct d.
  - apply clock_mono_bind; [apply clock_mono_createDraftReply | intros; clock].
  - apply clock_mono_bind; [apply clock_mono_replyToMessage | intros; clock].
Qed.

Lemma clock_mono_runHost env creds mailbox msg d h :
  clock_mono (runHost (deliver env creds mailbox msg d) h).
Proof.
  induction h as [| e | ms k IH | p kind k IH]; intros w.
  - cbn. lia.
  - cbn. lia.
  - rewrite runHost_wait_eq. specialize (IH (set_now (now w + Z.of_N ms) w)).
    cbn in IH. lia.
  - rewrite runHost_deliver_eq.
    pose proof (clock_mono_deliver env creds mailbox msg d p kind w) as Hd.
    destruct (deliver env creds mailbox msg d p kind w) as [[r w1] t1].
    set (o := match r with Returned _ => None | Threw e => Some e end).
    specialize (IH o w1).
    destruct (runHost (deliver env creds mailbox msg d) (k o) w1) as [[r2 w2] t2].
    cbn in *. lia.
Qed.

Lemma clock_mono_processMessage env creds mailbox msg d :
  clock_mono (processMessage env creds mailbox msg d).
Proof.
  intros w.
  destruct (env_runtime env) as [core|] eqn:Hr.
  - rewrite (processMessage_eq env creds mailbox msg d w core Hr).
    pose proof (clock_mono_markAsRead env creds mailbox (id msg) w) as Hm.
    destruct (markAsRead env creds mailbox (id msg) w) as [[r1 w1] t1].
    cbn in Hm. destruct r1 as [u|e]; [|exact Hm].
    cbv zeta.
    pose proof (clock_mono_runHost env creds mailbox msg d
                  (dispatchReplyFromConfig core (dispatchCount w1)
                     (finalizeInboundContext core (inbound_context mailbox msg)))
                  (next_dispatch (set_replyBuffer [] w1))) as Hh.
    destruct (runHost _ _ _) as [[r2 w2] t2]. cbn in *. lia.
  - rewrite processMessage_no_runtime by assumption. cbn. lia.
Qed.

Lemma clock_mono_forMessages env creds mailbox d msgs :
  clock_mono (forMessages env creds mailbox d msgs).
Proof.
  induction msgs as [|m rest IH]; intros w; [cbn; lia|].
  destruct (aborted env w) eqn:Ha.
  - rewrite forMessages_aborted by assumption. cbn. lia.
  - rewrite forMessages_cons_eq by assumption.
    pose proof (clock_mono_processMessage env creds mailbox m d w) as Hp.
    destruct (processMessage env creds mailbox m d w) as [[ra w2] ta].
    cbn in Hp. destruct ra; [|exact Hp].
    specialize (IH w2).
    destruct (forMessages env creds mailbox d rest w2) as [[r w3] t3]. cbn in *. lia.
Qed.

Lemma clock_mono_pollCycle env creds mailbox d :
  clock_mono (pollCycle env creds mailbox d).
Proof.
  intros w. rewrite pollCycle_eq.
  pose proof (clock_mono_listUnreadMessages env creds mailbox 20 w) as Hl.
  destruct (listUnreadMessages env creds mailbox 20 w) as [[rl w1] tl].
  cbn in Hl. destruct rl as [msgs|e].
  - pose proof (clock_mono_forMessages env creds mailbox d msgs w1) as Hf.
    destruct (forMessages env creds mailbox d msgs w1) as [[rf w2] tf].
    cbn in Hf. destruct rf; [|destruct (aborted env w2)]; cbn; lia.
  - destruct (aborted env w1); cbn; lia.
Qed.

Lemma monitorLoop_stops env creds mailbox pollMs d t :
  env_abortAt env = Some t ->
  forall fuel w,
    t - now w <= Z.of_nat fuel * timer_delay pollMs ->
    exists w' tr,
      monitorLoop env fuel creds mailbox pollMs d w = (Returned Stopped, w', tr).
Proof.
  intros Ht.
  pose proof (timer_delay_range pollMs) as Hp.
  induction fuel as [|fuel IH]; intros w Hw.
  - rewrite monitorLoop_aborted; [eauto|]. unfold aborted. rewrite Ht.
    apply Z.leb_le. lia.
  - destruct (aborted env w) eqn:Ha.
    + rewrite monitorLoop_aborted by assumption. eauto.
    + rewrite monitorLoop_eq by assumption.
      destruct (pollCycle_returns env creds mailbox d w) as (ctl & Hres & _).
      pose proof (clock_mono_pollCycle env creds mailbox d w) as Hc.
      destruct (pollCycle env creds mailbox d w) as [[rc wc] tc].
      cbn [result world_after fst snd] in Hres, Hc. subst rc.
      destruct ctl; [|eauto].
      destruct (sleep_outcome env pollMs wc) as (_ & _ & _ & Hret & _).
      destruct (sleep env pollMs wc) as [[rs ws] ts].
      cbn [result world_after fst snd] in Hret.
      destruct rs as [[]|e]; [|eauto].
      destruct (Hret eq_refl) as [Hnow _]. unfold wake_time in Hnow.
      destruct (IH ws) as (w' & tr & Hl); [nia|].
      rewrite Hl. eauto.
Qed.

(** X19.  In a run in which every request and every dispatch settles (as
    they do in the environments of this model; the signal is not passed to
    the requests, so one that never settles would keep the loop waiting),
    the monitor comes to its end once the signal is due to fire: the loop
    started in world [w] stops within [fuel] iterations as soon as [fuel]
    timer delays reach from the time of [w] to the time the signal fires,
    because no step of a cycle sets the clock back and every completed
    sleep advances it by the delay of its timer, which is the poll interval
    when that lies in 1..2147483647 and 1 ms otherwise.
    [monitorOutlookEmail] then ends by returning. *)
Theorem monitor_stops_after_signal env creds mailbox pollMs d t fuel w :
  env_abortAt env = Some t ->
  t - now w <= Z.of_nat fuel * timer_delay pollMs ->
  (exists w' tr,
     monitorLoop env fuel creds mailbox pollMs d w = (Returned Stopped, w', tr))
  /\ now w <= now (world_after (pollCycle env creds mailbox d w))
  /\ 1 <= timer_delay pollMs <= TIMEOUT_MAX
  /\ (1 <= pollMs <= TIMEOUT_MAX -> timer_delay pollMs = pollMs)
  /\ (forall cfg,
        resolveOutlookCredentials (env_process env) (resolveOutlookChannelConfig cfg)
        = Some creds ->
        chain_trim (resolveOutlookChannelConfig cfg) oc_mailbox = Some mailbox ->
        mailbox <> "" ->
        pollMs_of (resolveOutlookChannelConfig cfg) = pollMs ->
        draftOnly_of (resolveOutlookChannelConfig cfg) = d ->
        result (monitorOutlookEmail env cfg fuel w) = Returned Stopped).
Proof.
  intros Ht Hw.
  destruct (monitorLoop_stops env creds mailbox pollMs d t Ht fuel w Hw)
    as (w' & tr & Hl).
  split; [eauto|]. split; [apply clock_mono_pollCycle|].
  split; [apply timer_delay_range|]. split; [apply timer_delay_in_range|].
  intros cfg Hc Hm Hne Hpm Hd.
  unfold monitorOutlookEmail. rewrite Hc, Hm, Hpm, Hd.
  assert (Htr : JS.truthy (Some mailbox) = true).
  { cbn. destruct (String.eqb_spec mailbox ""); [contradiction | reflexivity]. }
  rewrite Htr. cbn [negb JS.nullish].
  unfold bind at 1. cbn [log emit]. unfold bind at 1. rewrite Hl. reflexivity.
Qed.

(** The scenario of X19: the signal fires at 40000 ms, the interval is
    15000 ms, three iterations are enough. *)
Lemma monitor_stops_after_signal_witness :
  result (monitorOutlookEmail (Scenario.env Scenario.agent (Some 40000))
            (Scenario.cfg None) 3 (Scenario.world 0 3600000)) = Returned Stopped.
Proof.
  apply (proj2 (proj2 (proj2 (proj2
           (monitor_stops_after_signal (Scenario.env Scenario.agent (Some 40000))
              Scenario.creds Scenario.mailbox 15000 true 40000 3
              (Scenario.world 0 3600000) eq_refl
              ltac:(vm_compute; discriminate)))))
           (Scenario.cfg None) eq_refl eq_refl ltac:(discriminate) eq_refl eq_refl).
Defined.

(* ===================================================================== *)
(** ** channel.ts and the start conditions *)
(* ===================================================================== *)

Lemma truthy_some_iff (s : string) : JS.truthy (Some s) = true <-> s <> "".
Proof.
  cbn. destruct (String.eqb_spec s ""); split; intros H;
    try discriminate; try contradiction; auto.
Qed.

(** [isConfigured] says that the credentials resolve and that the trimmed
    mailbox is not empty. *)
Lemma isConfigured_iff penv cfg :
  isConfigured penv cfg = true <->
  exists creds mailbox,
    resolveOutlookCredentials penv (resolveOutlookChannelConfig cfg) = Some creds
    /\ chain_trim (resolveOutlookChannelConfig cfg) oc_mailbox = Some mailbox
    /\ mailbox <> "".
Proof.
  unfold isConfigured.
  destruct (resolveOutlookChannelConfig cfg) as [c|].
  - destruct (resolveOutlookCredentials penv (Some c)) as [creds|].
    + cbn [chain_trim]. destruct (option_map JS.trim (oc_mailbox c)) as [mb|].
      * rewrite truthy_some_iff. split.
        -- intros H. exists creds, mb. auto.
        -- intros (c0 & m0 & _ & [= <-] & H). exact H.
      * cbn. split; [discriminate|]. intros (c0 & m0 & _ & H & _). discriminate.
    + split; [discriminate|]. intros (c0 & m0 & H & _). discriminate.
  - split; [discriminate|]. intros (c0 & m0 & _ & H & _). discriminate.
Qed.

Lemma isConfigured_false_cases penv cfg :
  isConfigured penv cfg = false ->
  resolveOutlookCredentials penv (resolveOutlookChannelConfig cfg) = None
  \/ JS.truthy (chain_trim (resolveOutlookChannelConfig cfg) oc_mailbox) = false.
Proof.
  intros H.
  destruct (resolveOutlookCredentials penv (resolveOutlookChannelConfig cfg))
    as [creds|] eqn:Hc; [|auto].
  right.
  destruct (JS.truthy (chain_trim (resolveOutlookChannelConfig cfg) oc_mailbox)) eqn:Hm;
    [|reflexivity].
  destruct (chain_trim (resolveOutlookChannelConfig cfg) oc_mailbox) as [mb|] eqn:Hmb;
    [|discriminate].
  assert (isConfigured penv cfg = true).
  { apply isConfigured_iff. exists creds, mb. repeat split; auto.
    apply truthy_some_iff. exact Hm. }
  congruence.
Qed.

(** X20.  [isConfigured] is the start condition of both paths.  The monitor
    returns without starting exactly when the channel is not configured, and
    then it leaves the world as it is and makes no call; [sendText] makes no
    call exactly when the channel is not configured, and then it throws a
    configuration error. *)
Theorem isConfigured_is_start_condition env cfg fuel w to body :
  let m := monitorOutlookEmail env cfg fuel w in
  let s := sendText env (mkOutboundContext cfg to body) w in
  (isConfigured (env_process env) cfg = false <-> result m = Returned NotStarted)
  /\ (isConfigured (env_process env) cfg = false ->
      world_after m = w /\ fetches (trace m) = [] /\ mail_calls (trace m) = [])
  /\ (isConfigured (env_process env) cfg = false <-> trace s = [])
  /\ (isConfigured (env_process env) cfg = false ->
      exists msg, s = (Threw (ConfigError msg), w, [])).
Proof.
  intros m s.
  assert (Hoff : isConfigured (env_process env) cfg = false ->
                 (exists l, m = (Returned NotStarted, w, [EvLog Error l]))
                 /\ exists msg, s = (Threw (ConfigError msg), w, [])).
  { intros H. apply isConfigured_false_cases in H. subst m s.
    unfold monitorOutlookEmail, sendText. cbn [ctx_cfg].
    destruct H as [-> | H].
    - split; eexists; reflexivity.
    - destruct (resolveOutlookCredentials _ _); [rewrite H|]; split; eexists; reflexivity. }
  assert (Hon : isConfigured (env_process env) cfg = true ->
                result m <> Returned NotStarted /\ trace s <> []).
  { intros H. apply isConfigured_iff in H. destruct H as (creds & mb & Hc & Hm & Hne).
    subst m s. unfold monitorOutlookEmail, sendText. cbn [ctx_cfg ctx_to ctx_text].
    rewrite Hc, Hm. rewrite (proj2 (truthy_some_iff mb) Hne). cbn [negb JS.nullish].
    split.
    - unfold bind at 1. cbn [log emit]. unfold bind at 1.
      destruct (monitorLoop_returns env creds mb
                  (pollMs_of (resolveOutlookChannelConfig cfg))
                  (draftOnly_of (resolveOutlookChannelConfig cfg)) fuel w)
        as (ex & Hex & Hnot).
      destruct (monitorLoop env fuel creds mb _ _ w) as [[r w1] t1].
      cbn [result fst] in Hex. subst r. destruct ex; cbn; discriminate.
    - unfold bind.
      destruct (sendNewMail_shape env creds mb to default_subject body w)
        as (tf & Ht & _).
      destruct (sendNewMail env creds mb to default_subject body w) as [[r w1] t1].
      cbn [trace snd] in Ht. subst t1. destruct r; cbn; discriminate. }
  split; [|split; [|split]].
  - split.
    + intros H. destruct (proj1 (Hoff H)) as (l & ->). reflexivity.
    + intros H. destruct (isConfigured (env_process env) cfg) eqn:E; [|reflexivity].
      destruct (Hon eq_refl) as [Hn _]. contradiction.
  - intros H. destruct (proj1 (Hoff H)) as (l & ->). repeat split; reflexivity.
  - split.
    + intros H. destruct (proj2 (Hoff H)) as (msg & ->). reflexivity.
    + intros H. destruct (isConfigured (env_process env) cfg) eqn:E; [|reflexivity].
      destruct (Hon eq_refl) as [_ Hn]. contradiction.
  - intros H. exact (proj2 (Hoff H)).
Qed.

(** The scenario of X20: a mailbox of blanks only. *)
Lemma isConfigured_is_start_condition_witness :
  result (monitorOutlookEmail (Scenario.env Scenario.agent None)
            (mkConfig (Some (mkChannelConfig None (Some "app-id") (Some "app-secret")
                               (Some "tenant-id") (Some "   ") None None)))
            5 (Scenario.world 0 0)) = Returned NotStarted.
Proof.
  apply (proj1 (isConfigured_is_start_condition (Scenario.env Scenario.agent None)
                  (mkConfig (Some (mkChannelConfig None (Some "app-id") (Some "app-secret")
                                     (Some "tenant-id") (Some "   ") None None)))
                  5 (Scenario.world 0 0) "x@y.com" "hello")).
  reflexivity.
Defined.

(** X21.  [resolveAccount] returns an account exactly when the channel is
    configured and not disabled; the account then carries the credentials
    and the trimmed mailbox that the monitor and [sendText] resolve from the
    same configuration, none of its fields is empty, and [listAccountIds]
    lists it. *)
Theorem resolveAccount_sound penv cfg :
  ((exists a, resolveAccount penv cfg = Normal (Some a)) <->
   isConfigured penv cfg = true /\ listAccountIds cfg = ["default"])
  /\ (forall a,
        resolveAccount penv cfg = Normal (Some a) ->
        resolveOutlookCredentials penv (resolveOutlookChannelConfig cfg)
        = Some (mkCreds (acc_appId a) (acc_appSecret a) (acc_tenantId a))
        /\ chain_trim (resolveOutlookChannelConfig cfg) oc_mailbox = Some (acc_mailbox a)
        /\ acc_mailbox a <> "" /\ acc_appId a <> ""
        /\ acc_appSecret a <> "" /\ acc_tenantId a <> "").
Proof.
  assert (Hfields : forall a,
             resolveAccount penv cfg = Normal (Some a) ->
             enabled_is_false (resolveOutlookChannelConfig cfg) = false
             /\ resolveOutlookCredentials penv (resolveOutlookChannelConfig cfg)
                = Some (mkCreds (acc_appId a) (acc_appSecret a) (acc_tenantId a))
             /\ chain_trim (resolveOutlookChannelConfig cfg) oc_mailbox
                = Some (acc_mailbox a)
             /\ acc_mailbox a <> "").
  { intros a. unfold resolveAccount.
    destruct (enabled_is_false (resolveOutlookChannelConfig cfg)); [discriminate|].
    destruct (resolveOutlookCredentials penv (resolveOutlookChannelConfig cfg))
      as [creds|]; [|discriminate].
    destruct (resolveOutlookChannelConfig cfg) as [c|]; [|discriminate].
    cbn [chain_trim].
    destruct (JS.truthy (option_map JS.trim (oc_mailbox c))) eqn:Hm; [|discriminate].
    cbn [negb]. intros [= <-]. cbn.
    destruct (truthy_nullish _ Hm) as [E N].
    destruct creds. repeat split; auto. }
  split.
  - split.
    + intros (a & Ha). destruct (Hfields a Ha) as (He & Hc & Hm & Hne). split.
      * apply isConfigured_iff. eauto.
      * unfold listAccountIds. rewrite He. reflexivity.
    + intros [Hc Hl]. apply isConfigured_iff in Hc.
      destruct Hc as (creds & mb & Hc & Hm & Hne).
      unfold resolveAccount. unfold listAccountIds in Hl.
      destruct (enabled_is_false (resolveOutlookChannelConfig cfg)); [discriminate|].
      rewrite Hc.
      destruct (resolveOutlookChannelConfig cfg) as [c|]; [|discriminate].
      cbn [chain_trim] in Hm. rewrite Hm.
      rewrite (proj2 (truthy_some_iff mb) Hne). cbn. eauto.
  - intros a Ha. destruct (Hfields a Ha) as (_ & Hc & Hm & Hne).
    destruct (resolveOutlookCredentials_fields penv _ _ Hc) as (_ & _ & _ & H1 & H2 & H3).
    cbn in H1, H2, H3. repeat split; assumption.
Qed.

(** The scenario of X21: the configuration of [Scenario]. *)
Lemma resolveAccount_sound_witness :
  acc_mailbox Cases.account <> "" /\ acc_appId Cases.account <> "".
Proof.
  destruct (proj2 (resolveAccount_sound (mkProcessEnv None None None) (Scenario.cfg None))
              Cases.account eq_refl)
    as (_ & _ & H1 & H2 & _).
  split; assumption.
Defined.

(** X22.  [resolveAccount] throws a TypeError, instead of returning
    [undefined], exactly when the configuration has no [outlook] section
    while the environment provides all three credentials: it reads the
    mailbox of the missing section.  In that situation [listAccountIds]
    still lists the account and [isConfigured] is false. *)
Theorem resolveAccount_throws_without_section penv cfg :
  ((exists what, resolveAccount penv cfg = TypeError what) <->
   resolveOutlookChannelConfig cfg = None
   /\ exists c, resolveOutlookCredentials penv None = Some c)
  /\ ((exists what, resolveAccount penv cfg = TypeError what) ->
      listAccountIds cfg = ["default"] /\ isConfigured penv cfg = false).
Proof.
  assert (H : (exists what, resolveAccount penv cfg = TypeError what) <->
              resolveOutlookChannelConfig cfg = None
              /\ exists c, resolveOutlookCredentials penv None = Some c).
  { unfold resolveAccount.
    destruct (resolveOutlookChannelConfig cfg) as [c|].
    - split.
      + intros (what & Hw).
        destruct (enabled_is_false (Some c)); [discriminate|].
        destruct (resolveOutlookCredentials penv (Some c)); [|discriminate].
        destruct (negb _); discriminate.
      + intros [Hn _]. discriminate.
    - cbn [enabled_is_false].
      destruct (resolveOutlookCredentials penv None) as [creds|].
      + split; [eauto | intros _; eexists; reflexivity].
      + split; [intros (what & Hw); discriminate | intros (_ & c & Hc); discriminate]. }
  split; [exact H|].
  intros Ht. apply H in Ht. destruct Ht as [Hn _].
  unfold listAccountIds, isConfigured. rewrite Hn. split; reflexivity.
Qed.

(** The scenario of X22: no [outlook] section, credentials in the
    environment. *)
Lemma resolveAccount_throws_without_section_witness :
  listAccountIds (mkConfig None) = ["default"]
  /\ isConfigured (mkProcessEnv (Some "app") (Some "secret") (Some "tenant")) (mkConfig None)
     = false.
Proof.
  apply (proj2 (resolveAccount_throws_without_section
                  (mkProcessEnv (Some "app") (Some "secret") (Some "tenant"))
                  (mkConfig None))).
  eexists. reflexivity.
Defined.

(** X23.  The hints given to the agent and the monitor read the
    [draftOnly] setting alike: the hints always start with the hint on
    sending, and the draft-only hint is among them exactly when a monitor
    started from the same configuration reports draft-only mode in its
    start log. *)
Theorem messageToolHints_agree_with_monitor env cfg fuel w creds mailbox :
  resolveOutlookCredentials (env_process env) (resolveOutlookChannelConfig cfg)
  = Some creds ->
  chain_trim (resolveOutlookChannelConfig cfg) oc_mailbox = Some mailbox ->
  mailbox <> "" ->
  (exists rest, messageToolHints cfg = send_hint :: rest)
  /\ (In draft_only_hint (messageToolHints cfg) <->
      exists tl,
        trace (monitorOutlookEmail env cfg fuel w)
        = EvLog Info (LogMonitorStarted mailbox
                        (pollMs_of (resolveOutlookChannelConfig cfg)) true) :: tl).
Proof.
  intros Hc Hm Hne.
  assert (Hstart : exists tl,
             trace (monitorOutlookEmail env cfg fuel w)
             = EvLog Info (LogMonitorStarted mailbox
                             (pollMs_of (resolveOutlookChannelConfig cfg))
                             (draftOnly_of (resolveOutlookChannelConfig cfg))) :: tl).
  { unfold monitorOutlookEmail. rewrite Hc, Hm.
    rewrite (proj2 (truthy_some_iff mailbox) Hne). cbn [negb JS.nullish].
    unfold bind at 1. cbn [log emit].
    destruct (bind _ _ w) as [[r w1] t1]. cbn. eauto. }
  assert (Hh : messageToolHints cfg
               = if draftOnly_of (resolveOutlookChannelConfig cfg)
                 then [send_hint; draft_only_hint] else [send_hint]).
  { unfold messageToolHints, draftOnly_of.
    destruct (resolveOutlookChannelConfig cfg) as [c|]; [|reflexivity].
    destruct (oc_draftOnly c) as [[|]|]; reflexivity. }
  split.
  - rewrite Hh. destruct (draftOnly_of _); eauto.
  - destruct Hstart as (tl & Htl). rewrite Hh, Htl.
    destruct (draftOnly_of (resolveOutlookChannelConfig cfg)).
    + split; [eauto | intros _; right; left; reflexivity].
    + split.
      * intros [H|[]]. discriminate H.
      * intros (tl' & H). discriminate H.
Qed.

(** The scenario of X23: [draftOnly] unset. *)
Lemma messageToolHints_agree_with_monitor_witness :
  In draft_only_hint (messageToolHints (Scenario.cfg None)).
Proof.
  apply (proj2 (messageToolHints_agree_with_monitor (Scenario.env Scenario.agent (Some 0))
                  (Scenario.cfg None) 1 (Scenario.world 0 0) Scenario.creds
                  Scenario.mailbox eq_refl eq_refl ltac:(discriminate))).
  eexists. vm_compute. reflexivity.
Defined.

(** X24.  [probeAccount] never throws and reports every failure in its
    result.  Without an account, or with an empty application id or mailbox,
    it answers at once, without a request.  Otherwise it lists at most one
    unread message of the mailbox, and calls nothing else: the probe is ok
    exactly when that listing returns, and carries the error thrown
    otherwise. *)
Theorem probeAccount_reports env account w :
  let x := probeAccount env account w in
  (exists r, result x = Returned r /\ (probe_ok r = true <-> probe_error r = None))
  /\ (account = None
      \/ (exists a, account = Some a /\ (acc_appId a = "" \/ acc_mailbox a = "")) ->
      x = (Returned (mkProbeResult false
                       (Some (ProbeMessage "credentials or mailbox missing"))), w, []))
  /\ (forall a,
        account = Some a -> acc_appId a <> "" -> acc_mailbox a <> "" ->
        let l := listUnreadMessages env
                   (mkCreds (acc_appId a) (acc_appSecret a) (acc_tenantId a))
                   (acc_mailbox a) 1 w in
        trace x = trace l
        /\ world_after x = world_after l
        /\ mail_calls (trace x) = [OpListUnread (acc_mailbox a) 1]
        /\ result x = Returned (match result l with
                                | Returned _ => mkProbeResult true None
                                | Threw e => mkProbeResult false (Some (ProbeCaught e))
                                end)).
Proof.
  cbv zeta.
  assert (Hrun : forall a,
             acc_appId a <> "" -> acc_mailbox a <> "" ->
             probeAccount env (Some a) w
             = let l := listUnreadMessages env
                          (mkCreds (acc_appId a) (acc_appSecret a) (acc_tenantId a))
                          (acc_mailbox a) 1 w in
               (Returned (match result l with
                          | Returned _ => mkProbeResult true None
                          | Threw e => mkProbeResult false (Some (ProbeCaught e))
                          end), world_after l, trace l)).
  { intros a Ha Hm. unfold probeAccount.
    destruct (String.eqb_spec (acc_appId a) ""); [contradiction|].
    destruct (String.eqb_spec (acc_mailbox a) ""); [contradiction|].
    cbn [orb]. cbv zeta. unfold try_catch, bind.
    destruct (listUnreadMessages env _ (acc_mailbox a) 1 w) as [[r w1] t1].
    destruct r; cbn; rewrite app_nil_r; reflexivity. }
  assert (Hoff : account = None
                 \/ (exists a, account = Some a /\ (acc_appId a = "" \/ acc_mailbox a = "")) ->
                 probeAccount env account w
                 = (Returned (mkProbeResult false
                                (Some (ProbeMessage "credentials or mailbox missing"))),
                    w, [])).
  { intros [-> | (a & -> & H)]; [reflexivity|]. unfold probeAccount.
    destruct H as [-> | ->]; cbn [String.eqb orb]; rewrite ?orb_true_r; reflexivity. }
  split; [|split; [exact Hoff|]].
  - destruct account as [a|].
    + destruct (String.eqb_spec (acc_appId a) "") as [Ea|Ea].
      * rewrite Hoff by eauto. eexists. split; [reflexivity|]. cbn.
        split; discriminate.
      * destruct (String.eqb_spec (acc_mailbox a) "") as [Em|Em].
        -- rewrite Hoff by eauto. eexists. split; [reflexivity|]. cbn.
           split; discriminate.
        -- rewrite (Hrun a Ea Em). cbv zeta. eexists. split; [reflexivity|].
           destruct (result _); cbn; split; auto; discriminate.
    + rewrite Hoff by auto. eexists. split; [reflexivity|]. cbn. split; discriminate.
  - intros a -> Ha Hm. rewrite (Hrun a Ha Hm). cbv zeta.
    cbn [trace world_after result fst snd].
    repeat split.
    destruct (listUnreadMessages_shape env
                (mkCreds (acc_appId a) (acc_appSecret a) (acc_tenantId a))
                (acc_mailbox a) 1 w) as (tf & -> & Hq & _).
    cbn [mail_calls flat_map app]. fold (mail_calls tf).
    rewrite (quiet_mail_calls tf (only_fetches_quiet tf Hq)). reflexivity.
Qed.

(** The scenario of X24: the provider answers the listing with 503. *)
Lemma probeAccount_reports_witness :
  result (probeAccount (Cases.env Cases.transport_failing_graph None None)
            (Some Cases.account) (Scenario.world 0 3600000))
  = Returned (mkProbeResult false
                (Some (ProbeCaught (HttpError "list messages" 503 "service unavailable")))).
Proof.
  destruct (proj2 (proj2 (probeAccount_reports
                            (Cases.env Cases.transport_failing_graph None None)
                            (Some Cases.account) (Scenario.world 0 3600000)))
              Cases.account eq_refl ltac:(discriminate) ltac:(discriminate))
    as (_ & _ & _ & H).
  rewrite H. reflexivity.
Defined.

(* ===================================================================== *)
(** ** The order of processing *)
(* ===================================================================== *)

Lemma processMessage_block env creds mailbox msg d w core :
  env_runtime env = Some core ->
  exists bodies,
    mail_calls (trace (processMessage env creds mailbox msg d w))
    = message_calls d mailbox (msg, bodies).
Proof.
  intros Hr.
  destruct (processMessage_calls env creds mailbox msg d w) as (pre & Hpre & Hc).
  destruct (processMessage_begins env creds mailbox msg d w core Hr) as (tl & Htl).
  cbv zeta in Hc. rewrite Htl in Hc. cbn [mail_calls deliveries flat_map app] in Hc.
  fold (mail_calls tl) (deliveries tl) in Hc.
  rewrite Htl. cbn [mail_calls flat_map app]. fold (mail_calls tl).
  destruct Hpre as [-> | ->].
  - exfalso. cbn [app] in Hc.
    destruct (flushes [] (deliveries tl)) as [|b l]; cbn [map] in Hc; [discriminate|].
    destruct d; discriminate.
  - cbn [app] in Hc. injection Hc as Hc.
    exists (flushes [] (deliveries tl)). unfold message_calls. cbn [fst snd].
    rewrite Hc. reflexivity.
Qed.

Lemma forMessages_blocks env creds mailbox d msgs :
  forall w,
    let x := forMessages env creds mailbox d msgs w in
    exists blocks,
      map fst blocks = firstn (List.length blocks) msgs
      /\ mail_calls (trace x) = flat_map (message_calls d mailbox) blocks
      /\ (env_abortAt env = None -> result x = Returned tt -> map fst blocks = msgs).
Proof.
  induction msgs as [|m rest IH]; intros w x; subst x.
  - exists []. repeat split; reflexivity.
  - destruct (aborted env w) eqn:Ha.
    + rewrite forMessages_aborted by assumption. exists [].
      split; [reflexivity|]. split; [reflexivity|].
      intros Hn. unfold aborted in Ha. rewrite Hn in Ha. discriminate.
    + rewrite forMessages_cons_eq by assumption.
      destruct (env_runtime env) as [core|] eqn:Hr.
      * destruct (processMessage_block env creds mailbox m d w core Hr) as (bodies & Hb).
        destruct (processMessage env creds mailbox m d w) as [[ra w2] ta].
        cbn [trace snd] in Hb.
        destruct ra as [u|e].
        -- destruct (IH w2) as (blocks & Hfst & Hcalls & Hall).
           destruct (forMessages env creds mailbox d rest w2) as [[r w3] t3].
           cbn [trace result fst snd] in *.
           exists ((m, bodies) :: blocks).
           split; [cbn; rewrite Hfst; reflexivity|].
           split.
           ++ rewrite mail_calls_app, Hb, Hcalls. reflexivity.
           ++ intros Hn Hres. cbn. rewrite (Hall Hn Hres). reflexivity.
        -- exists [(m, bodies)]. cbn [trace result fst snd].
           split; [reflexivity|]. split; [rewrite Hb; cbn; rewrite app_nil_r; reflexivity|].
           intros _ H. discriminate.
      * rewrite processMessage_no_runtime by assumption.
        exists []. split; [reflexivity|]. split; [reflexivity|].
        intros _ H. discriminate.
Qed.

(** The mail calls of one cycle: the listing, then the listed messages in
    order. *)
Lemma pollCycle_blocks env creds mailbox d w :
  let l := listUnreadMessages env creds mailbox 20 w in
  exists blocks,
    mail_calls (trace (pollCycle env creds mailbox d w))
    = OpListUnread mailbox 20 :: flat_map (message_calls d mailbox) blocks
    /\ (blocks <> [] ->
        exists msgs, result l = Returned msgs
                     /\ map fst blocks = firstn (List.length blocks) msgs).
Proof.
  cbv zeta. rewrite pollCycle_eq.
  destruct (listUnreadMessages_shape env creds mailbox 20 w) as (tf & Ht & Hq & _).
  destruct (listUnreadMessages env creds mailbox 20 w) as [[rl w1] tl].
  cbn [trace snd result fst] in *. subst tl.
  assert (Hl : mail_calls (EvCall (OpListUnread mailbox 20) :: tf)
               = [OpListUnread mailbox 20]).
  { cbn [mail_calls flat_map app]. fold (mail_calls tf).
    rewrite (quiet_mail_calls tf (only_fetches_quiet tf Hq)). reflexivity. }
  destruct rl as [msgs|e].
  - destruct (forMessages_blocks env creds mailbox d msgs w1) as (blocks & Hfst & Hc & _).
    destruct (forMessages env creds mailbox d msgs w1) as [[rf w2] tf'].
    cbn [trace snd] in Hc.
    exists blocks. split; [|intros _; eauto].
    destruct rf; [|destruct (aborted env w2)]; cbn [trace snd];
      rewrite ?mail_calls_app, Hl, Hc; cbn [mail_calls flat_map app];
      rewrite ?app_nil_r; reflexivity.
  - exists []. split; [|intros H; contradiction].
    destruct (aborted env w1); cbn [trace snd]; rewrite ?mail_calls_app, Hl; reflexivity.
Qed.

(** X25.  The messages of a cycle are processed one after the other, in the
    order listed: the mail calls of the loop over the messages are, message
    by message for a prefix of the list, the marking of that message
    followed by its own replies or drafts, and nothing else; no call for a
    message comes before the calls of its predecessor are over.  When the
    signal never fires and the loop returns normally, that prefix is the
    whole list.  A cycle makes one listing call and then only such calls,
    for messages that the listing returned. *)
Theorem messages_processed_in_order env creds mailbox d msgs w :
  let x := forMessages env creds mailbox d msgs w in
  let l := listUnreadMessages env creds mailbox 20 w in
  (exists blocks,
     map fst blocks = firstn (List.length blocks) msgs
     /\ mail_calls (trace x) = flat_map (message_calls d mailbox) blocks
     /\ (env_abortAt env = None -> result x = Returned tt -> map fst blocks = msgs))
  /\ (exists blocks,
        mail_calls (trace (pollCycle env creds mailbox d w))
        = OpListUnread mailbox 20 :: flat_map (message_calls d mailbox) blocks
        /\ (blocks <> [] ->
            exists listed, result l = Returned listed
                           /\ map fst blocks = firstn (List.length blocks) listed)).
Proof.
  split; [apply forMessages_blocks | apply pollCycle_blocks].
Qed.

(** The scenario of X25: [msgA] answered with a draft, then [msgB], whose
    dispatch throws. *)
Lemma messages_processed_in_order_witness :
  exists blocks,
    map fst blocks = [Scenario.msgA; Scenario.msgB]
    /\ mail_calls (trace (forMessages (Scenario.env Scenario.agent None) Scenario.creds
                            Scenario.mailbox true [Scenario.msgA; Scenario.msgB]
                            (Scenario.world 0 3600000)))
       = flat_map (message_calls true Scenario.mailbox) blocks.
Proof.
  destruct (proj1 (messages_processed_in_order (Scenario.env Scenario.agent None)
                     Scenario.creds Scenario.mailbox true [Scenario.msgA; Scenario.msgB]
                     (Scenario.world 0 3600000)))
    as (blocks & _ & Hcalls & Hall).
  exists blocks. split; [apply Hall; reflexivity | exact Hcalls].
Defined.

(* ===================================================================== *)
(** ** What the monitor may call *)
(* ===================================================================== *)

Lemma message_calls_confined d mailbox (blocks : list (GraphMessage * list string)) :
  Forall (fun op => monitor_call d mailbox op = true)
         (flat_map (message_calls d mailbox) blocks).
Proof.
  induction blocks as [|[m bodies] blocks IH]; [constructor|].
  cbn [flat_map]. apply Forall_app. split; [|exact IH].
  unfold message_calls. cbn [fst snd].
  constructor; [cbn; apply String.eqb_refl|].
  induction bodies as [|b bodies IHb]; [constructor|].
  cbn [map]. constructor; [|exact IHb].
  destruct d; cbn; rewrite String.eqb_refl; reflexivity.
Qed.

Lemma pollCycle_confined env creds mailbox d w :
  Forall (fun op => monitor_call d mailbox op = true)
         (mail_calls (trace (pollCycle env creds mailbox d w))).
Proof.
  destruct (pollCycle_blocks env creds mailbox d w) as (blocks & -> & _).
  constructor; [cbn; rewrite String.eqb_refl; reflexivity|].
  apply message_calls_confined.
Qed.

Lemma monitorLoop_confined env creds mailbox pollMs d fuel :
  forall w,
    Forall (fun op => monitor_call d mailbox op = true)
           (mail_calls (trace (monitorLoop env fuel creds mailbox pollMs d w))).
Proof.
  induction fuel as [|fuel IH]; intros w.
  - cbn [monitorLoop]. unfold bind. cbn [get_world].
    destruct (aborted env w); constructor.
  - destruct (aborted env w) eqn:Ha.
    + rewrite monitorLoop_aborted by assumption. constructor.
    + rewrite monitorLoop_eq by assumption.
      pose proof (pollCycle_confined env creds mailbox d w) as Hc.
      destruct (pollCycle env creds mailbox d w) as [[rc wc] tc].
      cbn [trace snd] in Hc.
      destruct rc as [[|]|e]; [|exact Hc|exact Hc].
      destruct (sleep env pollMs wc) as [[rs ws] ts].
      destruct rs as [u|e]; [|exact Hc].
      specialize (IH ws).
      destruct (monitorLoop env fuel creds mailbox pollMs d ws) as [[r w3] t3].
      cbn [trace snd] in *. rewrite mail_calls_app. apply Forall_app. auto.
Qed.

(** X26.  Over its whole run, whatever the transport and the host do, the
    monitor enters no function of [graph.ts] other than the listing of
    twenty messages, [markAsRead] and the flush of its one branch, all on
    the configured mailbox: in draft-only mode (the setting unset or true)
    it never calls [replyToMessage], with the setting false it never calls
    [createDraftReply], and it never calls [sendNewMail]. *)
Theorem monitor_calls_are_confined env cfg fuel w :
  let oc := resolveOutlookChannelConfig cfg in
  let calls := mail_calls (trace (monitorOutlookEmail env cfg fuel w)) in
  (forall op, In op calls ->
     op_mailbox op = JS.nullish (chain_trim oc oc_mailbox) ""
     /\ monitor_call (draftOnly_of oc) (op_mailbox op) op = true)
  /\ (configured_draftOnly oc <> Some false -> forall m i b, ~ In (OpReply m i b) calls)
  /\ (configured_draftOnly oc = Some false ->
      forall m i b, ~ In (OpCreateDraftReply m i b) calls)
  /\ (forall m t s b, ~ In (OpSendNewMail m t s b) calls).
Proof.
  intros oc calls.
  assert (Hall : Forall (fun op => monitor_call (draftOnly_of oc)
                                     (JS.nullish (chain_trim oc oc_mailbox) "") op = true)
                        calls).
  { subst calls. unfold monitorOutlookEmail. fold oc.
    destruct (resolveOutlookCredentials (env_process env) oc) as [creds|]; [|constructor].
    destruct (negb (JS.truthy (chain_trim oc oc_mailbox))); [constructor|].
    unfold bind at 1. cbn [log emit]. unfold bind at 1.
    pose proof (monitorLoop_confined env creds (JS.nullish (chain_trim oc oc_mailbox) "")
                  (pollMs_of oc) (draftOnly_of oc) fuel w) as Hl.
    destruct (monitorLoop env fuel creds _ _ _ w) as [[r w1] t1].
    cbn [trace snd] in Hl.
    destruct r as [[| |]|e]; cbn [bind log emit ret trace snd app];
      change (EvLog ?l ?m :: ?t) with ([EvLog l m] ++ t);
      rewrite ?mail_calls_app; cbn [mail_calls flat_map app]; rewrite ?app_nil_r;
      exact Hl. }
  rewrite Forall_forall in Hall.
  assert (Hbox : forall op mb d, monitor_call d mb op = true -> op_mailbox op = mb).
  { intros op mb d H. destruct op; cbn in H |- *; try discriminate;
      repeat match goal with
             | H : (_ && _)%bool = true |- _ => apply andb_prop in H; destruct H
             end; apply String.eqb_eq; assumption. }
  split; [|split; [|split]].
  - intros op Hin. specialize (Hall op Hin).
    pose proof (Hbox _ _ _ Hall) as ->. auto.
  - intros Hd m i b Hin. specialize (Hall _ Hin). cbn in Hall.
    assert (draftOnly_of oc = true).
    { unfold draftOnly_of, configured_draftOnly in *.
      destruct oc as [c|]; [|reflexivity].
      destruct (oc_draftOnly c) as [[|]|]; try reflexivity. contradiction. }
    rewrite H in Hall. rewrite andb_false_r in Hall. discriminate.
  - intros Hd m i b Hin. specialize (Hall _ Hin). cbn in Hall.
    assert (draftOnly_of oc = false).
    { unfold draftOnly_of, configured_draftOnly in *.
      destruct oc as [c|]; [|discriminate]. rewrite Hd. reflexivity. }
    rewrite H in Hall. rewrite andb_false_r in Hall. discriminate.
  - intros m t s b Hin. specialize (Hall _ Hin). discriminate.
Qed.

(** The scenario of X26: three iterations in draft-only mode. *)
Lemma monitor_calls_are_confined_witness :
  ~ In (OpReply Scenario.mailbox "msg-A" "Bye")
       (mail_calls (trace (monitorOutlookEmail (Scenario.env Scenario.agent None)
                             (Scenario.cfg (Some true)) 3 (Scenario.world 0 3600000)))).
Proof.
  apply (proj1 (proj2 (monitor_calls_are_confined (Scenario.env Scenario.agent None)
                         (Scenario.cfg (Some true)) 3 (Scenario.world 0 3600000)))).
  discriminate.
Defined.
